(** * contentchef-go: the request and response pipeline of the ContentChef client

    A shallow embedding of package [contentchef] (client.go and the channel
    file: query serialisation, client construction, response
    classification, request execution, the channel facades), with the
    properties of the specification stated over it.

    Layout:
    - what the package calls in the Go standard library and in
      go-querystring, after their sources: [strings] and [unicode] white
      space, [unicode/utf8], the syntax of [encoding/json], [net/url],
      [url.Values], [time], the kinds of [reflect], [query.Values],
      [net/http] requests;
    - package [contentchef], function by function, names kept; what the
      JSON codec does inside Go values other than the error structure is
      left open, in the class [Library];
    - the definitions the properties are stated with, and the inputs of the
      repository's tests;
    - the properties, each stated for an arbitrary [Library].

    Go strings are byte sequences: they are modelled by [string], whose
    characters are the bytes.  A Go [int] that is only carried around
    (status codes, paging offsets) is a [Z].  A function that returns a value
    and an error returns a sum, [inl] for the value; a pointer that may be
    nil is an [option]. *)

From Stdlib Require Import ZArith NArith Ascii String List Bool Lia DecimalString.
From stdpp Require Import base tactics option list strings gmap sorting.

Local Open Scope Z_scope.
#[local] Set Warnings "-register-all".

(* ===================================================================== *)
(** * Bytes and strings *)
(* ===================================================================== *)

Module Bytes.

(** The string made of the given byte values. *)
Definition of_codes (l : list N) : string :=
  string_of_list_ascii (map ascii_of_N l).

(** [strip_prefix p s] is the rest of [s] after the prefix [p], when [s]
    starts with [p]. *)
Fixpoint strip_prefix (p s : string) : option string :=
  match p, s with
  | EmptyString, _ => Some s
  | String a p', String b s' =>
      if Ascii.eqb a b then strip_prefix p' s' else None
  | String _ _, EmptyString => None
  end.

(** The rest of [s] after the first of the prefixes [ps] it starts with. *)
Fixpoint strip_any (ps : list string) (s : string) : option string :=
  match ps with
  | [] => None
  | p :: ps' =>
      match strip_prefix p s with
      | Some r => Some r
      | None => strip_any ps' s
      end
  end.

(** Remove leading occurrences of the (non-empty) strings [ps], at most
    [fuel] of them. *)
Fixpoint strip_leading (fuel : nat) (ps : list string) (s : string) : string :=
  match fuel with
  | O => s
  | S fuel' =>
      match strip_any ps s with
      | Some r => strip_leading fuel' ps r
      | None => s
      end
  end.

End Bytes.

(** ** Package [unicode]: white space *)

Module unicode.

(** The UTF-8 encodings of the runes for which [unicode.IsSpace] holds:
    U+0009..U+000D, U+0020, U+0085, U+00A0, U+1680, U+2000..U+200A, U+2028,
    U+2029, U+202F, U+205F, U+3000. *)
Definition space_encodings : list string :=
  map Bytes.of_codes
    [ [9]; [10]; [11]; [12]; [13]; [32];
      [194; 133]; [194; 160];
      [225; 154; 128];
      [226; 128; 128]; [226; 128; 129]; [226; 128; 130]; [226; 128; 131];
      [226; 128; 132]; [226; 128; 133]; [226; 128; 134]; [226; 128; 135];
      [226; 128; 136]; [226; 128; 137]; [226; 128; 138];
      [226; 128; 168]; [226; 128; 169]; [226; 128; 175];
      [226; 129; 159];
      [227; 128; 128] ]%N.

End unicode.

(** ** Package [strings] *)

Module strings.

(** [strings.TrimSpace]: all leading and all trailing white space (as
    [unicode.IsSpace] decides on the decoded runes) removed.  A rune is a
    leading (trailing) white-space rune exactly when the string starts (ends)
    with its encoding: an invalid byte decodes to U+FFFD, which is no space. *)
Definition TrimLeftSpace (s : string) : string :=
  Bytes.strip_leading (String.length s) unicode.space_encodings s.

Definition TrimRightSpace (s : string) : string :=
  String.rev
    (Bytes.strip_leading (String.length s)
       (map String.rev unicode.space_encodings) (String.rev s)).

Definition TrimSpace (s : string) : string :=
  TrimRightSpace (TrimLeftSpace s).

(** [strings.Join]: the elements with [sep] between neighbours. *)
Fixpoint Join (elems : list string) (sep : string) : string :=
  match elems with
  | [] => ""
  | [a] => a
  | a :: rest => a +:+ sep +:+ Join rest sep
  end.

Definition HasPrefix (s prefix : string) : bool :=
  match Bytes.strip_prefix prefix s with Some _ => true | None => false end.

Definition HasSuffix (s suffix : string) : bool :=
  HasPrefix (String.rev s) (String.rev suffix).

(** The parts of [s] before and after the first occurrence of [sep], when
    there is one ([strings.Index] and the two slices around it). *)
Fixpoint Cut (s sep : string) : option (string * string) :=
  match Bytes.strip_prefix sep s with
  | Some after => Some ("", after)
  | None =>
      match s with
      | EmptyString => None
      | String a s' =>
          match Cut s' sep with
          | Some (before, after) => Some (String a before, after)
          | None => None
          end
      end
  end.

(** The same around the last occurrence of the byte [c]
    ([strings.LastIndex] with a one-byte separator). *)
Fixpoint CutLast (s : string) (c : ascii) : option (string * string) :=
  match s with
  | EmptyString => None
  | String a s' =>
      match CutLast s' c with
      | Some (before, after) => Some (String a before, after)
      | None => if Ascii.eqb a c then Some ("", s') else None
      end
  end.

Definition Contains (s substr : string) : bool :=
  match Cut s substr with Some _ => true | None => false end.

(** [strings.Count] for a one-byte separator. *)
Fixpoint CountByte (s : string) (c : ascii) : nat :=
  match s with
  | EmptyString => O
  | String a s' => (if Ascii.eqb a c then 1 else 0)%nat + CountByte s' c
  end.

(** [strings.Split] for a one-byte separator: the parts between its
    occurrences, one part more than there are occurrences. *)
Fixpoint SplitByte (s : string) (c : ascii) : list string :=
  match s with
  | EmptyString => [EmptyString]
  | String a s' =>
      if Ascii.eqb a c then EmptyString :: SplitByte s' c
      else
        match SplitByte s' c with
        | part :: parts => String a part :: parts
        | [] => [String a EmptyString]
        end
  end.

Definition TrimPrefix (s prefix : string) : string :=
  match Bytes.strip_prefix prefix s with Some rest => rest | None => s end.

Definition TrimSuffix (s suffix : string) : string :=
  String.rev (TrimPrefix (String.rev s) (String.rev suffix)).

(** [strings.ToLower] on ASCII text. *)
Definition lower (a : ascii) : ascii :=
  let n := N_of_ascii a in
  if ((65 <=? n) && (n <=? 90))%N then ascii_of_N (n + 32) else a.

Fixpoint ToLower (s : string) : string :=
  match s with
  | EmptyString => EmptyString
  | String a s' => String (lower a) (ToLower s')
  end.

End strings.

(* ===================================================================== *)
(** * Package [unicode/utf8] *)
(* ===================================================================== *)

Module utf8.

(** The bytes of the UTF-8 encoding of the code point [r]
    ([utf8.EncodeRune] on a valid, non-surrogate rune). *)
Definition EncodeRune (r : N) : list ascii :=
  map ascii_of_N
    (if r <? 128 then [r]
     else if r <? 2048 then
       [N.lor 192 (N.shiftr r 6); N.lor 128 (N.land r 63)]
     else if r <? 65536 then
       [N.lor 224 (N.shiftr r 12); N.lor 128 (N.land (N.shiftr r 6) 63);
        N.lor 128 (N.land r 63)]
     else
       [N.lor 240 (N.shiftr r 18); N.lor 128 (N.land (N.shiftr r 12) 63);
        N.lor 128 (N.land (N.shiftr r 6) 63); N.lor 128 (N.land r 63)])%N.

(** U+FFFD, what an invalid byte or an unpaired surrogate decodes to. *)
Definition RuneError : N := 65533%N.

Definition in_range (lo hi x : N) : bool := ((lo <=? x) && (x <=? hi))%N.

Definition cont (b : N) : bool := in_range 128 191 b.

(** Whether [b0 b1] is a well-formed two-byte sequence, and likewise for
    three and four bytes (the accept ranges of [utf8.DecodeRune]: no
    overlong form, no surrogate, nothing above U+10FFFF). *)
Definition valid2 (b0 b1 : N) : bool :=
  in_range 194 223 b0 && cont b1.

Definition valid3 (b0 b1 b2 : N) : bool :=
  ((b0 =? 224) && in_range 160 191 b1
   || in_range 225 236 b0 && cont b1
   || (b0 =? 237) && in_range 128 159 b1
   || in_range 238 239 b0 && cont b1)%N
  && cont b2.

Definition valid4 (b0 b1 b2 b3 : N) : bool :=
  ((b0 =? 240) && in_range 144 191 b1
   || in_range 241 243 b0 && cont b1
   || (b0 =? 244) && in_range 128 143 b1)%N
  && cont b2 && cont b3.

End utf8.

(* ===================================================================== *)
(** * Package [encoding/json]: syntax *)
(* ===================================================================== *)

Module json.

(** A JSON text as [encoding/json] reads it.  A number keeps its literal;
    an object keeps its members in order, repeated keys included. *)
Inductive value :=
| Null
| Bool (b : bool)
| Number (literal : string)
| Str (s : string)
| Array (elems : list value)
| Object (members : list (string * value)).

Inductive token :=
| TLBrace | TRBrace | TLBracket | TRBracket | TColon | TComma
| TScalar (v : value).

(** The double quote and the backslash. *)
Definition dquote : ascii := ascii_of_N 34.
Definition backslash : ascii := ascii_of_N 92.

(** ** String literals

    The inside of a string literal is read into units: a byte (written as
    such, or by a one-letter escape) or a UTF-16 code unit (a [\u] escape).
    [decode_units] then does what the decoder's unquoting does: a surrogate
    pair becomes one rune, an unpaired surrogate becomes U+FFFD, and bytes
    that are not well-formed UTF-8 become U+FFFD one byte at a time. *)
Inductive unit_ :=
| UByte (b : ascii)
| UCode (u : N).

Definition is_high (u : N) : bool := utf8.in_range 55296 56319 u.
Definition is_low (u : N) : bool := utf8.in_range 56320 57343 u.
Definition is_surrogate (u : N) : bool := utf8.in_range 55296 57343 u.

Definition combine_surrogates (hi lo : N) : N :=
  (65536 + (hi - 55296) * 1024 + (lo - 56320))%N.

Definition encode_unit (u : N) : list ascii :=
  utf8.EncodeRune (if is_surrogate u then utf8.RuneError else u).

Definition replacement : list ascii := utf8.EncodeRune utf8.RuneError.

Fixpoint decode_units (us : list unit_) : list ascii :=
  match us with
  | [] => []
  | UCode u :: rest =>
      match rest with
      | UCode l :: rest' =>
          if is_high u && is_low l
          then utf8.EncodeRune (combine_surrogates u l) ++ decode_units rest'
          else encode_unit u ++ decode_units rest
      | _ => encode_unit u ++ decode_units rest
      end
  | UByte a0 :: rest =>
      let b0 := N_of_ascii a0 in
      if (b0 <? 128)%N then a0 :: decode_units rest
      else
        match rest with
        | UByte a1 :: rest1 =>
            let b1 := N_of_ascii a1 in
            if utf8.valid2 b0 b1 then a0 :: a1 :: decode_units rest1
            else
              match rest1 with
              | UByte a2 :: rest2 =>
                  let b2 := N_of_ascii a2 in
                  if utf8.valid3 b0 b1 b2
                  then a0 :: a1 :: a2 :: decode_units rest2
                  else
                    match rest2 with
                    | UByte a3 :: rest3 =>
                        if utf8.valid4 b0 b1 b2 (N_of_ascii a3)
                        then a0 :: a1 :: a2 :: a3 :: decode_units rest3
                        else replacement ++ decode_units rest
                    | _ => replacement ++ decode_units rest
                    end
              | _ => replacement ++ decode_units rest
              end
        | _ => replacement ++ decode_units rest
        end
  end.

Definition hex_digit (c : ascii) : option N :=
  let n := N_of_ascii c in
  if utf8.in_range 48 57 n then Some (n - 48)%N
  else if utf8.in_range 97 102 n then Some (n - 87)%N
  else if utf8.in_range 65 70 n then Some (n - 55)%N
  else None.

(** The byte a one-letter escape stands for. *)
Definition simple_escape (c : ascii) : option ascii :=
  if Ascii.eqb c dquote then Some dquote
  else if Ascii.eqb c backslash then Some backslash
  else if Ascii.eqb c "/" then Some "/"%char
  else if Ascii.eqb c "b" then Some (ascii_of_N 8)
  else if Ascii.eqb c "f" then Some (ascii_of_N 12)
  else if Ascii.eqb c "n" then Some (ascii_of_N 10)
  else if Ascii.eqb c "r" then Some (ascii_of_N 13)
  else if Ascii.eqb c "t" then Some (ascii_of_N 9)
  else None.

(** ** The scanner

    One byte at a time, as [encoding/json]'s scanner: the state says which
    token is being read. *)
Inductive numstate :=
| NMinus      (* after the sign: a digit must follow *)
| NZero       (* after a leading 0 *)
| NInt        (* in the digits of the integer part *)
| NDot        (* after the point: a digit must follow *)
| NFrac       (* in the digits of the fraction *)
| NE          (* after e or E: a sign or a digit must follow *)
| NESign      (* after the exponent's sign: a digit must follow *)
| NExp.       (* in the digits of the exponent *)

Definition num_accepting (st : numstate) : bool :=
  match st with
  | NZero | NInt | NFrac | NExp => true
  | _ => false
  end.

Definition is_digit (c : ascii) : bool := utf8.in_range 48 57 (N_of_ascii c).
Definition is_e (c : ascii) : bool := Ascii.eqb c "e" || Ascii.eqb c "E".
Definition is_sign (c : ascii) : bool := Ascii.eqb c "+" || Ascii.eqb c "-".

(** The number state after one more byte of the number, if [c] continues it. *)
Definition num_step (st : numstate) (c : ascii) : option numstate :=
  match st with
  | NMinus =>
      if Ascii.eqb c "0" then Some NZero
      else if is_digit c then Some NInt else None
  | NZero =>
      if Ascii.eqb c "." then Some NDot
      else if is_e c then Some NE else None
  | NInt =>
      if is_digit c then Some NInt
      else if Ascii.eqb c "." then Some NDot
      else if is_e c then Some NE else None
  | NDot => if is_digit c then Some NFrac else None
  | NFrac =>
      if is_digit c then Some NFrac
      else if is_e c then Some NE else None
  | NE =>
      if is_sign c then Some NESign
      else if is_digit c then Some NExp else None
  | NESign => if is_digit c then Some NExp else None
  | NExp => if is_digit c then Some NExp else None
  end.

Inductive lstate :=
| LStart
| LStr (acc : list unit_)                 (* inside a string literal *)
| LEsc (acc : list unit_)                 (* after a backslash *)
| LHex (acc : list unit_) (n : nat) (v : N) (* in a \u escape, n digits read *)
| LNum (st : numstate) (acc : list ascii) (* inside a number *)
| LLit (rest : list ascii) (v : value).   (* inside true, false or null *)

(** The four bytes of white space between tokens. *)
Definition isSpace (c : ascii) : bool :=
  Ascii.eqb c " " || Ascii.eqb c (ascii_of_N 9)
  || Ascii.eqb c (ascii_of_N 13) || Ascii.eqb c (ascii_of_N 10).

Definition str_of_units (acc : list unit_) : value :=
  Str (string_of_list_ascii (decode_units (rev acc))).

Definition num_of (acc : list ascii) : value :=
  Number (string_of_list_ascii (rev acc)).

(** A byte met between tokens: the new state and the token it completes. *)
Definition scan_start (c : ascii) : option (lstate * list token) :=
  if isSpace c then Some (LStart, [])
  else if Ascii.eqb c "{" then Some (LStart, [TLBrace])
  else if Ascii.eqb c "}" then Some (LStart, [TRBrace])
  else if Ascii.eqb c "[" then Some (LStart, [TLBracket])
  else if Ascii.eqb c "]" then Some (LStart, [TRBracket])
  else if Ascii.eqb c ":" then Some (LStart, [TColon])
  else if Ascii.eqb c "," then Some (LStart, [TComma])
  else if Ascii.eqb c dquote then Some (LStr [], [])
  else if Ascii.eqb c "-" then Some (LNum NMinus [c], [])
  else if Ascii.eqb c "0" then Some (LNum NZero [c], [])
  else if is_digit c then Some (LNum NInt [c], [])
  else if Ascii.eqb c "t" then
    Some (LLit (list_ascii_of_string "rue") (Bool true), [])
  else if Ascii.eqb c "f" then
    Some (LLit (list_ascii_of_string "alse") (Bool false), [])
  else if Ascii.eqb c "n" then
    Some (LLit (list_ascii_of_string "ull") Null, [])
  else None.

Definition scan_step (st : lstate) (c : ascii) : option (lstate * list token) :=
  match st with
  | LStart => scan_start c
  | LStr acc =>
      if Ascii.eqb c dquote then Some (LStart, [TScalar (str_of_units acc)])
      else if Ascii.eqb c backslash then Some (LEsc acc, [])
      else if (N_of_ascii c <? 32)%N then None
      else Some (LStr (UByte c :: acc), [])
  | LEsc acc =>
      if Ascii.eqb c "u" then Some (LHex acc 0 0%N, [])
      else
        match simple_escape c with
        | Some b => Some (LStr (UByte b :: acc), [])
        | None => None
        end
  | LHex acc n v =>
      match hex_digit c with
      | Some d =>
          let v' := (16 * v + d)%N in
          if Nat.eqb n 3 then Some (LStr (UCode v' :: acc), [])
          else Some (LHex acc (S n) v', [])
      | None => None
      end
  | LNum nst acc =>
      match num_step nst c with
      | Some nst' => Some (LNum nst' (c :: acc), [])
      | None =>
          if num_accepting nst then
            match scan_start c with
            | Some (st', ts) => Some (st', TScalar (num_of acc) :: ts)
            | None => None
            end
          else None
      end
  | LLit rest v =>
      match rest with
      | [] => None
      | x :: rest' =>
          if Ascii.eqb c x then
            match rest' with
            | [] => Some (LStart, [TScalar v])
            | _ => Some (LLit rest' v, [])
            end
          else None
      end
  end.

(** The tokens of a text, or [None] on a byte no token can contain. *)
Fixpoint scan (st : lstate) (s : list ascii) : option (list token) :=
  match s with
  | [] =>
      match st with
      | LStart => Some []
      | LNum nst acc =>
          if num_accepting nst then Some [TScalar (num_of acc)] else None
      | _ => None
      end
  | c :: s' =>
      match scan_step st c with
      | Some (st', ts) =>
          match scan st' s' with
          | Some rest => Some (ts ++ rest)
          | None => None
          end
      | None => None
      end
  end.

(** ** The grammar, over tokens

    The stack holds the arrays and objects that are open, innermost first,
    each with what it has collected (latest first). *)
Inductive frame :=
| InArray (elems : list value)
| InObject (members : list (string * value)) (key : option string).

Inductive expect :=
| EValue          (* a value must start here *)
| EValueOrClose   (* just after an opening bracket *)
| EKeyOrClose     (* just after an opening brace *)
| EKey            (* after a comma in an object *)
| EColon          (* after a key *)
| ENext           (* after a value inside an array or object *)
| EEnd (v : value). (* the top-level value is complete *)

Definition pstate : Type := list frame * expect.

(** A complete value goes to the innermost open container, or ends the text. *)
Definition push_value (v : value) (stack : list frame) : option pstate :=
  match stack with
  | [] => Some ([], EEnd v)
  | InArray es :: st => Some (InArray (v :: es) :: st, ENext)
  | InObject ms (Some k) :: st => Some (InObject ((k, v) :: ms) None :: st, ENext)
  | InObject _ None :: _ => None
  end.

Definition starts_value (e : expect) : bool :=
  match e with EValue | EValueOrClose => true | _ => false end.

Definition parse_step (ps : pstate) (t : token) : option pstate :=
  let '(stack, e) := ps in
  match t with
  | TScalar v =>
      if starts_value e then push_value v stack
      else
        match e, v, stack with
        | (EKeyOrClose | EKey), Str k, InObject ms None :: st =>
            Some (InObject ms (Some k) :: st, EColon)
        | _, _, _ => None
        end
  | TLBracket =>
      if starts_value e then Some (InArray [] :: stack, EValueOrClose) else None
  | TLBrace =>
      if starts_value e then Some (InObject [] None :: stack, EKeyOrClose) else None
  | TRBracket =>
      match e, stack with
      | (EValueOrClose | ENext), InArray es :: st => push_value (Array (rev es)) st
      | _, _ => None
      end
  | TRBrace =>
      match e, stack with
      | (EKeyOrClose | ENext), InObject ms None :: st =>
          push_value (Object (rev ms)) st
      | _, _ => None
      end
  | TComma =>
      match e, stack with
      | ENext, InArray _ :: _ => Some (stack, EValue)
      | ENext, InObject _ _ :: _ => Some (stack, EKey)
      | _, _ => None
      end
  | TColon =>
      match e with
      | EColon => Some (stack, EValue)
      | _ => None
      end
  end.

Fixpoint parse_tokens (ps : pstate) (ts : list token) : option value :=
  match ts with
  | [] => match ps with (_, EEnd v) => Some v | _ => None end
  | t :: ts' =>
      match parse_step ps t with
      | Some ps' => parse_tokens ps' ts'
      | None => None
      end
  end.

(** The value a text denotes; [None] when the text is not valid JSON (what
    [json.Unmarshal] reports as a syntax error before it stores anything). *)
Definition Parse (data : string) : option value :=
  match scan LStart (list_ascii_of_string data) with
  | Some ts => parse_tokens ([], EValue) ts
  | None => None
  end.

(** ** Matching an object key with a field name

    The decoder matches a key with a struct field whose name equals it up
    to case: ASCII letters match in either case, and the long s (U+017F) and
    the Kelvin sign (U+212A) match the letters s and k. *)
Definition long_s : string := Bytes.of_codes [197; 191]%N.
Definition kelvin : string := Bytes.of_codes [226; 132; 170]%N.

Fixpoint equalFold (name key : string) : bool :=
  match name, key with
  | EmptyString, EmptyString => true
  | String sb name', String tb key' =>
      if (N_of_ascii tb <? 128)%N then
        (Ascii.eqb sb tb
         || (let su := N.land (N_of_ascii sb) 223 in
             utf8.in_range 65 90 su && (su =? N.land (N_of_ascii tb) 223)%N))
        && equalFold name' key'
      else
        let folded :=
          if Ascii.eqb (strings.lower sb) "s" then Bytes.strip_prefix long_s key
          else if Ascii.eqb (strings.lower sb) "k" then Bytes.strip_prefix kelvin key
          else None in
        match folded with
        | Some key'' => equalFold name' key''
        | None => false
        end
  | _, _ => false
  end.

(** How the decoder names the kind of a value in a type error. *)
Definition kind (v : value) : string :=
  match v with
  | Null => "null"
  | Bool _ => "bool"
  | Number _ => "number"
  | Str _ => "string"
  | Array _ => "array"
  | Object _ => "object"
  end.

End json.

(* ===================================================================== *)
(** * Go error values *)
(* ===================================================================== *)

(** The error values of the libraries that the package passes on or
    compares with.  The package's own error type, [*errorResponse], is
    added to them by [error] below. *)
Inductive goerror :=
| errors_New (text : string)               (* errors.New(text) *)
| io_EOF                                    (* io.EOF *)
| context_Canceled                          (* context.Canceled *)
| context_DeadlineExceeded                  (* context.DeadlineExceeded *)
| json_UnmarshalTypeError (value field : string) (* *json.UnmarshalTypeError *)
| json_SyntaxError                          (* *json.SyntaxError *)
| url_EscapeError (s : string)              (* url.EscapeError *)
| url_InvalidHostError (s : string)         (* url.InvalidHostError *)
| url_InvalidPort (colonPort : string)      (* the "invalid port" error of parseHost *)
| url_Error (op url_ : string) (err : goerror) (* *url.Error *)
| http_invalid_method (method : string)     (* the error of http.NewRequest *)
| other_error (text : string).              (* any other error, e.g. the transport's *)

(** A result or an error, and sequencing that stops at the first error. *)
Definition bind {A B} (x : A + goerror) (f : A -> B + goerror) : B + goerror :=
  match x with
  | inl a => f a
  | inr e => inr e
  end.

Notation "'let*' x ':=' c 'in' k" := (bind c (fun x => k))
  (at level 10, x pattern, c at level 100, k at level 200).

(* ===================================================================== *)
(** * Package [net/url] *)
(* ===================================================================== *)

(** [url.Parse], [URL.String] and [url.QueryEscape] with what they are
    built from, after the package's sources as of Go 1.14. *)
Module url.

Record Userinfo := {
  username : string;
  password : string;
  passwordSet : bool;
}.

Record URL := {
  Scheme : string;
  Opaque : string;
  User : option Userinfo;
  Host : string;
  Path : string;
  RawPath : string;
  ForceQuery : bool;
  RawQuery : string;
  Fragment : string;
}.

(** [new(URL)]. *)
Definition zero : URL :=
  {| Scheme := ""; Opaque := ""; User := None; Host := ""; Path := "";
     RawPath := ""; ForceQuery := false; RawQuery := ""; Fragment := "" |}.

Definition IsAbs (u : URL) : bool := negb (String.eqb (Scheme u) "").

Inductive encoding :=
| encodePath
| encodePathSegment
| encodeHost
| encodeZone
| encodeUserPassword
| encodeQueryComponent
| encodeFragment.

Definition is_alpha (c : ascii) : bool :=
  let n := N_of_ascii c in
  utf8.in_range 97 122 n || utf8.in_range 65 90 n.

Definition is_digit (c : ascii) : bool := utf8.in_range 48 57 (N_of_ascii c).

(** Whether the byte [c] is one of the bytes of [set]. *)
Fixpoint one_of (c : ascii) (set : string) : bool :=
  match set with
  | EmptyString => false
  | String a set' => Ascii.eqb c a || one_of c set'
  end.

(** The bytes a host may hold unescaped besides letters and digits; the last
    is the double quote. *)
Definition host_bytes : string := "!$&'()*+,;=:[]<>" +:+ String json.dquote "".

Definition shouldEscape (c : ascii) (mode : encoding) : bool :=
  if is_alpha c || is_digit c then false
  else if match mode with encodeHost | encodeZone => one_of c host_bytes | _ => false end
  then false
  else if one_of c "-_.~" then false
  else if one_of c "$&+,/:;=?@" then
    match mode with
    | encodePath => Ascii.eqb c "?"
    | encodePathSegment => one_of c "/;,?"
    | encodeUserPassword => one_of c "@/?:"
    | encodeQueryComponent => true
    | encodeFragment => false
    | encodeHost | encodeZone => true
    end
  else if match mode with encodeFragment => one_of c "!()*" | _ => false end
  then false
  else true.

Definition unhex (c : ascii) : option N := json.hex_digit c.

Definition hexbyte (hi lo : N) : ascii := ascii_of_N (16 * hi + lo).

Definition percent25 : string := "%25".

(** [unescape]: percent-escapes decoded; an error on a malformed escape, on
    an escape a host may not hold, and on a byte a host may not hold. *)
Fixpoint unescape (s : string) (mode : encoding) : string + goerror :=
  match s with
  | EmptyString => inl EmptyString
  | String c rest =>
      if Ascii.eqb c "%" then
        match rest with
        | String a (String b rest') =>
            match unhex a, unhex b with
            | Some hi, Some lo =>
                let esc := String c (String a (String b EmptyString)) in
                let v := hexbyte hi lo in
                if match mode with
                   | encodeHost =>
                       (hi <? 8)%N && negb (String.eqb esc percent25)
                   | encodeZone =>
                       negb (String.eqb esc percent25)
                       && negb (Ascii.eqb v " ")
                       && shouldEscape v encodeHost
                   | _ => false
                   end
                then inr (url_EscapeError esc)
                else
                  match unescape rest' mode with
                  | inl r => inl (String v r)
                  | inr e => inr e
                  end
            | _, _ =>
                inr (url_EscapeError (String c (String a (String b EmptyString))))
            end
        | _ => inr (url_EscapeError s)
        end
      else if match mode with
              | encodeHost | encodeZone =>
                  (N_of_ascii c <? 128)%N && shouldEscape c encodeHost
              | _ => false
              end
      then inr (url_InvalidHostError (String c EmptyString))
      else
        let c' :=
          match mode with
          | encodeQueryComponent => if Ascii.eqb c "+" then " "%char else c
          | _ => c
          end in
        match unescape rest mode with
        | inl r => inl (String c' r)
        | inr e => inr e
        end
  end.

Definition upperhex (n : N) : ascii :=
  if (n <? 10)%N then ascii_of_N (48 + n) else ascii_of_N (55 + n).

(** [escape]: the bytes [shouldEscape] names written as percent-escapes (a
    space as a plus sign in a query component). *)
Fixpoint escape (s : string) (mode : encoding) : string :=
  match s with
  | EmptyString => EmptyString
  | String c rest =>
      if shouldEscape c mode then
        match mode with
        | encodeQueryComponent =>
            if Ascii.eqb c " " then String "+" (escape rest mode)
            else
              let n := N_of_ascii c in
              String "%" (String (upperhex (N.shiftr n 4))
                (String (upperhex (N.land n 15)) (escape rest mode)))
        | _ =>
            let n := N_of_ascii c in
            String "%" (String (upperhex (N.shiftr n 4))
              (String (upperhex (N.land n 15)) (escape rest mode)))
        end
      else String c (escape rest mode)
  end.

Definition QueryEscape (s : string) : string := escape s encodeQueryComponent.

(** [stringContainsCTLByte]. *)
Fixpoint stringContainsCTLByte (s : string) : bool :=
  match s with
  | EmptyString => false
  | String c rest =>
      let n := N_of_ascii c in
      (n <? 32)%N || (n =? 127)%N || stringContainsCTLByte rest
  end.

(** [getscheme]: the scheme and what follows its colon, or no scheme and the
    whole text. *)
Fixpoint getscheme_from (first : bool) (seen : string) (s whole : string)
  : (string * string) + goerror :=
  match s with
  | EmptyString => inl ("", whole)
  | String c rest =>
      if is_alpha c then getscheme_from false (String c seen) rest whole
      else if is_digit c || one_of c "+-." then
        if first then inl ("", whole)
        else getscheme_from false (String c seen) rest whole
      else if Ascii.eqb c ":" then
        if first then inr (errors_New "missing protocol scheme")
        else inl (String.rev seen, rest)
      else inl ("", whole)
  end.

Definition getscheme (rawurl : string) : (string * string) + goerror :=
  getscheme_from true "" rawurl rawurl.

(** [validOptionalPort]: empty, or a colon and digits. *)
Fixpoint all_digits (s : string) : bool :=
  match s with
  | EmptyString => true
  | String c rest => is_digit c && all_digits rest
  end.

Definition validOptionalPort (port : string) : bool :=
  match port with
  | EmptyString => true
  | String c rest => Ascii.eqb c ":" && all_digits rest
  end.

Fixpoint validUserinfo (s : string) : bool :=
  match s with
  | EmptyString => true
  | String c rest =>
      (is_alpha c || is_digit c || one_of c "-._:~!$&'()*+,;=%@")
      && validUserinfo rest
  end.

Definition parseHost (host : string) : string + goerror :=
  let plain := unescape host encodeHost in
  if strings.HasPrefix host "[" then
    match strings.CutLast host "]" with
    | None => inr (errors_New "missing ']' in host")
    | Some (inside, colonPort) =>
        if negb (validOptionalPort colonPort) then inr (url_InvalidPort colonPort)
        else
          match strings.Cut inside percent25 with
          | Some (before, zone) =>
              let* host1 := unescape before encodeHost in
              let* host2 := unescape (percent25 +:+ zone) encodeZone in
              let* host3 := unescape ("]" +:+ colonPort) encodeHost in
              inl (host1 +:+ host2 +:+ host3)
          | None => plain
          end
    end
  else
    match strings.CutLast host ":" with
    | Some (_, port) =>
        if negb (validOptionalPort (":" +:+ port))
        then inr (url_InvalidPort (":" +:+ port))
        else plain
    | None => plain
    end.

Definition parseAuthority (authority : string)
  : (option Userinfo * string) + goerror :=
  match strings.CutLast authority "@" with
  | None =>
      let* host := parseHost authority in
      inl (None, host)
  | Some (userinfo, hostpart) =>
      let* host := parseHost hostpart in
      if negb (validUserinfo userinfo)
      then inr (errors_New "net/url: invalid userinfo")
      else
        match strings.Cut userinfo ":" with
        | None =>
            let* name := unescape userinfo encodeUserPassword in
            inl (Some {| username := name; password := ""; passwordSet := false |},
                 host)
        | Some (name, pass) =>
            let* name' := unescape name encodeUserPassword in
            let* pass' := unescape pass encodeUserPassword in
            inl (Some {| username := name'; password := pass'; passwordSet := true |},
                 host)
        end
  end.

(** [URL.setPath]. *)
Definition setPath (u : URL) (p : string) : URL + goerror :=
  let* path := unescape p encodePath in
  let raw := if String.eqb p (escape path encodePath) then "" else p in
  inl {| Scheme := Scheme u; Opaque := Opaque u; User := User u; Host := Host u;
         Path := path; RawPath := raw; ForceQuery := ForceQuery u;
         RawQuery := RawQuery u; Fragment := Fragment u |}.

(** [parse(rawurl, false)]: a URL without its fragment. *)
Definition parse (rawurl : string) : URL + goerror :=
  if stringContainsCTLByte rawurl
  then inr (errors_New "net/url: invalid control character in URL")
  else if String.eqb rawurl "*"
  then inl {| Scheme := ""; Opaque := ""; User := None; Host := ""; Path := "*";
              RawPath := ""; ForceQuery := false; RawQuery := ""; Fragment := "" |}
  else
    let* (scheme, rest) := getscheme rawurl in
    let scheme := strings.ToLower scheme in
    let '(rest, force, query) :=
      if strings.HasSuffix rest "?" && Nat.eqb (strings.CountByte rest "?") 1
      then (String.substring 0 (String.length rest - 1) rest, true, "")
      else
        match strings.Cut rest "?" with
        | Some (before, after) => (before, false, after)
        | None => (rest, false, "")
        end in
    let u0 := {| Scheme := scheme; Opaque := ""; User := None; Host := "";
                 Path := ""; RawPath := ""; ForceQuery := force;
                 RawQuery := query; Fragment := "" |} in
    if negb (strings.HasPrefix rest "/") && negb (String.eqb scheme "")
    then inl {| Scheme := scheme; Opaque := rest; User := None; Host := "";
                Path := ""; RawPath := ""; ForceQuery := force;
                RawQuery := query; Fragment := "" |}
    else if negb (strings.HasPrefix rest "/")
            && match strings.Cut rest ":", strings.Cut rest "/" with
               | Some (c, _), Some (s, _) => Nat.ltb (String.length c) (String.length s)
               | Some _, None => true
               | None, _ => false
               end
    then inr (errors_New "first path segment in URL cannot contain colon")
    else if strings.HasPrefix rest "//" then
      (* scheme <> "" || !strings.HasPrefix(rest, "///") *)
      if negb (String.eqb scheme "") || negb (strings.HasPrefix rest "///") then
        let after := String.substring 2 (String.length rest - 2) rest in
        let '(authority, rest') :=
          match strings.Cut after "/" with
          | Some (a, r) => (a, "/" +:+ r)
          | None => (after, "")
          end in
        let* (user, host) := parseAuthority authority in
        setPath {| Scheme := scheme; Opaque := ""; User := user; Host := host;
                   Path := ""; RawPath := ""; ForceQuery := force;
                   RawQuery := query; Fragment := "" |} rest'
      else setPath u0 rest
    else setPath u0 rest.

(** [url.Parse]: the fragment is cut off first, parsed last. *)
Definition Parse (rawurl : string) : URL + goerror :=
  let '(u, frag) :=
    match strings.Cut rawurl "#" with
    | Some (before, after) => (before, after)
    | None => (rawurl, "")
    end in
  match parse u with
  | inr err => inr (url_Error "parse" u err)
  | inl url_ =>
      if String.eqb frag "" then inl url_
      else
        match unescape frag encodeFragment with
        | inr err => inr (url_Error "parse" rawurl err)
        | inl f =>
            inl {| Scheme := Scheme url_; Opaque := Opaque url_; User := User url_;
                   Host := Host url_; Path := Path url_; RawPath := RawPath url_;
                   ForceQuery := ForceQuery url_; RawQuery := RawQuery url_;
                   Fragment := f |}
        end
  end.

(** [validEncodedPath]. *)
Fixpoint validEncodedPath (s : string) : bool :=
  match s with
  | EmptyString => true
  | String c rest =>
      (one_of c "!$&'()*+,;=:@[]%" || negb (shouldEscape c encodePath))
      && validEncodedPath rest
  end.

(** [URL.EscapedPath]. *)
Definition EscapedPath (u : URL) : string :=
  if negb (String.eqb (RawPath u) "") && validEncodedPath (RawPath u)
     && match unescape (RawPath u) encodePath with
        | inl p => String.eqb p (Path u)
        | inr _ => false
        end
  then RawPath u
  else if String.eqb (Path u) "*" then "*"
  else escape (Path u) encodePath.

(** [Userinfo.String]. *)
Definition Userinfo_String (ui : Userinfo) : string :=
  escape (username ui) encodeUserPassword
  +:+ (if passwordSet ui then ":" +:+ escape (password ui) encodeUserPassword
       else "").

(** What [URL.String] writes before the query: scheme, then the opaque part
    or authority and path. *)
Definition String_head (u : URL) : string :=
  let scheme := if String.eqb (Scheme u) "" then "" else Scheme u +:+ ":" in
  if negb (String.eqb (Opaque u) "") then scheme +:+ Opaque u
  else
    let authority :=
      if negb (String.eqb (Scheme u) "") || negb (String.eqb (Host u) "")
         || bool_decide (User u <> None)
      then
        (if negb (String.eqb (Host u) "") || negb (String.eqb (Path u) "")
            || bool_decide (User u <> None)
         then "//" else "")
        +:+ match User u with
            | Some ui => Userinfo_String ui +:+ "@"
            | None => ""
            end
        +:+ (if String.eqb (Host u) "" then "" else escape (Host u) encodeHost)
      else "" in
    let path := EscapedPath u in
    let slash :=
      if negb (String.eqb path "") && negb (strings.HasPrefix path "/")
         && negb (String.eqb (Host u) "")
      then "/" else "" in
    let buf := scheme +:+ authority +:+ slash in
    let dot :=
      if String.eqb buf ""
         && match strings.Cut path ":" with
            | Some (before, _) => negb (strings.Contains before "/")
            | None => false
            end
      then "./" else "" in
    buf +:+ dot +:+ path.

(** What it writes from the query on. *)
Definition String_query (u : URL) : string :=
  if ForceQuery u || negb (String.eqb (RawQuery u) "")
  then "?" +:+ RawQuery u else "".

Definition String_fragment (u : URL) : string :=
  if String.eqb (Fragment u) "" then ""
  else "#" +:+ escape (Fragment u) encodeFragment.

(** [URL.String]. *)
Definition String_ (u : URL) : string :=
  String_head u +:+ String_query u +:+ String_fragment u.

(** [u.RawQuery = q]. *)
Definition set_RawQuery (q : string) (u : URL) : URL :=
  {| Scheme := Scheme u; Opaque := Opaque u; User := User u; Host := Host u;
     Path := Path u; RawPath := RawPath u; ForceQuery := ForceQuery u;
     RawQuery := q; Fragment := Fragment u |}.

(** [resolvePath]: the reference path against the base path, dot segments
    removed. *)
Definition resolve_step (dst : list string) (elem : string) : list string :=
  if String.eqb elem "." then dst
  else if String.eqb elem ".." then removelast dst
  else dst ++ [elem].

Definition resolvePath (base ref : string) : string :=
  let full :=
    if String.eqb ref "" then base
    else if strings.HasPrefix ref "/" then ref
    else
      match strings.CutLast base "/" with
      | Some (dir, _) => dir +:+ "/" +:+ ref
      | None => ref
      end in
  if String.eqb full "" then ""
  else
    let src := strings.SplitByte full "/" in
    let dst := foldl resolve_step [] src in
    let dst :=
      match last src with
      | Some elem =>
          if String.eqb elem "." || String.eqb elem ".." then dst ++ [""] else dst
      | None => dst
      end in
    "/" +:+ strings.TrimPrefix (strings.Join dst "/") "/".

(** [url.setPath(p)] with its error dropped, as [ResolveReference] calls it. *)
Definition setPath_ (u : URL) (p : string) : URL :=
  match setPath u p with
  | inl u' => u'
  | inr _ => u
  end.

(** [URL.ResolveReference]. *)
Definition ResolveReference (u ref : URL) : URL :=
  let scheme := if String.eqb (Scheme ref) "" then Scheme u else Scheme ref in
  if negb (String.eqb (Scheme ref) "") || negb (String.eqb (Host ref) "")
     || bool_decide (User ref <> None)
  then
    setPath_ {| Scheme := scheme; Opaque := Opaque ref; User := User ref;
                Host := Host ref; Path := Path ref; RawPath := RawPath ref;
                ForceQuery := ForceQuery ref; RawQuery := RawQuery ref;
                Fragment := Fragment ref |}
             (resolvePath (EscapedPath ref) "")
  else if negb (String.eqb (Opaque ref) "")
  then {| Scheme := scheme; Opaque := Opaque ref; User := None; Host := "";
          Path := ""; RawPath := RawPath ref; ForceQuery := ForceQuery ref;
          RawQuery := RawQuery ref; Fragment := Fragment ref |}
  else
    let inherit := String.eqb (Path ref) "" && String.eqb (RawQuery ref) "" in
    setPath_ {| Scheme := scheme; Opaque := Opaque ref; User := User u;
                Host := Host u; Path := Path ref; RawPath := RawPath ref;
                ForceQuery := ForceQuery ref;
                RawQuery := if inherit then RawQuery u else RawQuery ref;
                Fragment :=
                  if inherit && String.eqb (Fragment ref) ""
                  then Fragment u else Fragment ref |}
             (resolvePath (EscapedPath u) (EscapedPath ref)).

(** [base.Parse(ref)]: the reference parsed and resolved against the base. *)
Definition URL_Parse (base : URL) (ref : string) : URL + goerror :=
  let* refurl := Parse ref in
  inl (ResolveReference base refurl).

End url.

(** ** Query values: [url.Values] *)

Module Values.

(** [url.Values] is [map[string][]string]. *)
Abbreviation t := (gmap string (list string)).

Definition empty : t := ∅.

(** [v.Add(key, value)]: appended to what the key holds. *)
Definition Add (key value : string) (v : t) : t :=
  <[key := default [] (v !! key) ++ [value]]> v.

(** [v.Set(key, value)]: the key holds exactly this value. *)
Definition Set_ (key value : string) (v : t) : t :=
  <[key := [value]]> v.

Definition key_le (p q : string * list string) : Prop := String.le p.1 q.1.

#[global] Instance key_le_dec : RelDecision key_le.
Proof. intros p q. unfold key_le. apply _. Defined.

(** The pairs [key=value] of one key, both escaped. *)
Definition pairs (kv : string * list string) : list string :=
  map (fun x => url.QueryEscape kv.1 +:+ "=" +:+ url.QueryEscape x) kv.2.

(** The parameters of the encoding: the pairs of every key, keys in
    sorted order. *)
Definition params (v : t) : list string :=
  flat_map pairs (merge_sort key_le (map_to_list v)).

(** [v.Encode()]: the parameters joined by [&]. *)
Definition Encode (v : t) : string := strings.Join (params v) "&".

End Values.

(* ===================================================================== *)
(** * Package [time] *)
(* ===================================================================== *)

Module time.

(** An instant, as seconds and nanoseconds since January 1 of year 1,
    00:00:00 UTC (what the zero [time.Time] denotes), with the offset east
    of UTC, in seconds, of the instant's location. *)
Record Time := {
  sec : Z;
  nsec : Z;
  offset : Z;
}.

Definition IsZero (t : Time) : bool := (sec t =? 0) && (nsec t =? 0).

Definition digits (n : Z) : string :=
  DecimalString.NilZero.string_of_uint (N.to_uint (Z.to_N n)).

Fixpoint zeros (n : nat) : string :=
  match n with
  | O => ""
  | S n' => String "0" (zeros n')
  end.

(** [appendInt]: the decimal of [x], zero-padded to [width] digits, after a
    minus sign when [x] is negative. *)
Definition appendInt (x : Z) (width : nat) : string :=
  let d := digits (Z.abs x) in
  (if x <? 0 then "-" else "")
  +:+ zeros (width - String.length d) +:+ d.

(** Year, month and day of the day [days] days after January 1 of year 1
    (proleptic Gregorian calendar). *)
Definition civil (days : Z) : Z * Z * Z :=
  let z := days + 306 in
  let era := z / 146097 in
  let doe := z - era * 146097 in
  let yoe := (doe - doe / 1460 + doe / 36524 - doe / 146096) / 365 in
  let doy := doe - (365 * yoe + yoe / 4 - yoe / 100) in
  let mp := (5 * doy + 2) / 153 in
  let d := doy - (153 * mp + 2) / 5 + 1 in
  let m := if mp <? 10 then mp + 3 else mp - 9 in
  let y := yoe + era * 400 + (if m <=? 2 then 1 else 0) in
  (y, m, d).

(** [t.Format(time.RFC3339)], the layout [2006-01-02T15:04:05Z07:00]; the
    zone is the offset in whole minutes, rounded towards zero. *)
Definition Format_RFC3339 (t : Time) : string :=
  let abs := sec t + offset t in
  let '(y, m, d) := civil (abs / 86400) in
  let s := abs mod 86400 in
  let zone := Z.quot (offset t) 60 in
  appendInt y 4 +:+ "-" +:+ appendInt m 2 +:+ "-" +:+ appendInt d 2
  +:+ "T" +:+ appendInt (s / 3600) 2 +:+ ":" +:+ appendInt (s mod 3600 / 60) 2
  +:+ ":" +:+ appendInt (s mod 60) 2
  +:+ (if offset t =? 0 then "Z"
       else (if zone <? 0 then "-" else "+")
            +:+ appendInt (Z.abs zone / 60) 2 +:+ ":"
            +:+ appendInt (Z.abs zone mod 60) 2).

End time.

(* ===================================================================== *)
(** * Package [reflect] *)
(* ===================================================================== *)

Module reflect.

(** The kinds of the values that are neither structs nor pointers (nor the
    untyped nil, whose kind is [Invalid]). *)
Inductive Kind :=
| Bool | Int | Int8 | Int16 | Int32 | Int64
| Uint | Uint8 | Uint16 | Uint32 | Uint64 | Uintptr
| Float32 | Float64 | Complex64 | Complex128
| Array | Chan | Func | Interface | Map | Slice | String | UnsafePointer.

(** [Kind.String]. *)
Definition Kind_String (k : Kind) : string :=
  match k with
  | Bool => "bool" | Int => "int" | Int8 => "int8" | Int16 => "int16"
  | Int32 => "int32" | Int64 => "int64"
  | Uint => "uint" | Uint8 => "uint8" | Uint16 => "uint16"
  | Uint32 => "uint32" | Uint64 => "uint64" | Uintptr => "uintptr"
  | Float32 => "float32" | Float64 => "float64"
  | Complex64 => "complex64" | Complex128 => "complex128"
  | Array => "array" | Chan => "chan" | Func => "func"
  | Interface => "interface" | Map => "map" | Slice => "slice"
  | String => "string" | UnsafePointer => "unsafe.Pointer"
  end.

End reflect.

(* ===================================================================== *)
(** * Package [github.com/google/go-querystring/query] *)
(* ===================================================================== *)

Module query.

(** The value of a struct field, by the kinds the package's option structs
    use.  [VEncoder] is a field whose type has an [EncodeValues] method:
    [empty] is what [isEmptyValue] says of the field, [enc] what the method
    does to the values. *)
Inductive fvalue :=
| VString (s : string)
| VBool (b : bool)
| VInt (n : Z)
| VStrings (l : list string)
| VEncoder (empty : bool) (enc : Values.t -> Values.t + goerror).

(** A field with its [url] tag: the name and whether [omitempty] is set. *)
Record field := {
  name : string;
  omitempty : bool;
  value : fvalue;
}.

(** A struct, field by field in declaration order: a named field, or an
    anonymous struct field whose tag names nothing (an embedded struct). *)
Inductive sfield :=
| Named (f : field)
| Anonymous (fs : list field).

Definition isEmptyValue (v : fvalue) : bool :=
  match v with
  | VString s => String.eqb s ""
  | VBool b => negb b
  | VInt n => n =? 0
  | VStrings l => Nat.eqb (length l) 0
  | VEncoder empty _ => empty
  end.

Definition itoa (n : Z) : string :=
  DecimalString.NilZero.string_of_int (Z.to_int n).

(** The values one named field adds. *)
Definition reflectField (f : field) (values : Values.t) : Values.t + goerror :=
  if omitempty f && isEmptyValue (value f) then inl values
  else
    match value f with
    | VEncoder _ enc => enc values
    | VStrings l => inl (foldl (fun vs x => Values.Add (name f) x vs) values l)
    | VString s => inl (Values.Add (name f) s values)
    | VBool b => inl (Values.Add (name f) (if b then "true" else "false") values)
    | VInt n => inl (Values.Add (name f) (itoa n) values)
    end.

Fixpoint reflectFields (fs : list field) (values : Values.t)
  : Values.t + goerror :=
  match fs with
  | [] => inl values
  | f :: fs' =>
      match reflectField f values with
      | inl values' => reflectFields fs' values'
      | inr e => inr e
      end
  end.

Definition named (fs : list sfield) : list field :=
  flat_map (fun f => match f with Named f => [f] | Anonymous _ => [] end) fs.

Definition embedded (fs : list sfield) : list (list field) :=
  flat_map (fun f => match f with Named _ => [] | Anonymous e => [e] end) fs.

Fixpoint reflectEmbedded (es : list (list field)) (values : Values.t)
  : Values.t + goerror :=
  match es with
  | [] => inl values
  | e :: es' =>
      match reflectFields e values with
      | inl values' => reflectEmbedded es' values'
      | inr err => inr err
      end
  end.

(** [reflectValue]: the struct's own fields first, in order; the embedded
    structs, set aside on the way, after them. *)
Definition reflectValue (fs : list sfield) (values : Values.t)
  : Values.t + goerror :=
  match reflectFields (named fs) values with
  | inl values' => reflectEmbedded (embedded fs) values'
  | inr e => inr e
  end.

(** What can be passed as [interface{}] options; [NotAStruct k] is a value
    of the kind [k], or what pointers that are not nil lead to. *)
Inductive options :=
| NilInterface                        (* nil *)
| Pointer (p : option (list sfield))  (* a pointer to a struct, or a nil pointer *)
| Struct (s : list sfield)            (* a struct *)
| NotAStruct (k : reflect.Kind).      (* a value of any other kind *)

(** [query.Values]; the error is that of [fmt.Errorf] with the kind under
    the verb [%v]. *)
Definition Values (v : options) : Values.t + goerror :=
  match v with
  | NilInterface => inl Values.empty
  | Pointer None => inl Values.empty
  | Pointer (Some s) => reflectValue s Values.empty
  | Struct s => reflectValue s Values.empty
  | NotAStruct k =>
      inr (errors_New ("query: Values() expects struct input. Got "
                       +:+ reflect.Kind_String k))
  end.

End query.

(* ===================================================================== *)
(** * Packages [context], [io] and [net/http] *)
(* ===================================================================== *)

(** A value behind [interface{}]: nothing, or a value of some type. *)
Inductive any : Type :=
| nil_any
| some_any {T : Type} (v : T).

Module context.

(** A [context.Context] as the package observes it: whether its [Done]
    channel is closed, and what [Err] returns. *)
Record Context := {
  Done : bool;
  Err : option goerror;
}.

End context.

Module io.

(** An [io.ReadCloser] as a stream to be read once: the bytes it delivers,
    and the error that ends it ([None] for [io.EOF]). *)
Record ReadCloser := {
  content : string;
  readErr : option goerror;
}.

(** [ioutil.ReadAll]: the bytes read, and the error unless it is [io.EOF]. *)
Definition ReadAll (r : ReadCloser) : string * option goerror :=
  (content r, readErr r).

End io.

Module http.

Abbreviation Header := (gmap string (list string)).

Record Request := {
  Method : string;
  URL : url.URL;
  Header_ : Header;
  Body_ : option string;
  Host : string;
  ctx : option context.Context;
}.

Record Response := {
  StatusCode : Z;
  Body : io.ReadCloser;
  Request_ : Request;
}.

(** What [http.Client.Do] makes of a request: a response, or the
    transport's error. *)
Definition Client := Request -> Response + goerror.

(** Bytes a token (a method, a header field name) may hold besides letters
    and digits. *)
Definition token_marks : string := "!#$%&'*+-.^_`|~".

Fixpoint all_token (s : string) : bool :=
  match s with
  | EmptyString => true
  | String c rest =>
      (url.is_alpha c || url.is_digit c || url.one_of c token_marks)
      && all_token rest
  end.

Definition upper (a : ascii) : ascii :=
  let n := N_of_ascii a in
  if utf8.in_range 97 122 n then ascii_of_N (n - 32) else a.

Fixpoint canonical (up : bool) (s : string) : string :=
  match s with
  | EmptyString => EmptyString
  | String c rest =>
      String (if up then upper c else strings.lower c)
             (canonical (Ascii.eqb c "-") rest)
  end.

(** [textproto.CanonicalMIMEHeaderKey]. *)
Definition CanonicalHeaderKey (s : string) : string :=
  if all_token s then canonical true s else s.

(** [req.Header.Set(key, value)]. *)
Definition Header_Set (key value : string) (req : Request) : Request :=
  {| Method := Method req; URL := URL req;
     Header_ := <[CanonicalHeaderKey key := [value]]> (Header_ req);
     Body_ := Body_ req; Host := Host req; ctx := ctx req |}.

(** [req.WithContext(ctx)]. *)
Definition WithContext (c : context.Context) (req : Request) : Request :=
  {| Method := Method req; URL := URL req; Header_ := Header_ req;
     Body_ := Body_ req; Host := Host req; ctx := Some c |}.

(** [context.Background()]. *)
Definition Background : context.Context :=
  {| context.Done := false; context.Err := None |}.

Definition validMethod (method : string) : bool :=
  negb (String.eqb method "") && all_token method.

(** [http.NewRequest(method, url, body)]. *)
Definition NewRequest (method url_ : string) (body : option string)
  : Request + goerror :=
  let method := if String.eqb method "" then "GET" else method in
  if negb (validMethod method) then inr (http_invalid_method method)
  else
    let* u := url.Parse url_ in
    let host := strings.TrimSuffix (url.Host u) ":" in
    inl {| Method := method;
           URL := {| url.Scheme := url.Scheme u; url.Opaque := url.Opaque u;
                     url.User := url.User u; url.Host := host;
                     url.Path := url.Path u; url.RawPath := url.RawPath u;
                     url.ForceQuery := url.ForceQuery u;
                     url.RawQuery := url.RawQuery u;
                     url.Fragment := url.Fragment u |};
           Header_ := ∅; Body_ := body; Host := host;
           ctx := Some Background |}.

End http.

(* ===================================================================== *)
(** * Package [contentchef] *)
(* ===================================================================== *)

Module contentchef.

Definition libraryVersion : string := "0.1".
Definition userAgent : string := "contentchef-go/" +:+ libraryVersion.
Definition mediaType : string := "application/json".

(** ** Data *)

(** Modelled from the spec: the fourth field of [Client] and of
    [ClientOptions].  The declarations in client.go name it
    [TargetDateResolver], a function; the channel file reads
    [s.client.TargetDate] as a [time.Time], which is what the specification
    (an optional target date, a timestamp), the tests and the README have.
    [NewClient] copies the field from the options whatever its type. *)
Record Client := {
  httpClient : http.Client;
  BaseURL : url.URL;
  SpaceID : string;
  TargetDate : time.Time;
}.

Module ClientOptions.
Record t := {
  BaseURL : string;
  SpaceID : string;
  Client : option http.Client;
  TargetDate : time.Time;
}.
End ClientOptions.

(** What the field [Response *http.Response] of an [errorResponse] points
    to.  [checkResponse] sets it to its argument; the JSON decoder can set it
    to nil or to a response it allocates. *)
Inductive ResponseRef :=
| RefNil                          (* a nil pointer *)
| RefArg                          (* the response [checkResponse] was given *)
| RefNew (r : http.Response).     (* a response the JSON decoder allocated *)

(** [errorResponse].  Its first field is named [Response] in the source,
    the name of the result structure below; [X] is a map, nil throughout. *)
Record errorResponse := {
  Response_ : ResponseRef;
  Message : string;
  X : option (gmap string json.value);
}.

(** [error]: the libraries' error values and the package's
    [*errorResponse]. *)
Inductive error :=
| LibError (e : goerror)
| ResponseError (e : errorResponse).

(** What [do] decodes into, the [v interface{}] of [do] and [get]: nothing,
    an [io.Writer] (the bytes written to it so far), or any other value,
    with how [encoding/json] decodes a non-empty body into a value of its
    type. *)
Inductive Target (T : Type) :=
| NoTarget
| Writer (written : string)
| JSONTarget (decode : io.ReadCloser -> T -> T * option goerror) (v : T).

Arguments NoTarget {T}.
Arguments Writer {T} written.
Arguments JSONTarget {T} decode v.

Module ContentOptions.
Record t := {
  LegacyMetadata : bool;
  PublicID : string;
}.
End ContentOptions.

Record SortingField := {
  FieldName : string;
  Ascending : bool;
}.

Definition Sorting := list SortingField.

Record PropFilterItem := {
  Field : string;
  Operator : string;
  Value : any;
}.

Record PropFilters := {
  Condition : string;
  Items : list PropFilterItem;
}.

Module SearchOptions.
Record t := {
  Skip : Z;
  Take : Z;
  PublicID : list string;
  ContentDefinition : list string;
  Repositories : list string;
  LegacyMetadata : bool;
  Tags : list string;
  PropFilters : PropFilters;
  Sorting : Sorting;
}.
End SearchOptions.

Module RequestContext.
Record t := {
  PublishingChannel : string;
  CloudName : string;
  Timestamp : time.Time;
}.
End RequestContext.

Module Metadata.
Record t := {
  ID : Z;
  AuthoringContentID : Z;
  ContentVersion : Z;
  ContentLastModifiedDate : time.Time;
  Tags : list string;
  PublishedOn : time.Time;
}.
End Metadata.

Module Response.
Record t := {
  PublicID : string;
  Definition_ : string;
  Repository : string;
  Payload : any;
  OnlineDate : time.Time;
  OfflineDate : time.Time;
  Metadata : Metadata.t;
  RequestContext : RequestContext.t;
}.
End Response.

Module PaginatedResponse.
Record t := {
  Items : list Response.t;
  Total : Z;
  Skip : Z;
  Take : Z;
  RequestContext : RequestContext.t;
}.
End PaginatedResponse.

(** The zero values [&Response{}] and [&PaginatedResponse{}] point to. *)
Definition zero_Time : time.Time :=
  {| time.sec := 0; time.nsec := 0; time.offset := 0 |}.

Definition zero_RequestContext : RequestContext.t :=
  {| RequestContext.PublishingChannel := ""; RequestContext.CloudName := "";
     RequestContext.Timestamp := zero_Time |}.

Definition zero_Response : Response.t :=
  {| Response.PublicID := ""; Response.Definition_ := "";
     Response.Repository := ""; Response.Payload := nil_any;
     Response.OnlineDate := zero_Time; Response.OfflineDate := zero_Time;
     Response.Metadata :=
       {| Metadata.ID := 0; Metadata.AuthoringContentID := 0;
          Metadata.ContentVersion := 0;
          Metadata.ContentLastModifiedDate := zero_Time;
          Metadata.Tags := []; Metadata.PublishedOn := zero_Time |};
     Response.RequestContext := zero_RequestContext |}.

Definition zero_PaginatedResponse : PaginatedResponse.t :=
  {| PaginatedResponse.Items := []; PaginatedResponse.Total := 0;
     PaginatedResponse.Skip := 0; PaginatedResponse.Take := 0;
     PaginatedResponse.RequestContext := zero_RequestContext |}.

Record OnlineChannel := {
  oc_client : Client;
  oc_name : string;
  oc_apiKey : string;
}.

Record PreviewChannel := {
  pc_client : Client;
  pc_name : string;
  pc_apiKey : string;
  pc_state : string;
}.

(** ** The library functions left open

    What the package calls in the libraries and this development does not
    spell out: every property below holds whatever these do. *)
Class Library := {
  (** [json.Marshal] on a [PropFilters] value. *)
  json_Marshal_PropFilters : PropFilters -> string + goerror;
  (** The JSON decoder on an object met under the key of a [*http.Response]
      field: the members, the response the pointer refers to ([None] for a
      nil pointer: the decoder allocates one); the response after decoding
      and the first error. *)
  json_decode_Response :
    list (string * json.value) -> option http.Response ->
    http.Response * option goerror;
  (** [json.NewEncoder(buf).Encode(body)]: the bytes written. *)
  json_Encode : any -> string + goerror;
  (** [http.DefaultClient]. *)
  http_DefaultClient : http.Client;
  (** How [encoding/json] decodes a response body into the two result
      structures. *)
  json_decode_into_Response :
    io.ReadCloser -> Response.t -> Response.t * option goerror;
  json_decode_into_PaginatedResponse :
    io.ReadCloser -> PaginatedResponse.t -> PaginatedResponse.t * option goerror;
}.

(** ** [encoding/json] on the package's types *)

(** [json.NewDecoder(body).Decode(v)]: a stream that ends before any byte
    yields [io.EOF] (or the error that ended it) and leaves [v] alone; any
    other stream is decoded as the target's type says. *)
Definition Decoder_Decode {T} (decode : io.ReadCloser -> T -> T * option goerror)
    (body : io.ReadCloser) (v : T) : T * option goerror :=
  if String.eqb (io.content body) ""
  then (v, Some (default io_EOF (io.readErr body)))
  else decode body v.

(** The exported fields of [errorResponse] a key can match; [X] is tagged
    [json:"-"]. *)
Inductive efield :=
| FResponse
| FMessage.

Definition field_of_key (key : string) : option efield :=
  if json.equalFold "Response" key then Some FResponse
  else if json.equalFold "Message" key then Some FMessage
  else None.

(** The decoder's state on an [*errorResponse]: the response the argument
    of [checkResponse] points to, the error structure, the first error. *)
Record ustate := {
  cell : http.Response;
  into : errorResponse;
  saved : option goerror;
}.

Definition saveError (st : ustate) (e : option goerror) : ustate :=
  {| cell := cell st; into := into st;
     saved := match saved st with Some e0 => Some e0 | None => e end |}.

Definition typeError (v : json.value) (fieldname : string) : option goerror :=
  Some (json_UnmarshalTypeError (json.kind v) fieldname).

(** What a call does besides returning: the requests handed to the
    transport and the closing of the response body, in order. *)
Inductive Event :=
| RoundTrip (req : http.Request)
| BodyClose.

(** What [do] returns and leaves behind. *)
Record Outcome (T : Type) := {
  response : option http.Response;
  err : option error;
  target : Target T;
  events : list Event;
}.

Arguments response {T}.
Arguments err {T}.
Arguments target {T}.
Arguments events {T}.

Section Package.
Context `{Library}.

(** One member of the object: a string goes to [Message]; [null] leaves a
    string alone and sets a pointer to nil; an object is decoded into the
    response the pointer refers to; any other value is a type error, after
    which decoding goes on. *)
Definition decode_member (st : ustate) (kv : string * json.value) : ustate :=
  let e := into st in
  match field_of_key kv.1 with
  | None => st
  | Some FMessage =>
      match kv.2 with
      | json.Str s =>
          {| cell := cell st;
             into := {| Response_ := Response_ e; Message := s; X := X e |};
             saved := saved st |}
      | json.Null => st
      | v => saveError st (typeError v "Message")
      end
  | Some FResponse =>
      match kv.2 with
      | json.Null =>
          {| cell := cell st;
             into := {| Response_ := RefNil; Message := Message e; X := X e |};
             saved := saved st |}
      | json.Object members =>
          match Response_ e with
          | RefArg =>
              let '(r, err) := json_decode_Response members (Some (cell st)) in
              saveError {| cell := r; into := e; saved := saved st |} err
          | RefNew r0 =>
              let '(r, err) := json_decode_Response members (Some r0) in
              saveError
                {| cell := cell st;
                   into := {| Response_ := RefNew r; Message := Message e; X := X e |};
                   saved := saved st |} err
          | RefNil =>
              let '(r, err) := json_decode_Response members None in
              saveError
                {| cell := cell st;
                   into := {| Response_ := RefNew r; Message := Message e; X := X e |};
                   saved := saved st |} err
          end
      | v => saveError st (typeError v "Response")
      end
  end.

(** [json.Unmarshal(data, errorResponse)]: a text that is not valid JSON
    stores nothing; an object is decoded member by member; [null] stores
    nothing; any other value is a type error. *)
Definition Unmarshal (data : string) (r : http.Response) (e : errorResponse)
  : ustate :=
  let st := {| cell := r; into := e; saved := None |} in
  match json.Parse data with
  | None => saveError st (Some json_SyntaxError)
  | Some (json.Object members) => foldl decode_member st members
  | Some json.Null => st
  | Some v => saveError st (typeError v "errorResponse")
  end.

(** ** client.go *)

Definition NewClient (o : ClientOptions.t) : Client + goerror :=
  match url.Parse (ClientOptions.BaseURL o) with
  | inr err => inr err
  | inl BaseURL =>
      if String.eqb (ClientOptions.SpaceID o) ""
      then inr (errors_New "SpaceID must be setted")
      else
        let httpClient :=
          match ClientOptions.Client o with
          | Some c => c
          | None => http_DefaultClient
          end in
        inl {| httpClient := httpClient; BaseURL := BaseURL;
               SpaceID := ClientOptions.SpaceID o;
               TargetDate := ClientOptions.TargetDate o |}
  end.

Definition newRequest (c : Client) (method urlStr : string) (body : any)
  : http.Request + goerror :=
  let* u := url.URL_Parse (BaseURL c) urlStr in
  let* buf :=
    match body with
    | nil_any => inl None
    | _ => let* b := json_Encode body in inl (Some b)
    end in
  let* req := http.NewRequest method (url.String_ u) buf in
  let req :=
    match body with
    | nil_any => req
    | _ => http.Header_Set "Content-Type" mediaType req
    end in
  let req := http.Header_Set "Accept" mediaType req in
  let req := http.Header_Set "User-Agent" userAgent req in
  inl req.

(** [checkResponse]: the error, [None] for [nil], with the response as the
    decoder left it (the error structure points to it). *)
Definition checkResponse (r : http.Response)
  : http.Response * option errorResponse :=
  let c := http.StatusCode r in
  if (200 <=? c) && (c <=? 299) then (r, None)
  else
    let errorResponse := {| Response_ := RefArg; Message := ""; X := None |} in
    let '(data, err) := io.ReadAll (http.Body r) in
    match err with
    | None =>
        if Nat.ltb 0 (String.length data) then
          let st := Unmarshal data r errorResponse in
          match saved st with
          | Some _ =>
              (cell st,
               Some {| Response_ := Response_ (into st); Message := data;
                       X := X (into st) |})
          | None => (cell st, Some (into st))
          end
        else (r, Some errorResponse)
    | Some _ => (r, Some errorResponse)
    end.

Definition do {T} (c : Client) (ctx : option context.Context)
    (req : http.Request) (v : Target T) : Outcome T :=
  match ctx with
  | None =>
      {| response := None;
         err := Some (LibError (errors_New "context must be non-nil"));
         target := v; events := [] |}
  | Some ctx =>
      let req := http.WithContext ctx req in
      match httpClient c req with
      | inr err =>
          if context.Done ctx
          then {| response := None; err := LibError <$> context.Err ctx;
                  target := v; events := [RoundTrip req] |}
          else {| response := None; err := Some (LibError err);
                  target := v; events := [RoundTrip req] |}
      | inl res =>
          let '(res, cerr) := checkResponse res in
          match cerr with
          | Some e =>
              {| response := Some res; err := Some (ResponseError e);
                 target := v; events := [RoundTrip req; BodyClose] |}
          | None =>
              match v with
              | NoTarget =>
                  {| response := Some res; err := None; target := v;
                     events := [RoundTrip req; BodyClose] |}
              | Writer w =>
                  {| response := Some res; err := None;
                     target := Writer (w +:+ io.content (http.Body res));
                     events := [RoundTrip req; BodyClose] |}
              | JSONTarget decode x =>
                  let '(x', decErr) := Decoder_Decode decode (http.Body res) x in
                  let decErr :=
                    match decErr with
                    | Some io_EOF => None
                    | _ => decErr
                    end in
                  {| response := Some res; err := LibError <$> decErr;
                     target := JSONTarget decode x';
                     events := [RoundTrip req; BodyClose] |}
              end
          end
      end
  end.

Definition addOptions (path : string) (opts : query.options)
  : string * option goerror :=
  match opts with
  | query.Pointer None => (path, None)
  | _ =>
      match url.Parse path with
      | inr err => (path, Some err)
      | inl u =>
          match query.Values opts with
          | inr err => (path, Some err)
          | inl qs => (url.String_ (url.set_RawQuery (Values.Encode qs) u), None)
          end
      end
  end.

Definition get {T} (c : Client) (ctx : option context.Context)
    (path apiKey : string) (opts : query.options) (v : Target T)
  : option error * Target T * list Event :=
  match addOptions path opts with
  | (_, Some err) => (Some (LibError err), v, [])
  | (path, None) =>
      match newRequest c "GET" path nil_any with
      | inr err => (Some (LibError err), v, [])
      | inl req =>
          let req := http.Header_Set "X-SPACE-D-API-Key" apiKey req in
          let out := do c ctx req v in
          (err out, target out, events out)
      end
  end.

(** ** The channel file *)

Definition serializeSorting (s : Sorting) : string :=
  let values := replicate (length s) "" in
  let values :=
    foldl (fun (values : list string) '(i, field) =>
             if Nat.eqb (String.length (FieldName field)) 0 then values
             else
               let sorter := if Ascending field then "+" else "-" in
               <[i := sorter +:+ strings.TrimSpace (FieldName field)]> values)
          values (imap pair s) in
  strings.Join values ",".

(** [Sorting.EncodeValues]. *)
Definition Sorting_EncodeValues (s : Sorting) (key : string) (v : Values.t)
  : Values.t + goerror :=
  inl (Values.Set_ "sorting" (serializeSorting s) v).

(** [PropFilters.EncodeValues]. *)
Definition PropFilters_EncodeValues (p : PropFilters) (key : string)
    (v : Values.t) : Values.t + goerror :=
  if Nat.eqb (length (Items p)) 0 then inl v
  else
    match json_Marshal_PropFilters p with
    | inr err => inr err
    | inl j => inl (Values.Set_ "propFilters" j v)
    end.

(** The fields of [ContentOptions] with their [url] tags. *)
Definition ContentOptions_fields (o : ContentOptions.t) : list query.field :=
  [ {| query.name := "legacyMetadata"; query.omitempty := true;
       query.value := query.VBool (ContentOptions.LegacyMetadata o) |};
    {| query.name := "publicId"; query.omitempty := false;
       query.value := query.VString (ContentOptions.PublicID o) |} ].

(** The fields of [SearchOptions] with their [url] tags.  [PropFilters] is
    a struct, never empty for [omitempty]; [Sorting] is a slice, empty when
    it has no entry. *)
Definition SearchOptions_fields (o : SearchOptions.t) : list query.field :=
  [ {| query.name := "skip"; query.omitempty := false;
       query.value := query.VInt (SearchOptions.Skip o) |};
    {| query.name := "take"; query.omitempty := false;
       query.value := query.VInt (SearchOptions.Take o) |};
    {| query.name := "publicId"; query.omitempty := true;
       query.value := query.VStrings (SearchOptions.PublicID o) |};
    {| query.name := "contentDefinition"; query.omitempty := true;
       query.value := query.VStrings (SearchOptions.ContentDefinition o) |};
    {| query.name := "repositories"; query.omitempty := true;
       query.value := query.VStrings (SearchOptions.Repositories o) |};
    {| query.name := "legacyMetadata"; query.omitempty := true;
       query.value := query.VBool (SearchOptions.LegacyMetadata o) |};
    {| query.name := "tags"; query.omitempty := true;
       query.value := query.VStrings (SearchOptions.Tags o) |};
    {| query.name := "propFilters"; query.omitempty := true;
       query.value :=
         query.VEncoder false
           (PropFilters_EncodeValues (SearchOptions.PropFilters o) "propFilters") |};
    {| query.name := "sorting"; query.omitempty := true;
       query.value :=
         query.VEncoder (Nat.eqb (length (SearchOptions.Sorting o)) 0)
           (Sorting_EncodeValues (SearchOptions.Sorting o) "sorting") |} ].

(** A [*ContentOptions] and a [*SearchOptions] as options. *)
Definition ContentOptions_ptr (config : option ContentOptions.t) : query.options :=
  query.Pointer (map query.Named <$> (ContentOptions_fields <$> config)).

Definition SearchOptions_ptr (config : option SearchOptions.t) : query.options :=
  query.Pointer (map query.Named <$> (SearchOptions_fields <$> config)).

(** The anonymous structs of the preview channel: the caller's options
    embedded, and [TargetDate string] tagged [url:"targetDate,omitempty"]. *)
Definition urlParams (embedded : list query.field) (targetDate : string)
  : query.options :=
  query.Struct
    [ query.Anonymous embedded;
      query.Named {| query.name := "targetDate"; query.omitempty := true;
                     query.value := query.VString targetDate |} ].

Definition Client_OnlineChannel (c : Client) (name apiKey : string)
  : OnlineChannel + goerror :=
  if String.eqb name "" then inr (errors_New "name seems to be an empty string")
  else if String.eqb apiKey ""
  then inr (errors_New "apiKey seems to be an empty string")
  else inl {| oc_client := c; oc_name := name; oc_apiKey := apiKey |}.

Definition getOnlineEndpoint (spaceID method channel : string) : string :=
  "/space/" +:+ spaceID +:+ "/online/" +:+ method +:+ "/" +:+ channel.

(** The value a decoding target holds after the call. *)
Definition pointee {T} (zero : T) (v : Target T) : T :=
  match v with
  | JSONTarget _ x => x
  | _ => zero
  end.

(** [return r, err] after [get]: what [r] points to, the error, and what
    the call did. *)
Definition returned {T} (zero : T) (out : option error * Target T * list Event)
  : T * option error * list Event :=
  (pointee zero out.1.2, out.1.1, out.2).

Definition OnlineChannel_Content (s : OnlineChannel)
    (ctx : option context.Context) (config : option ContentOptions.t)
  : Response.t * option error * list Event :=
  let path := getOnlineEndpoint (SpaceID (oc_client s)) "content" (oc_name s) in
  let r := JSONTarget json_decode_into_Response zero_Response in
  returned zero_Response
    (get (oc_client s) ctx path (oc_apiKey s) (ContentOptions_ptr config) r).

Definition OnlineChannel_Search (s : OnlineChannel)
    (ctx : option context.Context) (config : option SearchOptions.t)
  : PaginatedResponse.t * option error * list Event :=
  let path := getOnlineEndpoint (SpaceID (oc_client s)) "search/v2" (oc_name s) in
  let r := JSONTarget json_decode_into_PaginatedResponse zero_PaginatedResponse in
  returned zero_PaginatedResponse
    (get (oc_client s) ctx path (oc_apiKey s) (SearchOptions_ptr config) r).

Definition Client_PreviewChannel (c : Client) (name apiKey state : string)
  : PreviewChannel + goerror :=
  if String.eqb name "" then inr (errors_New "name seems to be an empty string")
  else if String.eqb apiKey ""
  then inr (errors_New "apiKey seems to be an empty string")
  else if negb (String.eqb state "live") && negb (String.eqb state "staging")
  then inr (errors_New "`State must be either 'live' or 'staging")
  else inl {| pc_client := c; pc_name := name; pc_apiKey := apiKey;
              pc_state := state |}.

Definition getPreviewEndpoint (spaceID method channel state : string) : string :=
  "/space/" +:+ spaceID +:+ "/preview/" +:+ state +:+ "/" +:+ method
  +:+ "/" +:+ channel.

(** The [targetDate] the preview channel sends: empty for the zero date. *)
Definition targetDate_of (c : Client) : string :=
  if negb (time.IsZero (TargetDate c))
  then time.Format_RFC3339 (TargetDate c) else "".

(** [PreviewChannel.Content]; [None] is the panic of dereferencing a nil
    [config]. *)
Definition PreviewChannel_Content (s : PreviewChannel)
    (ctx : option context.Context) (config : option ContentOptions.t)
  : option (Response.t * option error * list Event) :=
  let path :=
    getPreviewEndpoint (SpaceID (pc_client s)) "content" (pc_name s) (pc_state s) in
  let targetDate := targetDate_of (pc_client s) in
  match config with
  | None => None
  | Some config =>
      let params := urlParams (ContentOptions_fields config) targetDate in
      let r := JSONTarget json_decode_into_Response zero_Response in
      Some (returned zero_Response
              (get (pc_client s) ctx path (pc_apiKey s) params r))
  end.

(** [PreviewChannel.Search]; [None] as for [Content]. *)
Definition PreviewChannel_Search (s : PreviewChannel)
    (ctx : option context.Context) (config : option SearchOptions.t)
  : option (PaginatedResponse.t * option error * list Event) :=
  let path :=
    getPreviewEndpoint (SpaceID (pc_client s)) "search/v2" (pc_name s) (pc_state s) in
  let targetDate := targetDate_of (pc_client s) in
  match config with
  | None => None
  | Some config =>
      let params := urlParams (SearchOptions_fields config) targetDate in
      let r := JSONTarget json_decode_into_PaginatedResponse zero_PaginatedResponse in
      Some (returned zero_PaginatedResponse
              (get (pc_client s) ctx path (pc_apiKey s) params r))
  end.

(** [fmt.Sprintf] of an [int] under the verb [%d]. *)
Definition fmt_d (n : Z) : string :=
  DecimalString.NilZero.string_of_int (Z.to_int n).

(** [errorResponse.Error]; [cell] is the response the argument of
    [checkResponse] points to, as the decoder left it, for an error whose
    [Response] field still refers to it.  [None] is the panic of
    dereferencing a nil [Response].  A response has its request, and the
    request its URL, as every response the transport returns has. *)
Definition errorResponse_Error (cell : http.Response) (r : errorResponse)
  : option string :=
  let format (res : http.Response) :=
    http.Method (http.Request_ res) +:+ " "
    +:+ url.String_ (http.URL (http.Request_ res)) +:+ ": "
    +:+ fmt_d (http.StatusCode res) +:+ " " +:+ Message r in
  match Response_ r with
  | RefNil => None
  | RefArg => Some (format cell)
  | RefNew res => Some (format res)
  end.

End Package.

End contentchef.

Import contentchef.

(* ===================================================================== *)
(** * Definitions for the properties *)
(* ===================================================================== *)

(** ** The sort specification *)

(** What slot [i] of [values] holds after the loop of [serializeSorting]. *)
Definition slot (field : SortingField) : string :=
  if Nat.eqb (String.length (FieldName field)) 0 then ""
  else (if Ascending field then "+" else "-")
       +:+ strings.TrimSpace (FieldName field).

(** The body of the loop. *)
Definition fill_slot (values : list string) (p : nat * SortingField)
  : list string :=
  let '(i, field) := p in
  if Nat.eqb (String.length (FieldName field)) 0 then values
  else
    let sorter := if Ascending field then "+" else "-" in
    <[i := sorter +:+ strings.TrimSpace (FieldName field)]> values.

(** The specification's wording: entries whose trimmed name is empty are
    left out; the others give a sign and the trimmed name; the tokens are
    joined by commas. *)
Definition token (field : SortingField) : string :=
  (if Ascending field then "+" else "-") +:+ strings.TrimSpace (FieldName field).

Definition named_entry (field : SortingField) : bool :=
  negb (String.eqb (strings.TrimSpace (FieldName field)) "").

Definition serializeSorting_spec (s : Sorting) : string :=
  strings.Join (map token (List.filter named_entry s)) ",".

(** ** Error classification *)

(** The string the members of an object leave in [Message]: that of the
    last member whose key matches [Message] and whose value is a string;
    [init] when there is none. *)
Definition message_step (m : string) (kv : string * json.value) : string :=
  match field_of_key kv.1, kv.2 with
  | Some FMessage, json.Str s => s
  | _, _ => m
  end.

Definition last_message (members : list (string * json.value)) (init : string)
  : string :=
  foldl message_step init members.

(** A member the decoder stores, or passes over, without an error and
    without looking into an [http.Response]. *)
Definition plain_member (kv : string * json.value) : bool :=
  match field_of_key kv.1, kv.2 with
  | None, _ => true
  | Some FMessage, (json.Str _ | json.Null) => true
  | Some FResponse, json.Null => true
  | _, _ => false
  end.

(** The specification's reading of a JSON body with a message field. *)
Definition has_message_field (data : string) : bool :=
  match json.Parse data with
  | Some (json.Object members) =>
      existsb (fun kv : string * json.value => String.eqb kv.1 "message") members
  | _ => false
  end.

(** The error structure [checkResponse] starts from. *)
Definition fresh_errorResponse : errorResponse :=
  {| Response_ := RefArg; Message := ""; X := None |}.

(** ** The preview channel *)

(** A function applied to a result, an error passed on. *)
Definition on_ok {A B} (f : A -> B) (x : A + goerror) : B + goerror :=
  match x with
  | inl a => inl (f a)
  | inr e => inr e
  end.


(** A field leaves the key [k] alone: it writes the same with or without
    [k] in the values, and does not write [k]. *)
Definition leaves (k : string) (f : query.field) : Prop :=
  (forall (x : list string) (v : Values.t),
     query.reflectField f (<[k := x]> v)
     = on_ok (insert k x) (query.reflectField f v))
  /\ (forall v v' : Values.t,
        query.reflectField f v = inl v' -> v' !! k = v !! k).



(** ** Inputs of the tests and examples *)

(** A library to evaluate the package with: the open functions report that
    they are not modelled, and the default client fails every request.  No
    evaluation below reaches them, and every theorem is stated for an
    arbitrary library. *)
Definition not_modelled : goerror := other_error "not modelled".

Definition empty_request : http.Request :=
  {| http.Method := "GET"; http.URL := url.zero; http.Header_ := ∅;
     http.Body_ := None; http.Host := ""; http.ctx := None |}.

Definition empty_response : http.Response :=
  {| http.StatusCode := 0;
     http.Body := {| io.content := ""; io.readErr := None |};
     http.Request_ := empty_request |}.

Definition example_library : Library := {|
  json_Marshal_PropFilters := fun _ => inr not_modelled;
  json_decode_Response := fun _ r => (default empty_response r, Some not_modelled);
  json_Encode := fun _ => inr not_modelled;
  http_DefaultClient := fun _ => inr not_modelled;
  json_decode_into_Response := fun _ v => (v, Some not_modelled);
  json_decode_into_PaginatedResponse := fun _ v => (v, Some not_modelled);
|}.

(** A string between double quotes, for writing JSON texts. *)
Definition quoted (s : string) : string :=
  String json.dquote (s +:+ String json.dquote "").

(** The responses of the tests of [checkResponse]. *)
Definition test_response (status : Z) (body : string) : http.Response :=
  {| http.StatusCode := status;
     http.Body := {| io.content := body; io.readErr := None |};
     http.Request_ := empty_request |}.

Definition body_with_message : string :=
  "{" +:+ quoted "message" +:+ ":" +:+ quoted "m" +:+ ","
  +:+ quoted "errors" +:+ ": [{" +:+ quoted "resource" +:+ ": " +:+ quoted "r"
  +:+ ", " +:+ quoted "field" +:+ ": " +:+ quoted "f" +:+ ", "
  +:+ quoted "code" +:+ ": " +:+ quoted "c" +:+ "}]}".

Definition body_without_message : string :=
  "{" +:+ quoted "error" +:+ ":" +:+ quoted "x" +:+ "}".

(** The options of the README, with the given base URL. *)
Definition readme_options (base : string) : ClientOptions.t :=
  {| ClientOptions.BaseURL := base;
     ClientOptions.SpaceID := "yourContentChefSpaceID";
     ClientOptions.Client := None;
     ClientOptions.TargetDate := zero_Time |}.

(** The clients of the tests of [do]: a server that answers every request
    with the given response, and a transport that fails. *)
Definition server_client (res : http.Response) : Client :=
  {| httpClient := fun _ => inl res; BaseURL := url.zero;
     SpaceID := "my_space"; TargetDate := zero_Time |}.

Definition failing_client (terr : goerror) : Client :=
  {| httpClient := fun _ => inr terr; BaseURL := url.zero;
     SpaceID := "my_space"; TargetDate := zero_Time |}.

Definition canceled : context.Context :=
  {| context.Done := true; context.Err := Some context_Canceled |}.

Definition redirect_loop : goerror :=
  url_Error "Get" "/" (errors_New "stopped after 10 redirects").

(** A decoding target that counts the bodies decoded into it. *)
Definition counting (body : io.ReadCloser) (n : nat) : nat * option goerror :=
  (S n, None).

(** The options of [Test_addOptions]: a struct with [Foo string] tagged
    [url:"foo"]. *)
Definition myOpts (foo : string) : query.options :=
  query.Struct
    [ query.Named {| query.name := "foo"; query.omitempty := false;
                     query.value := query.VString foo |} ].

(** A preview channel on staging content, of a client with the given
    target date whose server answers 200 with an empty body. *)
Definition api_base : url.URL :=
  {| url.Scheme := "https"; url.Opaque := ""; url.User := None;
     url.Host := "api.contentchef.io"; url.Path := "/"; url.RawPath := "";
     url.ForceQuery := false; url.RawQuery := ""; url.Fragment := "" |}.

Definition staging (date : time.Time) : PreviewChannel :=
  {| pc_client :=
       {| httpClient := fun _ => inl (test_response 200 "");
          BaseURL := api_base; SpaceID := "aSpace"; TargetDate := date |};
     pc_name := "foo"; pc_apiKey := "superSecret"; pc_state := "staging" |}.

(** 2020-04-09T22:00:00Z. *)
Definition april_9 : time.Time :=
  {| time.sec := 63722066400; time.nsec := 0; time.offset := 0 |}.

Definition one_content : ContentOptions.t :=
  {| ContentOptions.LegacyMetadata := false; ContentOptions.PublicID := "abc" |}.

(** ** The bytes of a query *)

(** Whether every byte of [s] satisfies [p]. *)
Fixpoint all_bytes (p : ascii -> bool) (s : string) : bool :=
  match s with
  | EmptyString => true
  | String c rest => p c && all_bytes p rest
  end.

(** The unreserved bytes of a URL: letters, digits and the marks [-_.~]. *)
Definition unreserved (c : ascii) : bool :=
  url.is_alpha c || url.is_digit c || url.one_of c "-_.~".

(** The bytes an escaped query component is written with, and those of a
    whole query, where [&] and [=] separate the components. *)
Definition escaped_byte (c : ascii) : bool := unreserved c || url.one_of c "%+".

Definition query_byte (c : ascii) : bool := escaped_byte c || url.one_of c "&=".

(** ** The queries of the channels *)

(** The query of a request for one content: [legacyMetadata] when it is
    set, and [publicId] always. *)
Definition content_query (o : ContentOptions.t) : string :=
  (if ContentOptions.LegacyMetadata o then "legacyMetadata=true&" else "")
  +:+ "publicId=" +:+ url.QueryEscape (ContentOptions.PublicID o).

(** What a list of strings leaves under its key: nothing when it is
    empty. *)
Definition list_param (l : list string) : option (list string) :=
  match l with
  | [] => None
  | _ => Some l
  end.

(** The keys a search writes. *)
Definition search_keys : list string :=
  [ "skip"; "take"; "publicId"; "contentDefinition"; "repositories";
    "legacyMetadata"; "tags"; "propFilters"; "sorting" ].

(** ** Requests *)

(** The headers [newRequest] sets on a request without a body, and those
    of a request of [get] with the access key [apiKey]. *)
Definition plain_headers : http.Header :=
  <["User-Agent" := [userAgent]]> (<["Accept" := [mediaType]]> ∅).

Definition get_headers (apiKey : string) : http.Header :=
  <["X-Space-D-Api-Key" := [apiKey]]> plain_headers.

(** Whether an event is a round trip of the transport. *)
Definition is_RoundTrip (ev : Event) : bool :=
  match ev with
  | RoundTrip _ => true
  | BodyClose => false
  end.

(** ** The response an error refers to *)

(** Whether a member of the body is written under the key of the
    [Response] field of [errorResponse]. *)
Definition response_member (kv : string * json.value) : bool :=
  match field_of_key kv.1 with
  | Some FResponse => true
  | _ => false
  end.

(** The members [checkResponse] decodes: those of a body that is read
    without error and is a JSON object; none for any other body. *)
Definition body_members (body : io.ReadCloser) : list (string * json.value) :=
  match io.readErr body, json.Parse (io.content body) with
  | None, Some (json.Object members) => members
  | _, _ => []
  end.

(** A member under the key of [Response] whose value is not [null]. *)
Definition response_value (kv : string * json.value) : bool :=
  response_member kv
  && match kv.2 with
     | json.Null => false
     | _ => true
     end.

(** A body whose one member is [null] under the key [response]. *)
Definition body_null_response : string := "{" +:+ quoted "response" +:+ ":null}".

(** ** Paths from the root *)

(** A path that begins with a slash and a letter, as the paths of the
    channels do. *)
Definition rooted (s : string) : bool :=
  match s with
  | String c (String a _) => Ascii.eqb c "/" && url.is_alpha a
  | _ => false
  end.

(** The scheme and the authority of a URL, and nothing else of it. *)
Definition origin (u : url.URL) : url.URL :=
  {| url.Scheme := url.Scheme u; url.Opaque := ""; url.User := url.User u;
     url.Host := url.Host u; url.Path := ""; url.RawPath := "";
     url.ForceQuery := false; url.RawQuery := ""; url.Fragment := "" |}.

(** A client with the origin of its base URL for base URL. *)
Definition at_origin (c : Client) : Client :=
  {| httpClient := httpClient c; BaseURL := origin (BaseURL c);
     SpaceID := SpaceID c; TargetDate := TargetDate c |}.

(** A URL that comes from a rooted text: a path from the root and no
    scheme, opaque part or authority. *)
Definition rooted_url (u : url.URL) : Prop :=
  url.Scheme u = "" /\ url.Opaque u = "" /\ url.User u = None
  /\ url.Host u = "" /\ rooted (url.EscapedPath u) = true
  /\ url.Path u <> "".

(** ** Paths of plain segments *)

(** The bytes of a path whose segments are written with unreserved bytes. *)
Definition path_safe (c : ascii) : bool := unreserved c || Ascii.eqb c "/".

(** A segment written with unreserved bytes that is not a dot segment. *)
Definition segment (s : string) : bool :=
  all_bytes unreserved s && negb (String.eqb s ".") && negb (String.eqb s "..").

(** The path of the given segments, from the root. *)
Definition path_of (segs : list string) : string := "/" +:+ strings.Join segs "/".

(** The URL of a path and a query, with nothing else. *)
Definition path_url (p q : string) : url.URL :=
  {| url.Scheme := ""; url.Opaque := ""; url.User := None; url.Host := "";
     url.Path := p; url.RawPath := ""; url.ForceQuery := false;
     url.RawQuery := q; url.Fragment := "" |}.

(** The query as it follows a path in a URL: nothing when no value is
    encoded. *)
Definition query_part (qs : Values.t) : string :=
  if String.eqb (Values.Encode qs) "" then "" else "?" +:+ Values.Encode qs.

(** The URL with the scheme and the authority of the client's base URL,
    the given path and the given query. *)
Definition request_url (c : Client) (path query : string) : url.URL :=
  {| url.Scheme := url.Scheme (BaseURL c); url.Opaque := "";
     url.User := url.User (BaseURL c); url.Host := url.Host (BaseURL c);
     url.Path := path; url.RawPath := ""; url.ForceQuery := false;
     url.RawQuery := query; url.Fragment := "" |}.

(** What is made of a path and options that encode to [qs]: the text
    [addOptions] returns, and the URL [newRequest] resolves it to. *)
Definition requested (c : Client) (opts : query.options) (qs : Values.t)
    (path : string) : Prop :=
  addOptions path opts = (path +:+ query_part qs, None)
  /\ url.URL_Parse (BaseURL c) (path +:+ query_part qs)
     = inl (request_url c path (Values.Encode qs)).

(** ** Trimmed names *)

(** An entry with its name trimmed. *)
Definition trimmed (field : SortingField) : SortingField :=
  {| FieldName := strings.TrimSpace (FieldName field);
     Ascending := Ascending field |}.

(** ** The requests of the channels *)

(** The bytes of a host name, and those of a host with a port. *)
Definition host_byte (c : ascii) : bool :=
  url.is_alpha c || url.is_digit c || url.one_of c "-.".


(** A host name, alone or followed by a colon and a port number. *)
Definition host_port (h : string) : bool :=
  match strings.CutLast h ":" with
  | None => all_bytes host_byte h
  | Some (name, port) =>
      all_bytes host_byte name && negb (String.eqb port "")
      && url.all_digits port
  end.

(** A base URL on a web server: the scheme [http] or [https], no user, a
    host name with or without a port.  Its path, its query and its
    fragment are free. *)
Definition web_base (u : url.URL) : bool :=
  (String.eqb (url.Scheme u) "http" || String.eqb (url.Scheme u) "https")
  && match url.User u with None => true | Some _ => false end
  && host_port (url.Host u).



(** ** More inputs of the examples *)

(** A client whose base URL has a path, [https://api.contentchef.io/v1/],
    and whose server answers 200 with an empty body. *)
Definition versioned_client : Client :=
  {| httpClient := fun _ => inl (test_response 200 "");
     BaseURL :=
       {| url.Scheme := "https"; url.Opaque := ""; url.User := None;
          url.Host := "api.contentchef.io"; url.Path := "/v1/";
          url.RawPath := ""; url.ForceQuery := false; url.RawQuery := "";
          url.Fragment := "" |};
     SpaceID := "aSpace"; TargetDate := zero_Time |}.

(** A decoder that fails, leaving the target as it was. *)
Definition failing (e : goerror) (body : io.ReadCloser) (n : nat)
  : nat * option goerror :=
  (n, Some e).

(** The request of the call of [Test_get], [client.get(ctx, "foo",
    "super_secret", nil, got)], as the transport receives it from a client
    with an empty base URL. *)
Definition foo_request : http.Request :=
  Eval vm_compute in
  {| http.Method := "GET";
     http.URL :=
       {| url.Scheme := ""; url.Opaque := ""; url.User := None; url.Host := "";
          url.Path := "/foo"; url.RawPath := ""; url.ForceQuery := false;
          url.RawQuery := ""; url.Fragment := "" |};
     http.Header_ := get_headers "super_secret";
     http.Body_ := None; http.Host := "";
     http.ctx := Some http.Background |}.


(* ===================================================================== *)
(** * Properties: strings *)
(* ===================================================================== *)

Section Strings.

Lemma strip_prefix_length (p s r : string) :
  Bytes.strip_prefix p s = Some r ->
  String.length s = (String.length p + String.length r)%nat.
Proof.
  revert s. induction p as [|a p IH]; intros s Hs; simpl in Hs.
  - by injection Hs as ->.
  - destruct s as [|b s]; [done|].
    destruct (Ascii.eqb a b); [|done]. simpl. f_equal. by apply IH.
Qed.

Lemma strip_any_shorter (ps : list string) (s r : string) :
  Forall (fun p => p <> "") ps ->
  Bytes.strip_any ps s = Some r ->
  (String.length r < String.length s)%nat.
Proof.
  induction 1 as [|p ps Hp _ IH]; simpl; [done|].
  destruct (Bytes.strip_prefix p s) as [r'|] eqn:Hstrip; [|exact IH].
  intros [= ->]. apply strip_prefix_length in Hstrip.
  destruct p; [done|]. simpl in Hstrip. lia.
Qed.

(** With as much fuel as the string has bytes, [strip_leading] removes all
    the leading occurrences: none is left. *)
Lemma strip_leading_done (ps : list string) :
  Forall (fun p => p <> "") ps ->
  forall (fuel : nat) (s : string),
  (String.length s <= fuel)%nat ->
  Bytes.strip_any ps (Bytes.strip_leading fuel ps s) = None.
Proof.
  intros Hps. induction fuel as [|fuel IH]; intros s Hfuel; simpl.
  - destruct s; [|simpl in Hfuel; lia].
    clear Hfuel. induction Hps as [|p ps Hp _ IHps]; [done|].
    simpl. by destruct p.
  - destruct (Bytes.strip_any ps s) as [r|] eqn:Hs; [|done].
    apply IH. apply (strip_any_shorter ps s r Hps) in Hs. lia.
Qed.

Lemma space_encodings_nonempty :
  Forall (fun p => p <> "") unicode.space_encodings.
Proof. repeat constructor; discriminate. Qed.

(** [TrimLeftSpace] leaves no white space in front. *)
Lemma TrimLeftSpace_done (s : string) :
  Bytes.strip_any unicode.space_encodings (strings.TrimLeftSpace s) = None.
Proof.
  apply strip_leading_done; [apply space_encodings_nonempty | done].
Qed.

Lemma rev_app_length (s1 s2 : string) :
  String.length (String.rev_app s1 s2)
  = (String.length s1 + String.length s2)%nat.
Proof.
  revert s2. induction s1 as [|a s1 IH]; intros s2; [done|].
  simpl. rewrite IH. simpl. lia.
Qed.

Lemma reversed_encodings_nonempty :
  Forall (fun p => p <> "") (map String.rev unicode.space_encodings).
Proof. repeat constructor; discriminate. Qed.

(** [TrimRightSpace] leaves no white space at the end: the reversed result
    starts with no reversed encoding. *)
Lemma TrimRightSpace_done (s : string) :
  Bytes.strip_any (map String.rev unicode.space_encodings)
    (Bytes.strip_leading (String.length s)
       (map String.rev unicode.space_encodings) (String.rev s)) = None.
Proof.
  apply strip_leading_done; [apply reversed_encodings_nonempty|].
  unfold String.rev. rewrite rev_app_length. simpl. lia.
Qed.

Example TrimSpace_examples :
  strings.TrimSpace " publicId" = "publicId"
  /\ strings.TrimSpace (Bytes.of_codes [9; 32; 226; 128; 131; 97; 32; 98; 194; 160; 10]%N)
     = "a b"
  /\ strings.TrimSpace "   " = "".
Proof. repeat split; vm_compute; reflexivity. Qed.

End Strings.

(* ===================================================================== *)
(** * Properties: the sort specification ([serializeSorting]) *)
(* ===================================================================== *)

Section Sorting.

Lemma fill_slot_next (pre : list string) (f : SortingField) (rest : list string) :
  fill_slot (pre ++ "" :: rest) (length pre, f) = (pre ++ [slot f]) ++ rest.
Proof.
  unfold fill_slot, slot. destruct (Nat.eqb _ 0).
  - by rewrite <- app_assoc.
  - rewrite insert_app_r_alt by lia. rewrite Nat.sub_diag. simpl.
    by rewrite <- app_assoc.
Qed.

Lemma fill_slots (s : Sorting) : forall pre : list string,
  foldl fill_slot (pre ++ replicate (length s) "")
        (imap (fun i x => (length pre + i, x)%nat) s)
  = pre ++ map slot s.
Proof.
  induction s as [|f s IH]; intros pre.
  - reflexivity.
  - cbn [imap foldl length replicate map].
    rewrite Nat.add_0_r, fill_slot_next.
    rewrite (imap_ext _ (fun i x => (length (pre ++ [slot f]) + i, x)%nat)).
    + rewrite IH. by rewrite <- app_assoc.
    + intros i x _. simpl. rewrite length_app. simpl. f_equal. lia.
Qed.

(** The loop leaves one slot per entry, empty for an entry whose raw name
    is empty: the result is the join of the slots. *)
Lemma serializeSorting_slots (s : Sorting) :
  serializeSorting s = strings.Join (map slot s) ",".
Proof.
  unfold serializeSorting.
  change (strings.Join
            (foldl fill_slot ([] ++ replicate (length s) "")
               (imap (fun i x => (length (@nil string) + i, x)%nat) s)) ","
          = strings.Join (map slot s) ",").
  by rewrite fill_slots.
Qed.

Lemma slot_named (f : SortingField) : named_entry f = true -> slot f = token f.
Proof.
  unfold named_entry, slot, token. destruct (FieldName f) as [|c name]; [|done].
  vm_compute. discriminate.
Qed.

(** On a sort specification all of whose entries have a name that is not
    empty after trimming, the code returns what the specification says. *)
Lemma serializeSorting_all_named (s : Sorting) :
  forallb named_entry s = true ->
  serializeSorting s = serializeSorting_spec s.
Proof.
  intros Hall. rewrite serializeSorting_slots. unfold serializeSorting_spec.
  f_equal. induction s as [|f s IH]; [done|].
  simpl in Hall. apply andb_prop in Hall as [Hf Hs].
  simpl. rewrite Hf. simpl. by rewrite slot_named, IH.
Qed.

Lemma serializeSorting_all_named_witness :
  serializeSorting [ {| FieldName := " publicId "; Ascending := true |};
                     {| FieldName := "onlineDate"; Ascending := false |} ]
  = "+publicId,-onlineDate".
Proof.
  eapply eq_trans.
  - apply serializeSorting_all_named. vm_compute. reflexivity.
  - vm_compute. reflexivity.
Defined.

(** The tests of the repository. *)
Example serializeSorting_tests :
  serializeSorting [ {| FieldName := ""; Ascending := false |} ] = ""
  /\ serializeSorting [ {| FieldName := " publicId"; Ascending := true |} ]
     = "+publicId"
  /\ serializeSorting [ {| FieldName := "publicId"; Ascending := false |} ]
     = "-publicId"
  /\ serializeSorting [ {| FieldName := "publicId"; Ascending := true |} ]
     = "+publicId"
  /\ serializeSorting [ {| FieldName := "publicId"; Ascending := true |};
                        {| FieldName := "onlineDate"; Ascending := false |} ]
     = "+publicId,-onlineDate".
Proof. repeat split; vm_compute; reflexivity. Qed.

(** C1.  An entry with an empty field name is not skipped entirely: its
    slot stays in [values], so the join puts a comma next to it.  On the
    sort specification of an empty name followed by [publicId], ascending,
    the code returns [,+publicId] where the specification's wording gives
    [+publicId]. *)
Theorem serializeSorting_empty_name_leaves_comma :
  let s := [ {| FieldName := ""; Ascending := false |};
             {| FieldName := "publicId"; Ascending := true |} ] in
  serializeSorting s = ",+publicId"
  /\ serializeSorting_spec s = "+publicId".
Proof. split; vm_compute; reflexivity. Qed.

(** The emptiness test reads the raw name, the token the trimmed one: a
    name of white space only gives a bare sign. *)
Example serializeSorting_blank_name_bare_sign :
  serializeSorting [ {| FieldName := " "; Ascending := true |} ] = "+"
  /\ serializeSorting_spec [ {| FieldName := " "; Ascending := true |} ] = "".
Proof. split; vm_compute; reflexivity. Qed.

End Sorting.

(* ===================================================================== *)
(** * Properties: error classification ([checkResponse]) *)
(* ===================================================================== *)

Section CheckResponse.
Context `{Library}.

Lemma decode_member_Message (st : ustate) (kv : string * json.value) :
  Message (into (decode_member st kv)) = message_step (Message (into st)) kv.
Proof.
  unfold decode_member, message_step.
  destruct (field_of_key kv.1) as [[]|]; [| |done].
  - destruct kv.2 as [| | | |?|members]; try done.
    destruct (Response_ (into st)) as [| |r0];
      by destruct (json_decode_Response members _).
  - by destruct kv.2.
Qed.

Lemma decode_members_Message (members : list (string * json.value)) :
  forall st : ustate,
  Message (into (foldl decode_member st members))
  = last_message members (Message (into st)).
Proof.
  induction members as [|kv members IH]; intros st; [done|].
  simpl. rewrite IH. unfold last_message. simpl.
  by rewrite decode_member_Message.
Qed.

Lemma decode_member_plain (st : ustate) (kv : string * json.value) :
  plain_member kv = true -> saved (decode_member st kv) = saved st.
Proof.
  unfold plain_member, decode_member.
  destruct (field_of_key kv.1) as [[]|]; [| |done];
    by destruct kv.2.
Qed.

Lemma decode_members_plain (members : list (string * json.value)) :
  forall st : ustate,
  forallb plain_member members = true ->
  saved (foldl decode_member st members) = saved st.
Proof.
  induction members as [|kv members IH]; intros st Hall; [done|].
  simpl in Hall. apply andb_prop in Hall as [Hkv Hrest].
  simpl. rewrite IH by done. by apply decode_member_plain.
Qed.

(** With no member for [Message], the message is as it was. *)
Lemma last_message_absent (members : list (string * json.value)) (init : string) :
  Forall (fun kv => field_of_key kv.1 <> Some FMessage) members ->
  last_message members init = init.
Proof.
  unfold last_message. intros Hall. revert init.
  induction Hall as [|kv members Hkv _ IH]; intros init; [done|].
  simpl. rewrite IH. unfold message_step.
  destruct (field_of_key kv.1) as [[]|]; done.
Qed.

(** An object of plain members decodes without an error. *)
Lemma Unmarshal_plain (data : string) (r : http.Response) (e : errorResponse)
    (members : list (string * json.value)) :
  json.Parse data = Some (json.Object members) ->
  forallb plain_member members = true ->
  saved (Unmarshal data r e) = None.
Proof.
  intros Hp Hplain. unfold Unmarshal. rewrite Hp.
  by rewrite decode_members_plain.
Qed.

(** A text that is not valid JSON is reported as an error. *)
Lemma Unmarshal_invalid (data : string) (r : http.Response) (e : errorResponse) :
  json.Parse data = None -> saved (Unmarshal data r e) <> None.
Proof. intros Hp. unfold Unmarshal. rewrite Hp. done. Qed.

Lemma non_2xx (c : Z) :
  c < 200 \/ 299 < c -> (200 <=? c) && (c <=? 299) = false.
Proof. intros Hc. apply andb_false_iff. lia. Qed.

(** C2, as amended.  For a response with a status outside 200..299 the
    error of [checkResponse] has
    - an empty message when the body is empty or cannot be read;
    - the raw body as its message when the body is not empty and
      [json.Unmarshal] reports an error, in particular when the body is not
      valid JSON;
    - the string of the body's message member when the body is a JSON
      object that decodes without error, and an empty message when such an
      object has no message member. *)
Theorem checkResponse_message (r : http.Response) :
  http.StatusCode r < 200 \/ 299 < http.StatusCode r ->
  exists r' e,
    checkResponse r = (r', Some e)
    /\ (io.content (http.Body r) = "" -> Message e = "")
    /\ (io.readErr (http.Body r) <> None -> Message e = "")
    /\ (io.readErr (http.Body r) = None ->
        io.content (http.Body r) <> "" ->
        (saved (Unmarshal (io.content (http.Body r)) r fresh_errorResponse)
           <> None
         \/ json.Parse (io.content (http.Body r)) = None) ->
        Message e = io.content (http.Body r))
    /\ (io.readErr (http.Body r) = None ->
        forall members,
        json.Parse (io.content (http.Body r)) = Some (json.Object members) ->
        saved (Unmarshal (io.content (http.Body r)) r fresh_errorResponse)
          = None ->
        Message e = last_message members "").
Proof.
  intros Hstatus. unfold checkResponse. cbv zeta.
  rewrite (non_2xx _ Hstatus). unfold io.ReadAll.
  fold fresh_errorResponse.
  destruct (io.readErr (http.Body r)) as [rerr|] eqn:Hread.
  { eexists _, _. split; [reflexivity|]. repeat split; done. }
  destruct (io.content (http.Body r)) as [|c body] eqn:Hbody.
  { eexists _, _. split; [reflexivity|]. simpl. repeat split; done. }
  cbn [String.length Nat.ltb Nat.leb].
  set (data := String c body) in *.
  destruct (saved (Unmarshal data r fresh_errorResponse)) as [uerr|] eqn:Hsaved.
  - eexists _, _. split; [reflexivity|]. simpl. repeat split; done.
  - eexists _, _. split; [reflexivity|]. repeat split; try done.
    + intros _ _ [Herr | Hp]; [done|].
      by apply (Unmarshal_invalid data r fresh_errorResponse) in Hp.
    + intros _ members Hp _. unfold Unmarshal. rewrite Hp.
      by rewrite decode_members_Message.
Qed.

End CheckResponse.

Section CheckResponseExamples.
#[local] Existing Instance example_library.

(** [TestCheckResponse], from the theorem: the message is [m]. *)
Lemma checkResponse_message_witness :
  Message <$> (checkResponse (test_response 400 body_with_message)).2 = Some "m".
Proof.
  destruct (checkResponse_message (test_response 400 body_with_message))
    as (r' & e & Heq & _ & _ & _ & Hobject).
  - right. vm_compute. reflexivity.
  - rewrite Heq. simpl. f_equal.
    eapply eq_trans.
    + apply Hobject; [reflexivity | vm_compute; reflexivity | vm_compute; reflexivity].
    + vm_compute. reflexivity.
Defined.

(** C2, as stated, fails: a body that is valid JSON without a message field
    is not taken verbatim; the message stays empty. *)
Lemma checkResponse_json_without_message :
  json.Parse body_without_message = Some (json.Object [("error", json.Str "x")])
  /\ has_message_field body_without_message = false
  /\ Message <$> (checkResponse (test_response 400 body_without_message)).2
     = Some ""
  /\ body_without_message <> "".
Proof. repeat split; vm_compute; (reflexivity || discriminate). Qed.

(** The other tests: no body; and a body that is not JSON, a status that
    is a success. *)
Example checkResponse_tests :
  Message <$> (checkResponse (test_response 400 "")).2 = Some ""
  /\ Message <$> (checkResponse (test_response 400 "Bad Request")).2
     = Some "Bad Request"
  /\ (checkResponse (test_response 204 "")).2 = None.
Proof. repeat split; vm_compute; reflexivity. Qed.

(** A message member does not make the message when another member fails
    to decode, or when its own value is not a string: the raw body does. *)
Example checkResponse_message_not_used :
  let wrong_type := "{" +:+ quoted "message" +:+ ":5}" in
  let other_fails :=
    "{" +:+ quoted "message" +:+ ":" +:+ quoted "m" +:+ ","
    +:+ quoted "response" +:+ ":1}" in
  Message <$> (checkResponse (test_response 500 wrong_type)).2 = Some wrong_type
  /\ Message <$> (checkResponse (test_response 500 other_fails)).2
     = Some other_fails.
Proof. repeat split; vm_compute; reflexivity. Qed.

End CheckResponseExamples.

(* ===================================================================== *)
(** * Properties: client construction ([NewClient]) *)
(* ===================================================================== *)

Section NewClient.
Context `{Library}.

(** C3, as amended.  [NewClient] returns an error and no client whenever
    [url.Parse] rejects the base URL string or the space identifier is
    empty; a client it returns holds the URL parsed from the base URL
    string and the options' space identifier, which is not empty. *)
Theorem NewClient_validates (o : ClientOptions.t) :
  ((exists err, url.Parse (ClientOptions.BaseURL o) = inr err)
   \/ ClientOptions.SpaceID o = "" ->
   exists err, NewClient o = inr err)
  /\ (forall c, NewClient o = inl c ->
      url.Parse (ClientOptions.BaseURL o) = inl (BaseURL c)
      /\ SpaceID c = ClientOptions.SpaceID o
      /\ SpaceID c <> "").
Proof.
  unfold NewClient. split.
  - intros [[err Hp] | Hs].
    + rewrite Hp. eauto.
    + destruct (url.Parse _); [|eauto]. rewrite Hs. simpl. eauto.
  - intros c Hc. destruct (url.Parse _) as [u|err]; [|discriminate].
    destruct (String.eqb_spec (ClientOptions.SpaceID o) "") as [|Hne];
      [discriminate|].
    injection Hc as <-. simpl. done.
Qed.

End NewClient.

Section NewClientExamples.
#[local] Existing Instance example_library.

(** A base URL with a control character is rejected; the README's base URL
    gives a client. *)
Lemma NewClient_validates_witness :
  (exists err,
     NewClient (readme_options (String (ascii_of_N 127) "")) = inr err)
  /\ (exists c,
       NewClient (readme_options "https://api.contentchef.io/") = inl c
       /\ url.Parse "https://api.contentchef.io/" = inl (BaseURL c)
       /\ SpaceID c = "yourContentChefSpaceID"
       /\ SpaceID c <> "").
Proof.
  split.
  - apply (NewClient_validates (readme_options (String (ascii_of_N 127) ""))).
    left. eexists. vm_compute. reflexivity.
  - eexists. split; [vm_compute; reflexivity|].
    apply (NewClient_validates (readme_options "https://api.contentchef.io/")).
    vm_compute. reflexivity.
Defined.

(** C3, as stated, fails: a base URL without a scheme parses, as a relative
    URL, and the client is constructed with it. *)
Lemma NewClient_accepts_relative_base :
  exists c,
    NewClient (readme_options "api.contentchef.io") = inl c
    /\ url.IsAbs (BaseURL c) = false
    /\ url.Path (BaseURL c) = "api.contentchef.io"
    /\ SpaceID c = "yourContentChefSpaceID".
Proof. eexists. repeat split; vm_compute; reflexivity. Qed.

End NewClientExamples.

(* ===================================================================== *)
(** * Properties: executing a request ([do]) *)
(* ===================================================================== *)

Section Do.
Context `{Library}.
Context {T : Type}.

Implicit Types (c : Client) (req : http.Request) (v : Target T).

(** [checkResponse] returns no error exactly on the codes 200..299, and
    then leaves the response alone. *)
Lemma checkResponse_success (res : http.Response) :
  ((checkResponse res).2 = None <-> 200 <= http.StatusCode res <= 299)
  /\ (200 <= http.StatusCode res <= 299 -> checkResponse res = (res, None)).
Proof.
  unfold checkResponse. cbv zeta.
  destruct ((200 <=? http.StatusCode res) && (http.StatusCode res <=? 299))
    eqn:Hc.
  - apply andb_prop in Hc as [?%Z.leb_le ?%Z.leb_le]. simpl. split; [|done].
    split; [lia|done].
  - apply andb_false_iff in Hc as Hc'.
    assert (~ 200 <= http.StatusCode res <= 299) as Hout.
    { destruct Hc' as [?%Z.leb_gt|?%Z.leb_gt]; lia. }
    split; [|done]. split; [|done].
    unfold io.ReadAll.
    destruct (io.readErr (http.Body res)); [done|].
    destruct (Nat.ltb 0 _); [|done].
    by destruct (saved _).
Qed.

(** C5.  Of a response the transport returned, [do] treats the status
    codes 200..299, and no other, as success: on any other code it returns
    the error [checkResponse] made, with the response, and the target is as
    it was; on a code in 200..299 the error it returns, if any, is not that
    of [checkResponse]. *)
Theorem do_classifies_by_status c (ctx : context.Context) req v
    (res : http.Response) :
  httpClient c (http.WithContext ctx req) = inl res ->
  ((checkResponse res).2 = None <-> 200 <= http.StatusCode res <= 299)
  /\ (~ 200 <= http.StatusCode res <= 299 ->
      exists res' e,
        checkResponse res = (res', Some e)
        /\ do c (Some ctx) req v
           = {| response := Some res'; err := Some (ResponseError e);
                target := v;
                events := [RoundTrip (http.WithContext ctx req); BodyClose] |})
  /\ (200 <= http.StatusCode res <= 299 ->
      response (do c (Some ctx) req v) = Some res
      /\ forall e, err (do c (Some ctx) req v) <> Some (ResponseError e)).
Proof.
  intros Hres. destruct (checkResponse_success res) as [Hiff Hok].
  split; [exact Hiff|]. split.
  - intros Hout. unfold do. rewrite Hres.
    destruct (checkResponse res) as [res' [e|]] eqn:Hcheck.
    + by exists res', e.
    + exfalso. apply Hout, Hiff. done.
  - intros Hin. unfold do. rewrite Hres, (Hok Hin).
    destruct v as [|w|decode x]; [done|done|].
    destruct (Decoder_Decode decode (http.Body res) x) as [x' [[]|]]; done.
Qed.

(** C6.  A response with a status in 200..299 and an empty body, decoded
    into a JSON target: [do] returns no error and the target holds what it
    held. *)
Theorem do_empty_body c (ctx : context.Context) req
    (decode : io.ReadCloser -> T -> T * option goerror) (x : T)
    (res : http.Response) :
  httpClient c (http.WithContext ctx req) = inl res ->
  200 <= http.StatusCode res <= 299 ->
  http.Body res = {| io.content := ""; io.readErr := None |} ->
  do c (Some ctx) req (JSONTarget decode x)
  = {| response := Some res; err := None; target := JSONTarget decode x;
       events := [RoundTrip (http.WithContext ctx req); BodyClose] |}.
Proof.
  intros Hres Hin Hbody. unfold do.
  rewrite Hres, (proj2 (checkResponse_success res) Hin).
  unfold Decoder_Decode. rewrite Hbody. reflexivity.
Qed.

(** C7.  When the transport returns an error, [do] returns the context's
    error if the context is done at that moment, and the transport's error
    as it is otherwise; no response in either case. *)
Theorem do_transport_error c (ctx : context.Context) req v (terr : goerror) :
  httpClient c (http.WithContext ctx req) = inr terr ->
  response (do c (Some ctx) req v) = None
  /\ target (do c (Some ctx) req v) = v
  /\ (context.Done ctx = true ->
      err (do c (Some ctx) req v) = LibError <$> context.Err ctx)
  /\ (context.Done ctx = false ->
      err (do c (Some ctx) req v) = Some (LibError terr)).
Proof.
  intros Herr. unfold do. rewrite Herr.
  destruct (context.Done ctx); repeat split; done.
Qed.

(** C8.  Without a context [do] returns an error at once: nothing is
    handed to the transport, whatever the client, the request and the
    target are. *)
Theorem do_nil_context c req v :
  do c None req v
  = {| response := None;
       err := Some (LibError (errors_New "context must be non-nil"));
       target := v; events := [] |}.
Proof. reflexivity. Qed.

End Do.

Section DoExamples.
#[local] Existing Instance example_library.

(** [TestDo_httpError]: the server answers 400, Bad Request. *)
Lemma do_classifies_by_status_witness :
  exists res' e,
    checkResponse (test_response 400 "Bad Request") = (res', Some e)
    /\ do (server_client (test_response 400 "Bad Request"))
          (Some http.Background) empty_request (@NoTarget unit)
       = {| response := Some res'; err := Some (ResponseError e);
            target := NoTarget;
            events := [RoundTrip (http.WithContext http.Background empty_request);
                       BodyClose] |}.
Proof.
  apply (do_classifies_by_status
           (server_client (test_response 400 "Bad Request")) http.Background
           empty_request NoTarget (test_response 400 "Bad Request")).
  - reflexivity.
  - vm_compute. intros [_ Hle]. apply Hle. reflexivity.
Defined.

Lemma do_empty_body_witness :
  do (server_client (test_response 200 "")) (Some http.Background)
     empty_request (JSONTarget counting O)
  = {| response := Some (test_response 200 ""); err := None;
       target := JSONTarget counting O;
       events := [RoundTrip (http.WithContext http.Background empty_request);
                  BodyClose] |}.
Proof.
  apply do_empty_body; [reflexivity | vm_compute; split; discriminate | reflexivity].
Defined.

(** [TestDo_redirectLoop], and the same failure under a cancelled context. *)
Lemma do_transport_error_witness :
  err (do (failing_client redirect_loop) (Some http.Background) empty_request
          (@NoTarget unit))
    = Some (LibError redirect_loop)
  /\ err (do (failing_client redirect_loop) (Some canceled) empty_request
             (@NoTarget unit))
     = Some (LibError context_Canceled).
Proof.
  split.
  - apply (do_transport_error (failing_client redirect_loop) http.Background
             empty_request NoTarget redirect_loop); reflexivity.
  - apply (do_transport_error (failing_client redirect_loop) canceled
             empty_request NoTarget redirect_loop); reflexivity.
Defined.

(** A body that is not empty is decoded: the counting target counts it. *)
Example do_decodes_body :
  target (do (server_client (test_response 200 "{}")) (Some http.Background)
            empty_request (JSONTarget counting O))
  = JSONTarget counting 1%nat.
Proof. reflexivity. Qed.

End DoExamples.

(* ===================================================================== *)
(** * Properties: query encoding ([addOptions]) *)
(* ===================================================================== *)

Section AddOptions.
Context `{Library}.

(** What [URL.String] writes before the query and after it does not depend
    on the query. *)
Lemma String_set_RawQuery (q : string) (u : url.URL) :
  url.String_ (url.set_RawQuery q u)
  = url.String_head u
    +:+ (if url.ForceQuery u || negb (String.eqb q "") then "?" +:+ q else "")
    +:+ url.String_fragment u.
Proof. reflexivity. Qed.

(** C10.  For a path that parses and options, not a nil pointer, that
    encode, [addOptions] returns the URL of the path with the encoding of
    the options as its query: what [URL.String] writes with [RawQuery] set
    to the encoding, whatever query the path had. *)
Theorem addOptions_replaces_query (path : string) (opts : query.options)
    (u : url.URL) (qs : Values.t) :
  opts <> query.Pointer None ->
  url.Parse path = inl u ->
  query.Values opts = inl qs ->
  addOptions path opts
  = (url.String_head u
     +:+ (if url.ForceQuery u || negb (String.eqb (Values.Encode qs) "")
          then "?" +:+ Values.Encode qs else "")
     +:+ url.String_fragment u, None)
  /\ (forall q,
      url.String_ (url.set_RawQuery (Values.Encode qs) (url.set_RawQuery q u))
      = url.String_ (url.set_RawQuery (Values.Encode qs) u)).
Proof.
  intros Hopts Hparse Hvalues. split; [|done].
  unfold addOptions. rewrite Hparse, Hvalues.
  rewrite String_set_RawQuery.
  destruct opts as [|[s|]| |k]; done.
Qed.

End AddOptions.

Section AddOptionsExamples.
#[local] Existing Instance example_library.

(** [Test_addOptions], and the same options on a path that has a query. *)
Lemma addOptions_replaces_query_witness :
  addOptions "/something" (myOpts "bar") = ("/something?foo=bar", None)
  /\ addOptions "/something?old=1#top" (myOpts "bar")
     = ("/something?foo=bar#top", None).
Proof.
  split.
  - eapply eq_trans.
    + eapply (addOptions_replaces_query "/something" (myOpts "bar"));
        [discriminate | vm_compute; reflexivity | vm_compute; reflexivity].
    + vm_compute. reflexivity.
  - eapply eq_trans.
    + eapply (addOptions_replaces_query "/something?old=1#top" (myOpts "bar"));
        [discriminate | vm_compute; reflexivity | vm_compute; reflexivity].
    + vm_compute. reflexivity.
Defined.

(** C9, as stated, fails: an untyped nil is no pointer.  The path is
    parsed and written again: its query is dropped, a byte that a path
    does not hold is escaped, and a path that does not parse is an
    error. *)
Lemma addOptions_nil_interface :
  addOptions "foo?a=b" query.NilInterface = ("foo", None)
  /\ addOptions "/a b" query.NilInterface = ("/a%20b", None)
  /\ addOptions "/a%zz" query.NilInterface
     = ("/a%zz", Some (url_Error "parse" "/a%zz" (url_EscapeError "%zz"))).
Proof. repeat split; vm_compute; reflexivity. Qed.

(** The failures: a path that does not parse, options that are no struct. *)
Example addOptions_errors :
  (addOptions "/a%zz" (myOpts "bar")).2
    = Some (url_Error "parse" "/a%zz" (url_EscapeError "%zz"))
  /\ (addOptions "/a" (query.NotAStruct reflect.Int)).2
     = Some (errors_New "query: Values() expects struct input. Got int").
Proof. split; vm_compute; reflexivity. Qed.

End AddOptionsExamples.

(* ===================================================================== *)
(** * Properties: the query values of the option structs *)
(* ===================================================================== *)

Section QueryValues.

Lemma string_app_empty (a b : string) : a +:+ b = "" -> b = "".
Proof. destruct a; [done | discriminate]. Qed.

(** A formatted date is never the empty string. *)
Lemma Format_RFC3339_nonempty (t : time.Time) : time.Format_RFC3339 t <> "".
Proof.
  unfold time.Format_RFC3339. destruct (time.civil _) as [[y m] d].
  intros Hempty. apply string_app_empty in Hempty. discriminate.
Qed.

Lemma Add_insert (k name s : string) (x : list string) (v : Values.t) :
  name <> k ->
  Values.Add name s (<[k := x]> v) = <[k := x]> (Values.Add name s v).
Proof.
  intros Hne. unfold Values.Add.
  rewrite lookup_insert_ne by done. by apply insert_insert_ne.
Qed.

Lemma Add_lookup (k name s : string) (v : Values.t) :
  name <> k -> Values.Add name s v !! k = v !! k.
Proof. intros Hne. unfold Values.Add. by rewrite lookup_insert_ne. Qed.

Lemma Add_all_insert (k name : string) (x : list string) (l : list string) :
  name <> k ->
  forall v : Values.t,
  foldl (fun vs y => Values.Add name y vs) (<[k := x]> v) l
  = <[k := x]> (foldl (fun vs y => Values.Add name y vs) v l).
Proof.
  intros Hne. induction l as [|y l IH]; intros v; [done|].
  simpl. by rewrite Add_insert, IH.
Qed.

Lemma Add_all_lookup (k name : string) (l : list string) :
  name <> k ->
  forall v : Values.t,
  foldl (fun vs y => Values.Add name y vs) v l !! k = v !! k.
Proof.
  intros Hne. induction l as [|y l IH]; intros v; [done|].
  simpl. by rewrite IH, Add_lookup.
Qed.

Lemma Set_insert (k name s : string) (x : list string) (v : Values.t) :
  name <> k ->
  Values.Set_ name s (<[k := x]> v) = <[k := x]> (Values.Set_ name s v).
Proof. intros Hne. unfold Values.Set_. by apply insert_insert_ne. Qed.

(** A field of a plain kind leaves every key but its own alone. *)
Lemma leaves_plain (k name : string) (omit : bool) (val : query.fvalue) :
  name <> k ->
  match val with query.VEncoder _ _ => False | _ => True end ->
  leaves k {| query.name := name; query.omitempty := omit; query.value := val |}.
Proof.
  intros Hne Hplain. unfold leaves, query.reflectField. simpl.
  destruct (omit && query.isEmptyValue val).
  { split; [done|]. by intros v v' [= <-]. }
  destruct val as [s|b|n|l|? ?]; [..|done]; simpl.
  - split; [intros; by rewrite Add_insert|].
    intros v v' [= <-]. by apply Add_lookup.
  - split; [intros; by rewrite Add_insert|].
    intros v v' [= <-]. by apply Add_lookup.
  - split; [intros; by rewrite Add_insert|].
    intros v v' [= <-]. by apply Add_lookup.
  - split; [intros; by rewrite Add_all_insert|].
    intros v v' [= <-]. by apply Add_all_lookup.
Qed.

Lemma reflectFields_leaves (k : string) (fs : list query.field) :
  Forall (leaves k) fs ->
  (forall (x : list string) (v : Values.t),
     query.reflectFields fs (<[k := x]> v)
     = on_ok (insert k x) (query.reflectFields fs v))
  /\ (forall v v' : Values.t,
        query.reflectFields fs v = inl v' -> v' !! k = v !! k).
Proof.
  induction 1 as [|f fs [Hf1 Hf2] _ [IH1 IH2]]; simpl.
  { split; [done|]. by intros v v' [= <-]. }
  split.
  - intros x v. rewrite Hf1.
    destruct (query.reflectField f v) as [v1|e]; simpl; [apply IH1 | done].
  - intros v v' Hv.
    destruct (query.reflectField f v) as [v1|e] eqn:Hf; [|done].
    rewrite (IH2 _ _ Hv). by apply Hf2.
Qed.

Lemma named_Named (fs : list query.field) :
  query.named (map query.Named fs) = fs
  /\ query.embedded (map query.Named fs) = [].
Proof. induction fs as [|f fs [IH1 IH2]]; [done|]. simpl. by rewrite IH1, IH2. Qed.

(** The values of a pointer to a struct of named fields. *)
Lemma Values_pointer (fs : list query.field) :
  query.Values (query.Pointer (Some (map query.Named fs)))
  = query.reflectFields fs Values.empty.
Proof.
  unfold query.Values, query.reflectValue.
  destruct (named_Named fs) as [-> ->].
  by destruct (query.reflectFields fs Values.empty).
Qed.

(** The values of the preview channel's struct: the [targetDate] field is
    read first, the embedded options after it. *)
Lemma Values_urlParams (fs : list query.field) (targetDate : string) :
  Forall (leaves "targetDate") fs ->
  query.Values (urlParams fs targetDate)
  = on_ok (fun qs => if String.eqb targetDate "" then qs
                     else <["targetDate" := [targetDate]]> qs)
          (query.reflectFields fs Values.empty).
Proof.
  intros Hfs. destruct (reflectFields_leaves "targetDate" fs Hfs) as [Hins _].
  unfold query.Values, urlParams, query.reflectValue. simpl.
  unfold query.reflectField. simpl.
  destruct (String.eqb_spec targetDate "") as [->|Hne]; simpl.
  - by destruct (query.reflectFields fs Values.empty).
  - unfold Values.Add, Values.empty. rewrite lookup_empty. simpl.
    rewrite Hins.
    by destruct (query.reflectFields fs ∅).
Qed.


End QueryValues.

(* ===================================================================== *)
(** * Properties: the preview channel *)
(* ===================================================================== *)

Section PreviewChannel.
Context `{Library}.

Lemma leaves_Sorting (k : string) (s : Sorting) (empty : bool) :
  "sorting" <> k ->
  leaves k {| query.name := "sorting"; query.omitempty := true;
              query.value :=
                query.VEncoder empty (Sorting_EncodeValues s "sorting") |}.
Proof.
  intros Hne. unfold leaves, query.reflectField. simpl.
  destruct empty; simpl.
  { split; [done|]. by intros v v' [= <-]. }
  unfold Sorting_EncodeValues. split.
  - intros x v. simpl. by rewrite Set_insert.
  - intros v v' [= <-]. unfold Values.Set_. by rewrite lookup_insert_ne.
Qed.

Lemma leaves_PropFilters (k : string) (p : PropFilters) :
  "propFilters" <> k ->
  leaves k {| query.name := "propFilters"; query.omitempty := true;
              query.value :=
                query.VEncoder false (PropFilters_EncodeValues p "propFilters") |}.
Proof.
  intros Hne. unfold leaves, query.reflectField. simpl.
  unfold PropFilters_EncodeValues.
  destruct (Nat.eqb (length (Items p)) 0).
  { split; [done|]. by intros v v' [= <-]. }
  destruct (json_Marshal_PropFilters p) as [j|e]; [|done].
  split.
  - intros x v. simpl. by rewrite Set_insert.
  - intros v v' [= <-]. unfold Values.Set_. by rewrite lookup_insert_ne.
Qed.

Lemma ContentOptions_leaves (o : ContentOptions.t) :
  Forall (leaves "targetDate") (ContentOptions_fields o).
Proof. repeat constructor; by apply leaves_plain. Qed.



End PreviewChannel.

(* ===================================================================== *)
(** * Properties: the channel constructors *)
(* ===================================================================== *)

Section Channels.

(** An online channel is made exactly when the name and the key are not
    empty, and then holds both and the client. *)
Lemma Client_OnlineChannel_validates (c : Client) (name apiKey : string) :
  (name = "" \/ apiKey = "" <->
   exists err, Client_OnlineChannel c name apiKey = inr err)
  /\ (name <> "" -> apiKey <> "" ->
      Client_OnlineChannel c name apiKey
      = inl {| oc_client := c; oc_name := name; oc_apiKey := apiKey |}).
Proof.
  unfold Client_OnlineChannel.
  destruct (String.eqb_spec name "") as [->|Hname];
    [|destruct (String.eqb_spec apiKey "") as [->|Hkey]].
  - split; [|done]. split; eauto.
  - split; [|done]. split; eauto.
  - split; [|done]. split; [intros [|]; done | intros [err Herr]; done].
Qed.

(** A preview channel is made exactly when the name and the key are not
    empty and the state is [live] or [staging]. *)
Lemma Client_PreviewChannel_validates (c : Client) (name apiKey state : string) :
  (name = "" \/ apiKey = "" \/ (state <> "live" /\ state <> "staging") <->
   exists err, Client_PreviewChannel c name apiKey state = inr err)
  /\ (name <> "" -> apiKey <> "" -> state = "live" \/ state = "staging" ->
      Client_PreviewChannel c name apiKey state
      = inl {| pc_client := c; pc_name := name; pc_apiKey := apiKey;
               pc_state := state |}).
Proof.
  unfold Client_PreviewChannel.
  destruct (String.eqb_spec name "") as [->|Hname];
    [|destruct (String.eqb_spec apiKey "") as [->|Hkey];
      [|destruct (String.eqb_spec state "live") as [->|Hlive];
        [|destruct (String.eqb_spec state "staging") as [->|Hstaging]]]];
    simpl.
  - split; [|done]. split; eauto.
  - split; [|done]. split; eauto.
  - split; [|done]. split; [|intros [err Herr]; done].
    intros [|[|[]]]; done.
  - split; [|done]. split; [|intros [err Herr]; done].
    intros [|[|[]]]; done.
  - split; [|by intros _ _ [|]]. split; eauto.
Qed.

End Channels.

Section ChannelExamples.
#[local] Existing Instance example_library.

(** What [addOptions] makes of the paths and options of the channels. *)
Example channel_paths :
  addOptions (getPreviewEndpoint "aSpace" "content" "foo" "staging")
    (urlParams (ContentOptions_fields one_content)
       (targetDate_of (pc_client (staging april_9))))
  = ("/space/aSpace/preview/staging/content/foo?publicId=abc&targetDate=2020-04-09T22%3A00%3A00Z",
     None)
  /\ addOptions (getPreviewEndpoint "aSpace" "content" "foo" "staging")
       (urlParams (ContentOptions_fields one_content)
          (targetDate_of (pc_client (staging zero_Time))))
     = ("/space/aSpace/preview/staging/content/foo?publicId=abc", None)
  /\ addOptions (getOnlineEndpoint "aSpace" "content" "foo")
       (ContentOptions_ptr (Some one_content))
     = ("/space/aSpace/online/content/foo?publicId=abc", None).
Proof. repeat split; vm_compute; reflexivity. Qed.

(** The whole of a call of [Content] on the preview channel: one request
    reaches the transport, for the URL of the channel under the base URL,
    with the access key in its header; the empty body leaves the result at
    its zero value. *)
Example preview_content_call :
  match PreviewChannel_Content (staging april_9) (Some http.Background)
          (Some one_content) with
  | Some (r, err, [RoundTrip req; BodyClose]) =>
      r = zero_Response /\ err = None
      /\ http.Method req = "GET"
      /\ url.String_ (http.URL req)
         = "https://api.contentchef.io/space/aSpace/preview/staging/content/foo?publicId=abc&targetDate=2020-04-09T22%3A00%3A00Z"
      /\ http.Header_ req !! "X-Space-D-Api-Key" = Some ["superSecret"]
      /\ http.Header_ req !! "Accept" = Some ["application/json"]
      /\ http.Header_ req !! "User-Agent" = Some ["contentchef-go/0.1"]
  | _ => False
  end.
Proof. vm_compute. repeat split; reflexivity. Qed.

(** A nil options pointer: the online channel sends no query; the preview
    channel dereferences the pointer. *)
Example nil_options :
  PreviewChannel_Content (staging april_9) (Some http.Background) None = None
  /\ match OnlineChannel_Content
             {| oc_client := pc_client (staging april_9); oc_name := "foo";
                oc_apiKey := "superSecret" |} (Some http.Background) None with
     | (_, err, [RoundTrip req; BodyClose]) =>
         err = None
         /\ url.String_ (http.URL req)
            = "https://api.contentchef.io/space/aSpace/online/content/foo"
     | _ => False
     end.
Proof. split; [reflexivity|]. vm_compute. repeat split; reflexivity. Qed.

(** The tests of the endpoint helpers; the second passes the state where
    the method is expected, and so on. *)
Example endpoint_tests :
  getOnlineEndpoint "aSpace" "content" "foo" = "/space/aSpace/online/content/foo"
  /\ getPreviewEndpoint "aSpace" "live" "content" "foo"
     = "/space/aSpace/preview/foo/live/content".
Proof. split; reflexivity. Qed.

(** The tests of the channel constructors. *)
Example channel_constructor_tests :
  let client := pc_client (staging zero_Time) in
  Client_OnlineChannel client "" "superSecret"
    = inr (errors_New "name seems to be an empty string")
  /\ Client_OnlineChannel client "channelName" ""
     = inr (errors_New "apiKey seems to be an empty string")
  /\ Client_OnlineChannel client "channelName" "superSecret"
     = inl {| oc_client := client; oc_name := "channelName";
              oc_apiKey := "superSecret" |}
  /\ Client_PreviewChannel client "channelName" "superSecret" ""
     = inr (errors_New "`State must be either 'live' or 'staging")
  /\ Client_PreviewChannel client "channelName" "superSecret" "live"
     = inl {| pc_client := client; pc_name := "channelName";
              pc_apiKey := "superSecret"; pc_state := "live" |}.
Proof. repeat split. Qed.

End ChannelExamples.

(* ===================================================================== *)
(** * Properties: the escaping of query components *)
(* ===================================================================== *)

Section Escaping.

Lemma all_bytes_app (p : ascii -> bool) (s1 s2 : string) :
  all_bytes p (s1 +:+ s2) = all_bytes p s1 && all_bytes p s2.
Proof.
  induction s1 as [|c s1 IH]; [done|].
  simpl. rewrite IH. by rewrite andb_assoc.
Qed.

Lemma all_bytes_Join (p : ascii -> bool) (sep : string) (l : list string) :
  all_bytes p sep = true ->
  Forall (fun s => all_bytes p s = true) l ->
  all_bytes p (strings.Join l sep) = true.
Proof.
  intros Hsep. induction 1 as [|s l Hs Hl IH]; [done|].
  simpl. destruct l as [|s' l]; [done|].
  rewrite !all_bytes_app, Hs, Hsep. exact IH.
Qed.

Lemma all_bytes_weaken (p q : ascii -> bool) (s : string) :
  (forall c, p c = true -> q c = true) ->
  all_bytes p s = true -> all_bytes q s = true.
Proof.
  intros Hpq. induction s as [|c s IH]; [done|].
  simpl. intros [Hc Hs]%andb_prop. by rewrite (Hpq c Hc), IH.
Qed.

(** One byte is escaped by itself. *)
Lemma escape_cons (c : ascii) (rest : string) :
  url.escape (String c rest) url.encodeQueryComponent
  = url.escape (String c "") url.encodeQueryComponent
    +:+ url.escape rest url.encodeQueryComponent.
Proof.
  simpl. destruct (url.shouldEscape c _); [|done].
  by destruct (Ascii.eqb c " ").
Qed.

(** What a byte is escaped to: itself, when it is neither [%] nor [+]; a
    plus sign, for a space; or [%] and two hexadecimal digits that give the
    byte back. *)
Lemma escape_shape (c : ascii) :
  match url.escape (String c "") url.encodeQueryComponent with
  | String x "" =>
      (Ascii.eqb x c && negb (Ascii.eqb c "%") && negb (Ascii.eqb c "+"))
      || (Ascii.eqb x "+" && Ascii.eqb c " ")
  | String p (String a (String b "")) =>
      Ascii.eqb p "%"
      && match url.unhex a, url.unhex b with
         | Some hi, Some lo => Ascii.eqb (url.hexbyte hi lo) c
         | _, _ => false
         end
  | _ => false
  end = true.
Proof. destruct c as [[] [] [] [] [] [] [] []]; vm_compute; reflexivity. Qed.

Lemma escaped_bytes (c : ascii) :
  all_bytes escaped_byte (url.escape (String c "") url.encodeQueryComponent)
  = true.
Proof. destruct c as [[] [] [] [] [] [] [] []]; vm_compute; reflexivity. Qed.

Lemma unescape_escaped (c : ascii) (r : string) :
  url.unescape (url.escape (String c "") url.encodeQueryComponent +:+ r)
    url.encodeQueryComponent
  = match url.unescape r url.encodeQueryComponent with
    | inl r' => inl (String c r')
    | inr err => inr err
    end.
Proof.
  pose proof (escape_shape c) as Hshape.
  destruct (url.escape (String c "") url.encodeQueryComponent)
    as [|x [|a [|b [|? ?]]]]; try done.
  - apply orb_prop in Hshape as [Hsame | Hplus].
    + apply andb_prop in Hsame
        as [[->%Ascii.eqb_eq Hp%negb_true_iff]%andb_prop Hq%negb_true_iff].
      simpl. by rewrite Hp, Hq.
    + by apply andb_prop in Hplus as [->%Ascii.eqb_eq ->%Ascii.eqb_eq].
  - apply andb_prop in Hshape as [->%Ascii.eqb_eq Hhex].
    simpl.
    destruct (url.unhex a) as [hi|]; [|done].
    destruct (url.unhex b) as [lo|]; [|done].
    by apply Ascii.eqb_eq in Hhex as ->.
Qed.

(** An escaped component is written with unreserved bytes, [%] and [+]. *)
Lemma QueryEscape_bytes (s : string) :
  all_bytes escaped_byte (url.QueryEscape s) = true.
Proof.
  unfold url.QueryEscape. induction s as [|c s IH]; [done|].
  by rewrite escape_cons, all_bytes_app, escaped_bytes, IH.
Qed.

Lemma escaped_query_byte (c : ascii) :
  escaped_byte c = true -> query_byte c = true.
Proof. intros Hc. unfold query_byte. by rewrite Hc. Qed.

(** [QueryUnescape] undoes [QueryEscape]: the component a server reads is
    the one that was written, whatever bytes it holds. *)
Theorem QueryEscape_unescape (s : string) :
  url.unescape (url.QueryEscape s) url.encodeQueryComponent = inl s.
Proof.
  unfold url.QueryEscape. induction s as [|c s IH]; [done|].
  by rewrite escape_cons, unescape_escaped, IH.
Qed.

Lemma Encode_query_bytes (v : Values.t) :
  all_bytes query_byte (Values.Encode v) = true.
Proof.
  unfold Values.Encode, Values.params. apply all_bytes_Join; [done|].
  apply Forall_forall. intros p Hp%list_elem_of_In.
  apply in_flat_map in Hp as [kv [_ Hp]].
  unfold Values.pairs in Hp. apply in_map_iff in Hp as [x [<- _]].
  rewrite !all_bytes_app. simpl.
  rewrite (all_bytes_weaken _ _ _ escaped_query_byte (QueryEscape_bytes kv.1)).
  by rewrite (all_bytes_weaken _ _ _ escaped_query_byte (QueryEscape_bytes x)).
Qed.

(** The encoding of query values is written with unreserved bytes, [%],
    [+], [&] and [=] only, whatever the keys and the values hold: no [#],
    no [?], no space, no control byte; and a key or a value by itself
    without [&] and [=]. *)
Theorem Encode_bytes (v : Values.t) :
  all_bytes query_byte (Values.Encode v) = true
  /\ Forall (fun kv : string * list string =>
              all_bytes escaped_byte (url.QueryEscape kv.1) = true
              /\ Forall (fun x => all_bytes escaped_byte (url.QueryEscape x) = true)
                   kv.2)
       (map_to_list v).
Proof.
  split; [apply Encode_query_bytes|].
  apply Forall_forall. intros kv _. split; [apply QueryEscape_bytes|].
  apply Forall_forall. intros x _. apply QueryEscape_bytes.
Qed.

End Escaping.

(* ===================================================================== *)
(** * Properties: the query of a request for one content *)
(* ===================================================================== *)

Section ContentQuery.
Context `{Library}.

Lemma key_le_trans : Transitive Values.key_le.
Proof. intros p q r. unfold Values.key_le. apply transitivity. Qed.

Lemma key_le_total : Total Values.key_le.
Proof. intros p q. unfold Values.key_le. apply total, _. Qed.

(** The values in the order of their keys: the one sorted list of them. *)
Lemma merge_sort_map_to_list (v : Values.t) (l : list (string * list string)) :
  map_to_list v ≡ₚ l -> Sorted Values.key_le l ->
  merge_sort Values.key_le (map_to_list v) = l.
Proof.
  intros Hperm Hsorted.
  apply (@Sorted_unique_strong _ Values.key_le key_le_trans).
  - intros [k1 x1] [k2 x2] H1 H2 Hle Hge.
    rewrite merge_sort_Permutation in H1. rewrite <- Hperm in H2.
    apply elem_of_map_to_list in H1, H2.
    assert (k1 = k2) as -> by (by apply (anti_symm String.le)).
    congruence.
  - apply (@Sorted_merge_sort _ _ _ key_le_total).
  - assumption.
  - by rewrite merge_sort_Permutation.
Qed.

Lemma Encode_sorted (v : Values.t) (l : list (string * list string)) :
  map_to_list v ≡ₚ l -> Sorted Values.key_le l ->
  Values.Encode v = strings.Join (flat_map Values.pairs l) "&".
Proof.
  intros Hperm Hsorted. unfold Values.Encode, Values.params.
  by rewrite (merge_sort_map_to_list v l).
Qed.

Lemma append_assoc (s1 s2 s3 : string) :
  (s1 +:+ s2) +:+ s3 = s1 +:+ s2 +:+ s3.
Proof.
  induction s1 as [|c s1 IH]; [done|].
  change (String c ((s1 +:+ s2) +:+ s3) = String c (s1 +:+ s2 +:+ s3)).
  by rewrite IH.
Qed.

Lemma Join_app (l1 l2 : list string) (sep : string) :
  l1 <> [] -> l2 <> [] ->
  strings.Join (l1 ++ l2) sep
  = strings.Join l1 sep +:+ sep +:+ strings.Join l2 sep.
Proof.
  intros H1 H2. induction l1 as [|a l1 IH]; [done|].
  destruct l1 as [|b l1].
  - simpl. by destruct l2.
  - change (strings.Join ((a :: b :: l1) ++ l2) sep)
      with (a +:+ sep +:+ strings.Join ((b :: l1) ++ l2) sep).
    rewrite IH by done.
    change (strings.Join (a :: b :: l1) sep)
      with (a +:+ sep +:+ strings.Join (b :: l1) sep).
    by rewrite !append_assoc.
Qed.

(** The values of the options of [Content]. *)
Lemma ContentOptions_values (o : ContentOptions.t) :
  query.reflectFields (ContentOptions_fields o) Values.empty
  = inl (<["publicId" := [ContentOptions.PublicID o]]>
           (if ContentOptions.LegacyMetadata o
            then <["legacyMetadata" := ["true"]]> ∅ else ∅)).
Proof.
  unfold ContentOptions_fields, query.reflectFields, query.reflectField.
  cbn [query.omitempty query.value query.name query.isEmptyValue andb].
  destruct (ContentOptions.LegacyMetadata o); cbn [negb].
  - unfold Values.Add, Values.empty.
    rewrite lookup_empty, lookup_insert_ne by done.
    by rewrite lookup_empty.
  - unfold Values.Add, Values.empty. by rewrite lookup_empty.
Qed.

Ltac absent := rewrite ?lookup_insert_ne by done; apply lookup_empty.

(** The encoding of these values, without and with a target date. *)
Lemma append_empty (s : string) : s +:+ "" = s.
Proof.
  induction s as [|c s IH]; [done|].
  change (String c (s +:+ "") = String c s). by rewrite IH.
Qed.

Lemma Encode_content (legacy : bool) (id : string) (date : option string) :
  Values.Encode
    (match date with
     | Some d => <["targetDate" := [d]]>
     | None => fun qs : Values.t => qs
     end (<["publicId" := [id]]>
            (if legacy then <["legacyMetadata" := ["true"]]> ∅ else ∅)))
  = (if legacy then "legacyMetadata=true&" else "")
    +:+ "publicId=" +:+ url.QueryEscape id
    +:+ match date with
        | Some d => "&targetDate=" +:+ url.QueryEscape d
        | None => ""
        end.
Proof.
  assert (url.QueryEscape "legacyMetadata" = "legacyMetadata") as Hl
    by (vm_compute; reflexivity).
  assert (url.QueryEscape "true" = "true") as Ht by (vm_compute; reflexivity).
  assert (url.QueryEscape "publicId" = "publicId") as Hp
    by (vm_compute; reflexivity).
  assert (url.QueryEscape "targetDate" = "targetDate") as Hd
    by (vm_compute; reflexivity).
  assert (forall a b : string * list string,
            String.leb a.1 b.1 = true -> Values.key_le a b) as Hle.
  { intros a b Hab. unfold Values.key_le, String.le. by rewrite Hab. }
  destruct legacy, date as [d|].
  - rewrite (Encode_sorted _ [("legacyMetadata", ["true"]); ("publicId", [id]);
                              ("targetDate", [d])]).
    + cbn [flat_map app Values.pairs map fst snd strings.Join].
      rewrite Hl, Ht, Hp, Hd. rewrite !append_assoc. reflexivity.
    + rewrite (insert_insert_ne _ "targetDate" "publicId") by done.
      rewrite (insert_insert_ne _ "targetDate" "legacyMetadata") by done.
      rewrite (insert_insert_ne _ "publicId" "legacyMetadata") by done.
      rewrite !map_to_list_insert, map_to_list_empty; [done|absent..].
    + repeat constructor; apply Hle; reflexivity.
  - rewrite (Encode_sorted _ [("legacyMetadata", ["true"]); ("publicId", [id])]).
    + cbn [flat_map app Values.pairs map fst snd strings.Join].
      rewrite Hl, Ht, Hp. rewrite !append_assoc, append_empty. reflexivity.
    + rewrite (insert_insert_ne _ "publicId" "legacyMetadata") by done.
      rewrite !map_to_list_insert, map_to_list_empty; [done|absent..].
    + repeat constructor; apply Hle; reflexivity.
  - rewrite (Encode_sorted _ [("publicId", [id]); ("targetDate", [d])]).
    + cbn [flat_map app Values.pairs map fst snd strings.Join].
      rewrite Hp, Hd. rewrite !append_assoc. reflexivity.
    + rewrite (insert_insert_ne _ "targetDate" "publicId") by done.
      rewrite !map_to_list_insert, map_to_list_empty; [done|absent..].
    + repeat constructor; apply Hle; reflexivity.
  - rewrite (Encode_sorted _ [("publicId", [id])]).
    + cbn [flat_map app Values.pairs map fst snd strings.Join].
      rewrite Hp, append_empty. reflexivity.
    + rewrite !map_to_list_insert, map_to_list_empty; [done|absent..].
    + repeat constructor; apply Hle; reflexivity.
Qed.


(** What [URL.String] writes with a query that is not empty. *)
Lemma String_with_query (q : string) (u : url.URL) :
  q <> "" ->
  url.String_ (url.set_RawQuery q u)
  = url.String_head u +:+ "?" +:+ q +:+ url.String_fragment u.
Proof.
  intros Hq. rewrite String_set_RawQuery.
  destruct (String.eqb_spec q "") as [|_]; [done|].
  cbn [negb]. by rewrite orb_true_r, append_assoc.
Qed.

Lemma content_query_nonempty (o : ContentOptions.t) (r : string) :
  content_query o +:+ r <> "".
Proof. unfold content_query. by destruct (ContentOptions.LegacyMetadata o). Qed.

(** The query of [Content], on both channels.  Whatever the options hold,
    the path is followed by [?], [legacyMetadata=true&] when that is set,
    and [publicId=] with the escaped identifier, also when the identifier
    is empty; the preview channel adds [&targetDate=] with the escaped
    date unless the date is zero.  A path that does not parse is returned
    with the error. *)
Theorem Content_query (path : string) (o : ContentOptions.t) (c : Client) :
  match url.Parse path with
  | inr err =>
      addOptions path (ContentOptions_ptr (Some o)) = (path, Some err)
      /\ addOptions path (urlParams (ContentOptions_fields o) (targetDate_of c))
         = (path, Some err)
  | inl u =>
      addOptions path (ContentOptions_ptr (Some o))
      = (url.String_head u +:+ "?" +:+ content_query o
         +:+ url.String_fragment u, None)
      /\ addOptions path (urlParams (ContentOptions_fields o) (targetDate_of c))
         = (url.String_head u +:+ "?" +:+ content_query o
            +:+ (if time.IsZero (TargetDate c) then ""
                 else "&targetDate="
                      +:+ url.QueryEscape (time.Format_RFC3339 (TargetDate c)))
            +:+ url.String_fragment u, None)
  end.
Proof.
  unfold addOptions.
  change (ContentOptions_ptr (Some o))
    with (query.Pointer (Some (map query.Named (ContentOptions_fields o)))).
  cbv iota beta.
  destruct (url.Parse path) as [u|err]; [|done].
  rewrite Values_pointer, (Values_urlParams _ _ (ContentOptions_leaves o)).
  rewrite ContentOptions_values. cbn [on_ok].
  assert (Values.Encode
            (<["publicId" := [ContentOptions.PublicID o]]>
               (if ContentOptions.LegacyMetadata o
                then <["legacyMetadata" := ["true"]]> ∅ else ∅))
          = content_query o) as Honline.
  { rewrite (Encode_content _ _ None). by rewrite append_empty. }
  split.
  - rewrite Honline, String_with_query; [done|].
    rewrite <- (append_empty (content_query o)).
    apply content_query_nonempty.
  - unfold targetDate_of.
    destruct (time.IsZero (TargetDate c)); cbn [negb].
    + cbn [String.eqb]. rewrite Honline, String_with_query.
      * reflexivity.
      * rewrite <- (append_empty (content_query o)).
        apply content_query_nonempty.
    + destruct (String.eqb_spec (time.Format_RFC3339 (TargetDate c)) "")
        as [Hempty|_]; [by apply Format_RFC3339_nonempty in Hempty|].
      rewrite (Encode_content _ _ (Some _)).
      change (?a +:+ "publicId=" +:+ ?e +:+ ?d)
        with (a +:+ "publicId=" +:+ e +:+ d).
      rewrite <- (append_assoc "publicId="), <- append_assoc.
      fold (content_query o). rewrite String_with_query.
      * by rewrite !append_assoc.
      * apply content_query_nonempty.
Qed.

End ContentQuery.

(* ===================================================================== *)
(** * Properties: the values of a search *)
(* ===================================================================== *)

Section SearchValues.
Context `{Library}.

Lemma reflectFields_app (fs1 fs2 : list query.field) (v : Values.t) :
  query.reflectFields (fs1 ++ fs2) v
  = match query.reflectFields fs1 v with
    | inl v1 => query.reflectFields fs2 v1
    | inr e => inr e
    end.
Proof.
  revert v. induction fs1 as [|f fs1 IH]; intros v; [done|].
  simpl. destruct (query.reflectField f v); [apply IH | done].
Qed.

(** The key [k] holds, in the end, what the one field that writes it left
    there, when the fields before and after that field leave [k] alone. *)
Lemma reflectFields_owner (k : string) (fs : list query.field) (i : nat)
    (f : query.field) (qs : Values.t) :
  fs !! i = Some f ->
  Forall (leaves k) (take i fs) ->
  Forall (leaves k) (drop (S i) fs) ->
  query.reflectFields fs Values.empty = inl qs ->
  exists v1 v2 : Values.t,
    v1 !! k = None /\ query.reflectField f v1 = inl v2 /\ qs !! k = v2 !! k.
Proof.
  intros Hi Hpre Hpost Hqs.
  rewrite <- (take_drop_middle fs i f Hi), reflectFields_app in Hqs.
  destruct (query.reflectFields (take i fs) Values.empty) as [v1|] eqn:H1;
    [|done].
  simpl in Hqs.
  destruct (query.reflectField f v1) as [v2|] eqn:H2; [|done].
  exists v1, v2. split; [|split; [done|]].
  - destruct (reflectFields_leaves k _ Hpre) as [_ Hlook].
    rewrite (Hlook _ _ H1). apply lookup_empty.
  - destruct (reflectFields_leaves k _ Hpost) as [_ Hlook].
    by apply Hlook.
Qed.

Lemma Add_all_own (name : string) (l : list string) :
  forall v : Values.t,
  foldl (fun vs x => Values.Add name x vs) v l !! name
  = match l with
    | [] => v !! name
    | _ => Some (default [] (v !! name) ++ l)
    end.
Proof.
  induction l as [|x l IH]; intros v; [done|].
  simpl. rewrite IH. unfold Values.Add. rewrite lookup_insert_eq. simpl.
  destruct l; [done|]. by rewrite <- app_assoc.
Qed.

(** A failure of the fields: the one field that can fail is the one of
    an encoder. *)
Lemma reflectFields_plain_ok (fs : list query.field) (v : Values.t) :
  Forall (fun f => match query.value f with
                   | query.VEncoder _ _ => False | _ => True end) fs ->
  exists v', query.reflectFields fs v = inl v'.
Proof.
  intros Hfs. revert v. induction Hfs as [|f fs Hf _ IH]; intros v; [by eexists|].
  simpl. unfold query.reflectField.
  destruct (query.omitempty f && query.isEmptyValue (query.value f)); [apply IH|].
  destruct (query.value f); try apply IH. done.
Qed.

Lemma own_int (name : string) (n : Z) (v1 v2 : Values.t) :
  v1 !! name = None ->
  query.reflectField {| query.name := name; query.omitempty := false;
                        query.value := query.VInt n |} v1 = inl v2 ->
  v2 !! name = Some [query.itoa n].
Proof.
  intros H1 [= <-]. unfold Values.Add.
  by rewrite H1, lookup_insert_eq.
Qed.

Lemma own_strings (name : string) (l : list string) (v1 v2 : Values.t) :
  v1 !! name = None ->
  query.reflectField {| query.name := name; query.omitempty := true;
                        query.value := query.VStrings l |} v1 = inl v2 ->
  v2 !! name = list_param l.
Proof.
  intros H1. unfold query.reflectField.
  cbn [query.name query.omitempty query.value query.isEmptyValue andb].
  destruct l as [|x l]; [by intros [= <-]|].
  cbn [length Nat.eqb]. intros Heq.
  assert (v2 = foldl (fun vs y => Values.Add name y vs) v1 (x :: l)) as ->
    by congruence.
  by rewrite Add_all_own, H1.
Qed.

Lemma own_bool (name : string) (b : bool) (v1 v2 : Values.t) :
  v1 !! name = None ->
  query.reflectField {| query.name := name; query.omitempty := true;
                        query.value := query.VBool b |} v1 = inl v2 ->
  v2 !! name = if b then Some ["true"] else None.
Proof.
  intros H1. unfold query.reflectField.
  cbn [query.name query.omitempty query.value query.isEmptyValue andb].
  destruct b; intros [= <-]; [|done].
  unfold Values.Add. by rewrite H1, lookup_insert_eq.
Qed.

Ltac leaves_all :=
  cbn [take drop SearchOptions_fields firstn skipn];
  repeat constructor;
  first [ by apply leaves_plain | by apply leaves_PropFilters
        | by apply leaves_Sorting ].

(** The values of the options of [Search].  [skip] and [take] are always
    sent, also when they are zero; a list is sent when it has an element,
    with its elements in order; [legacyMetadata] when it is set;
    [propFilters], as JSON, when the filters have an item; [sorting], as
    [serializeSorting] writes it, when the specification has an entry; and
    no other key.  The one failure is that of [json.Marshal] on filters
    with an item. *)
Theorem Search_values (o : SearchOptions.t) :
  match query.Values (SearchOptions_ptr (Some o)) with
  | inr err =>
      Items (SearchOptions.PropFilters o) <> []
      /\ json_Marshal_PropFilters (SearchOptions.PropFilters o) = inr err
  | inl qs =>
      qs !! "skip" = Some [query.itoa (SearchOptions.Skip o)]
      /\ qs !! "take" = Some [query.itoa (SearchOptions.Take o)]
      /\ qs !! "publicId" = list_param (SearchOptions.PublicID o)
      /\ qs !! "contentDefinition" = list_param (SearchOptions.ContentDefinition o)
      /\ qs !! "repositories" = list_param (SearchOptions.Repositories o)
      /\ qs !! "legacyMetadata"
         = (if SearchOptions.LegacyMetadata o then Some ["true"] else None)
      /\ qs !! "tags" = list_param (SearchOptions.Tags o)
      /\ qs !! "propFilters"
         = match Items (SearchOptions.PropFilters o),
                 json_Marshal_PropFilters (SearchOptions.PropFilters o) with
           | _ :: _, inl j => Some [j]
           | _, _ => None
           end
      /\ qs !! "sorting"
         = match SearchOptions.Sorting o with
           | [] => None
           | s => Some [serializeSorting s]
           end
      /\ (forall k : string, k ∉ search_keys -> qs !! k = None)
  end.
Proof.
  change (query.Values (SearchOptions_ptr (Some o)))
    with (query.Values (query.Pointer (Some (map query.Named (SearchOptions_fields o))))).
  rewrite Values_pointer.
  destruct (query.reflectFields (SearchOptions_fields o) Values.empty)
    as [qs|err] eqn:Hqs.
  - repeat split.
    10: {
      intros k Hk.
      assert (Forall (fun name => name <> k) search_keys) as Hkeys.
      { apply Forall_forall. intros name Hname ->. by apply Hk. }
      unfold search_keys in Hkeys.
      repeat (apply Forall_cons in Hkeys as [? Hkeys]).
      assert (Forall (leaves k) (SearchOptions_fields o)) as Hleaves.
      { repeat constructor;
          first [ by apply leaves_plain | by apply leaves_PropFilters
                | by apply leaves_Sorting ]. }
      destruct (reflectFields_leaves k _ Hleaves) as [_ Hlook].
      rewrite (Hlook _ _ Hqs). apply lookup_empty. }
    + destruct (reflectFields_owner "skip" (SearchOptions_fields o) 0 _ qs eq_refl)
        as (v1 & v2 & H1 & H2 & ->); [leaves_all..|done|].
      by apply (own_int _ _ v1).
    + destruct (reflectFields_owner "take" (SearchOptions_fields o) 1 _ qs eq_refl)
        as (v1 & v2 & H1 & H2 & ->); [leaves_all..|done|].
      by apply (own_int _ _ v1).
    + destruct (reflectFields_owner "publicId" (SearchOptions_fields o) 2 _ qs eq_refl)
        as (v1 & v2 & H1 & H2 & ->); [leaves_all..|done|].
      by apply (own_strings _ _ v1).
    + destruct (reflectFields_owner "contentDefinition" (SearchOptions_fields o) 3 _ qs eq_refl)
        as (v1 & v2 & H1 & H2 & ->); [leaves_all..|done|].
      by apply (own_strings _ _ v1).
    + destruct (reflectFields_owner "repositories" (SearchOptions_fields o) 4 _ qs eq_refl)
        as (v1 & v2 & H1 & H2 & ->); [leaves_all..|done|].
      by apply (own_strings _ _ v1).
    + destruct (reflectFields_owner "legacyMetadata" (SearchOptions_fields o) 5 _ qs eq_refl)
        as (v1 & v2 & H1 & H2 & ->); [leaves_all..|done|].
      by apply (own_bool _ _ v1).
    + destruct (reflectFields_owner "tags" (SearchOptions_fields o) 6 _ qs eq_refl)
        as (v1 & v2 & H1 & H2 & ->); [leaves_all..|done|].
      by apply (own_strings _ _ v1).
    + destruct (reflectFields_owner "propFilters" (SearchOptions_fields o) 7 _ qs eq_refl)
        as (v1 & v2 & H1 & H2 & ->); [leaves_all..|done|].
      unfold query.reflectField, PropFilters_EncodeValues in H2.
      cbn [query.name query.omitempty query.value query.isEmptyValue andb] in H2.
      destruct (Items (SearchOptions.PropFilters o)) as [|it its].
      { injection H2 as <-. done. }
      cbn [length Nat.eqb] in H2.
      destruct (json_Marshal_PropFilters _) as [j|e]; [|done].
      injection H2 as <-. unfold Values.Set_. by rewrite lookup_insert_eq.
    + destruct (reflectFields_owner "sorting" (SearchOptions_fields o) 8 _ qs eq_refl)
        as (v1 & v2 & H1 & H2 & ->); [leaves_all..|done|].
      unfold query.reflectField, Sorting_EncodeValues in H2.
      cbn [query.name query.omitempty query.value query.isEmptyValue] in H2.
      destruct (SearchOptions.Sorting o) as [|f s].
      { injection H2 as <-. done. }
      injection H2 as <-. unfold Values.Set_. by rewrite lookup_insert_eq.
  - change (SearchOptions_fields o)
      with (take 7 (SearchOptions_fields o) ++ drop 7 (SearchOptions_fields o))
      in Hqs.
    rewrite reflectFields_app in Hqs.
    destruct (reflectFields_plain_ok (take 7 (SearchOptions_fields o))
                Values.empty) as [v' Hv']; [by repeat constructor|].
    rewrite Hv' in Hqs.
    cbn [drop SearchOptions_fields query.reflectFields] in Hqs.
    unfold query.reflectField, PropFilters_EncodeValues, Sorting_EncodeValues
      in Hqs.
    cbn [query.name query.omitempty query.value query.isEmptyValue andb] in Hqs.
    destruct (Items (SearchOptions.PropFilters o)) as [|it its].
    { cbn [length Nat.eqb] in Hqs.
      by destruct (Nat.eqb (length (SearchOptions.Sorting o)) 0). }
    cbn [length Nat.eqb] in Hqs.
    destruct (json_Marshal_PropFilters _) as [j|e].
    { by destruct (Nat.eqb (length (SearchOptions.Sorting o)) 0). }
    by injection Hqs as ->.
Qed.
End SearchValues.

(* ===================================================================== *)
(** * Properties: requests ([newRequest], [get]) *)
(* ===================================================================== *)

Section Requests.
Context `{Library}.
Context {T : Type}.

Implicit Types (c : Client) (req : http.Request) (v : Target T).

(** A request [http.NewRequest] makes: the method, [GET] for none, no
    header, the body it was given, the background context. *)
Lemma NewRequest_request (method url_ : string) (body : option string) req :
  http.NewRequest method url_ body = inl req ->
  http.Method req = (if String.eqb method "" then "GET" else method)
  /\ http.Header_ req = ∅ /\ http.Body_ req = body
  /\ http.ctx req = Some http.Background.
Proof.
  unfold http.NewRequest.
  destruct (negb (http.validMethod _)); [done|].
  destruct (url.Parse url_) as [u|e]; [|done].
  cbn [bind]. by intros [= <-].
Qed.

(** A request [newRequest] makes without a body. *)
Lemma newRequest_plain c (method urlStr : string) req :
  newRequest c method urlStr nil_any = inl req ->
  http.Method req = (if String.eqb method "" then "GET" else method)
  /\ http.Header_ req = plain_headers /\ http.Body_ req = None
  /\ http.ctx req = Some http.Background.
Proof.
  unfold newRequest.
  destruct (url.URL_Parse (BaseURL c) urlStr) as [u|e]; [|done].
  cbn [bind].
  destruct (http.NewRequest method (url.String_ u) None) as [req0|e] eqn:Hreq;
    [|done].
  cbn [bind]. intros [= <-].
  apply NewRequest_request in Hreq as (Hm & Hh & Hb & Hc).
  unfold http.Header_Set. cbn [http.Method http.Header_ http.Body_ http.ctx].
  rewrite Hh. by repeat split.
Qed.

(** The events of [do]: none, or one round trip of the request under the
    context, followed by the closing of the body or not. *)
Lemma do_request_events c (ctx : option context.Context) req v :
  events (do c ctx req v) = []
  \/ exists cx, ctx = Some cx
      /\ (events (do c ctx req v) = [RoundTrip (http.WithContext cx req)]
          \/ events (do c ctx req v)
             = [RoundTrip (http.WithContext cx req); BodyClose]).
Proof.
  unfold do. destruct ctx as [cx|]; [|by left].
  right. exists cx. split; [done|].
  destruct (httpClient c (http.WithContext cx req)) as [res|e].
  - right. destruct (checkResponse res) as [res' [e|]]; [done|].
    destruct v as [|w|decode x]; [done..|].
    by destruct (Decoder_Decode decode (http.Body res') x).
  - left. by destruct (context.Done cx).
Qed.

(** The request of [newRequest]: the method, [GET] when none is given; the
    headers [Accept] and [User-Agent], and [Content-Type] exactly when
    there is a body; the body encoded as JSON; the background context. *)
Theorem newRequest_request c (method urlStr : string) (body : any) req :
  newRequest c method urlStr body = inl req ->
  http.Method req = (if String.eqb method "" then "GET" else method)
  /\ http.ctx req = Some http.Background
  /\ match body with
     | nil_any => http.Header_ req = plain_headers /\ http.Body_ req = None
     | _ =>
         http.Header_ req = <["Content-Type" := [mediaType]]> plain_headers
         /\ inl (http.Body_ req) = on_ok Some (json_Encode body)
     end.
Proof.
  destruct body as [|B b].
  { intros Hreq. apply newRequest_plain in Hreq as (? & ? & ? & ?).
    by repeat split. }
  unfold newRequest.
  destruct (url.URL_Parse (BaseURL c) urlStr) as [u|e]; [|done].
  cbn [bind].
  destruct (json_Encode (some_any b)) as [buf|e]; [|done].
  cbn [bind].
  destruct (http.NewRequest method (url.String_ u) (Some buf)) as [req0|e]
    eqn:Hreq; [|done].
  cbn [bind]. intros [= <-].
  apply NewRequest_request in Hreq as (Hm & Hh & Hb & Hc).
  unfold http.Header_Set. cbn [http.Method http.Header_ http.Body_ http.ctx].
  rewrite Hh, Hb. by repeat split.
Qed.

(** What [do] leaves behind: nothing without a context; with one, one
    round trip of the transport, for the request under that context, and
    the closing of the body exactly when the transport gave a response;
    the response is returned whenever there is one, also with an error. *)
Theorem do_events c (ctx : option context.Context) req v :
  events (do c ctx req v)
  = match ctx with
    | None => []
    | Some cx =>
        RoundTrip (http.WithContext cx req)
        :: match httpClient c (http.WithContext cx req) with
           | inl _ => [BodyClose]
           | inr _ => []
           end
    end
  /\ response (do c ctx req v)
     = match ctx with
       | None => None
       | Some cx =>
           match httpClient c (http.WithContext cx req) with
           | inl res => Some (checkResponse res).1
           | inr _ => None
           end
       end.
Proof.
  unfold do. destruct ctx as [cx|]; [|done].
  destruct (httpClient c (http.WithContext cx req)) as [res|e].
  - destruct (checkResponse res) as [res' [e|]]; [done|].
    destruct v as [|w|decode x]; [done..|].
    by destruct (Decoder_Decode decode (http.Body res') x).
  - by destruct (context.Done cx).
Qed.


(** On a response with a status in 200..299 and a body that is not empty,
    [do] decodes the body into a JSON target: the target holds what the
    decoder left, and the decoder's error is returned, with the response,
    unless it is [io.EOF], which is no error. *)
Theorem do_decodes c (cx : context.Context) req
    (decode : io.ReadCloser -> T -> T * option goerror) (x : T)
    (res : http.Response) :
  httpClient c (http.WithContext cx req) = inl res ->
  200 <= http.StatusCode res <= 299 ->
  io.content (http.Body res) <> "" ->
  do c (Some cx) req (JSONTarget decode x)
  = {| response := Some res;
       err := match (decode (http.Body res) x).2 with
              | Some io_EOF => None
              | Some e => Some (LibError e)
              | None => None
              end;
       target := JSONTarget decode (decode (http.Body res) x).1;
       events := [RoundTrip (http.WithContext cx req); BodyClose] |}.
Proof.
  intros Hres Hin Hbody. unfold do.
  rewrite Hres, (proj2 (checkResponse_success res) Hin).
  unfold Decoder_Decode.
  destruct (String.eqb_spec (io.content (http.Body res)) "") as [|_]; [done|].
  destruct (decode (http.Body res) x) as [x' [[]|]]; done.
Qed.

(** The requests of [get]: whatever the path and the options are, a
    request that reaches the transport is a [GET] without a body, under the
    caller's context, with the access key, [Accept] and [User-Agent] as its
    only headers; and it is the only one. *)
Theorem get_request c (ctx : option context.Context) (path apiKey : string)
    (opts : query.options) v req :
  RoundTrip req ∈ (get c ctx path apiKey opts v).2 ->
  http.Method req = "GET"
  /\ http.Header_ req = get_headers apiKey
  /\ http.Body_ req = None
  /\ http.ctx req = ctx
  /\ filter (fun ev => is_RoundTrip ev = true) (get c ctx path apiKey opts v).2
     = [RoundTrip req].
Proof.
  unfold get.
  destruct (addOptions path opts) as [p [e|]]; [by intros ?%elem_of_nil|].
  destruct (newRequest c "GET" p nil_any) as [req0|e] eqn:Hreq;
    [|by intros ?%elem_of_nil].
  apply newRequest_plain in Hreq as (Hm & Hh & Hb & _).
  cbn [snd].
  destruct (do_request_events c ctx
              (http.Header_Set "X-SPACE-D-API-Key" apiKey req0) v)
    as [-> | (cx & -> & [-> | ->])].
  - by intros ?%elem_of_nil.
  - intros [= ->]%list_elem_of_singleton.
    unfold http.Header_Set, http.WithContext.
    cbn [http.Method http.Header_ http.Body_ http.ctx].
    by rewrite Hm, Hh, Hb.
  - intros [[= ->] | Hin%list_elem_of_singleton]%elem_of_cons; [|done].
    unfold http.Header_Set, http.WithContext.
    cbn [http.Method http.Header_ http.Body_ http.ctx].
    by rewrite Hm, Hh, Hb.
Qed.

(** When [get] does not reach the transport: exactly when the options or
    the path fail in [addOptions], the request cannot be made, or there is
    no context.  The error is the first of these, in this order, and the
    target is as it was. *)
Theorem get_fails_early c (ctx : option context.Context) (path apiKey : string)
    (opts : query.options) v :
  match addOptions path opts with
  | (_, Some err) => get c ctx path apiKey opts v = (Some (LibError err), v, [])
  | (p, None) =>
      match newRequest c "GET" p nil_any, ctx with
      | inr err, _ => get c ctx path apiKey opts v = (Some (LibError err), v, [])
      | inl _, None =>
          get c ctx path apiKey opts v
          = (Some (LibError (errors_New "context must be non-nil")), v, [])
      | inl _, Some _ => (get c ctx path apiKey opts v).2 <> []
      end
  end.
Proof.
  unfold get.
  destruct (addOptions path opts) as [p [e|]]; [done|].
  destruct (newRequest c "GET" p nil_any) as [req0|e]; [|done].
  destruct ctx as [cx|]; [|done].
  cbn [snd].
  destruct (do_request_events c (Some cx)
              (http.Header_Set "X-SPACE-D-API-Key" apiKey req0) v)
    as [Hnone | (cx' & _ & [-> | ->])]; [|done..].
  exfalso. clear -Hnone. unfold do in Hnone.
  destruct (httpClient c _) as [res|e].
  - destruct (checkResponse res) as [res' [e|]]; [done|].
    destruct v as [|w|decode x]; [done..|].
    by destruct (Decoder_Decode decode (http.Body res') x).
  - by destruct (context.Done cx).
Qed.

(** What [get] leaves in a JSON target.  When the options encode, the
    request is made, the transport answers it with a status in 200..299
    and a body that is not empty, [get] returns the decoder's error
    ([io.EOF] is none), the target holds what the decoder left, and the
    body was closed after the one round trip.  On every other path the
    target holds what it held: a target that differs was decoded so. *)
Theorem get_target (c : Client) (ctx : option context.Context)
    (path apiKey : string) (opts : query.options)
    (decode : io.ReadCloser -> T -> T * option goerror) (x : T) :
  let out := get c ctx path apiKey opts (JSONTarget decode x) in
  let decoded (cx : context.Context) (req : http.Request) (res : http.Response) :=
    ctx = Some cx
    /\ (exists p req0,
          addOptions path opts = (p, None)
          /\ newRequest c "GET" p nil_any = inl req0
          /\ req = http.WithContext cx
                     (http.Header_Set "X-SPACE-D-API-Key" apiKey req0))
    /\ httpClient c req = inl res
    /\ 200 <= http.StatusCode res <= 299
    /\ io.content (http.Body res) <> "" in
  (forall cx req res,
     decoded cx req res ->
     out = (match (decode (http.Body res) x).2 with
            | Some io_EOF | None => None
            | Some e => Some (LibError e)
            end,
            JSONTarget decode (decode (http.Body res) x).1,
            [RoundTrip req; BodyClose]))
  /\ (out.1.2 <> JSONTarget decode x -> exists cx req res, decoded cx req res).
Proof.
  cbv zeta. split.
  - intros cx req res (-> & (p & req0 & Hadd & Hreq & ->) & Hres & Hin & Hbody).
    unfold get. rewrite Hadd, Hreq. unfold do.
    rewrite Hres, (proj2 (checkResponse_success res) Hin).
    unfold Decoder_Decode.
    destruct (String.eqb_spec (io.content (http.Body res)) "") as [|_]; [done|].
    by destruct (decode (http.Body res) x) as [x' [[]|]].
  - intros Hne. unfold get in Hne.
    destruct (addOptions path opts) as [p [e|]] eqn:Hadd; [by destruct Hne|].
    destruct (newRequest c "GET" p nil_any) as [req0|e] eqn:Hreq;
      [|by destruct Hne].
    cbn [fst snd] in Hne. unfold do in Hne.
    destruct ctx as [cx|]; [|by destruct Hne].
    set (req := http.WithContext cx
                  (http.Header_Set "X-SPACE-D-API-Key" apiKey req0)) in *.
    destruct (httpClient c req) as [res|e] eqn:Hres.
    2: { destruct (context.Done cx); by destruct Hne. }
    destruct (checkResponse_success res) as [Hiff Hok].
    destruct (checkResponse res) as [res' [e|]] eqn:Hcheck; [by destruct Hne|].
    assert (200 <= http.StatusCode res <= 299) as Hin by (by apply Hiff).
    injection (Hok Hin) as ->.
    unfold Decoder_Decode in Hne.
    destruct (String.eqb_spec (io.content (http.Body res)) "") as [|Hbody];
      [by destruct Hne|].
    exists cx, req, res.
    split; [done|]. split; [by exists p, req0|]. done.
Qed.

End Requests.

(* ===================================================================== *)
(** * Properties: the response of an error ([checkResponse], [Error]) *)
(* ===================================================================== *)

Section ErrorResponse.
Context `{Library}.

(** A member that is not a value for [Response] leaves the response alone;
    [null] for [Response] makes the field nil. *)
Lemma decode_member_Response (st : ustate) (kv : string * json.value) :
  response_value kv = false ->
  cell (decode_member st kv) = cell st
  /\ Response_ (into (decode_member st kv))
     = if response_member kv then RefNil else Response_ (into st).
Proof.
  unfold response_value, response_member, decode_member.
  destruct (field_of_key kv.1) as [[]|]; [| |done].
  - by destruct kv.2.
  - by destruct kv.2.
Qed.

Lemma decode_members_Response (members : list (string * json.value)) :
  forall st : ustate,
  forallb (fun kv => negb (response_value kv)) members = true ->
  cell (foldl decode_member st members) = cell st
  /\ Response_ (into (foldl decode_member st members))
     = if existsb response_member members then RefNil
       else Response_ (into st).
Proof.
  induction members as [|kv members IH]; intros st Hall; [done|].
  simpl in Hall. apply andb_prop in Hall as [Hkv%negb_true_iff Hrest].
  destruct (decode_member_Response st kv Hkv) as [Hcell Href].
  simpl. destruct (IH (decode_member st kv) Hrest) as [-> ->].
  split; [done|]. rewrite Href.
  by destruct (response_member kv), (existsb response_member members).
Qed.

(** What [checkResponse] returns for a body without a value for
    [Response]: the response as it was, and an error that refers to it, or
    to nothing when a member gave [null] for [Response]. *)
Lemma checkResponse_Response (r : http.Response) :
  forallb (fun kv => negb (response_value kv)) (body_members (http.Body r))
    = true ->
  (checkResponse r).1 = r
  /\ forall e, (checkResponse r).2 = Some e ->
     Response_ e
     = if existsb response_member (body_members (http.Body r)) then RefNil
       else RefArg.
Proof.
  unfold checkResponse, body_members, io.ReadAll. cbv zeta.
  destruct ((200 <=? http.StatusCode r) && (http.StatusCode r <=? 299)).
  { intros _. split; [done|]. by intros e [=]. }
  destruct (io.readErr (http.Body r)) as [rerr|].
  { intros _. split; [done|]. by intros e [= <-]. }
  destruct (Nat.ltb 0 (String.length (io.content (http.Body r)))) eqn:Hlen.
  2: { destruct (io.content (http.Body r)); [|done].
       intros _. split; [done|]. by intros e [= <-]. }
  unfold Unmarshal.
  destruct (json.Parse (io.content (http.Body r))) as [[| | | | |members]|];
    try (intros _; split; [done|]; by intros e [= <-]).
  intros Hall.
  destruct (decode_members_Response members
              {| cell := r;
                 into := {| Response_ := RefArg; Message := ""; X := None |};
                 saved := None |} Hall) as [Hcell Href].
  destruct (saved _); (split; [exact Hcell|]); by intros e [= <-].
Qed.

(** Unless the body is a JSON object with a member under the key of
    [Response], in whichever case of letters, [checkResponse] leaves the
    response it was given as it was, and its error refers to that
    response. *)
Theorem checkResponse_keeps_response (r : http.Response) :
  existsb response_member (body_members (http.Body r)) = false ->
  (checkResponse r).1 = r
  /\ forall e, (checkResponse r).2 = Some e -> Response_ e = RefArg.
Proof.
  intros Hnone.
  assert (forallb (fun kv => negb (response_value kv))
            (body_members (http.Body r)) = true) as Hall.
  { apply forallb_forall. intros kv Hkv. unfold response_value.
    assert (response_member kv = false) as ->; [|done].
    destruct (response_member kv) eqn:Hm; [|done].
    assert (existsb response_member (body_members (http.Body r)) = true)
      as Hex by (apply existsb_exists; eauto).
    congruence. }
  destruct (checkResponse_Response r Hall) as [Hcell Href].
  split; [exact Hcell|]. intros e He. by rewrite (Href e He), Hnone.
Qed.

(** The text of the error of a response with a status outside 200..299:
    the method and the URL of the request, the status code and the
    message, when the body has no member under the key of [Response]; and
    no text but a panic, when the body is a JSON object whose members
    under that key, one at least, are all [null]: the decoder has made the
    field nil. *)
Theorem errorResponse_Error_text (r : http.Response) :
  http.StatusCode r < 200 \/ 299 < http.StatusCode r ->
  exists r' e,
    checkResponse r = (r', Some e)
    /\ (existsb response_member (body_members (http.Body r)) = false ->
        errorResponse_Error r' e
        = Some (http.Method (http.Request_ r) +:+ " "
                +:+ url.String_ (http.URL (http.Request_ r)) +:+ ": "
                +:+ fmt_d (http.StatusCode r) +:+ " " +:+ Message e))
    /\ (existsb response_member (body_members (http.Body r)) = true ->
        existsb response_value (body_members (http.Body r)) = false ->
        errorResponse_Error r' e = None).
Proof.
  intros Hstatus.
  destruct (checkResponse r) as [r' [e|]] eqn:Hcheck.
  2: { exfalso. revert Hcheck. unfold checkResponse. cbv zeta.
       rewrite (non_2xx _ Hstatus). unfold io.ReadAll.
       destruct (io.readErr _); [done|].
       destruct (Nat.ltb _ _); [|done]. by destruct (saved _). }
  exists r', e. split; [done|].
  assert (forall b, existsb response_value (body_members (http.Body r)) = false ->
          existsb response_member (body_members (http.Body r)) = b ->
          r' = r /\ Response_ e = if b then RefNil else RefArg) as Hcases.
  { intros b Hvalues Hb.
    assert (forallb (fun kv => negb (response_value kv))
              (body_members (http.Body r)) = true) as Hall.
    { apply forallb_forall. intros kv Hkv.
      destruct (response_value kv) eqn:Hv; [|done].
      assert (existsb response_value (body_members (http.Body r)) = true)
        as Hex by (apply existsb_exists; eauto).
      congruence. }
    destruct (checkResponse_Response r Hall) as [Hcell Href].
    rewrite Hcheck in Hcell, Href. split; [exact Hcell|].
    by rewrite (Href e eq_refl), Hb. }
  split.
  - intros Hnone.
    destruct (Hcases false) as [-> Href]; [|done|].
    { destruct (existsb response_value _) eqn:Hv; [|done].
      apply existsb_exists in Hv as (kv & Hkv & Hv).
      unfold response_value in Hv. apply andb_prop in Hv as [Hm _].
      assert (existsb response_member (body_members (http.Body r)) = true)
        as Hex by (apply existsb_exists; eauto).
      congruence. }
    unfold errorResponse_Error. by rewrite Href.
  - intros Hsome Hvalues.
    destruct (Hcases true Hvalues Hsome) as [_ Href].
    unfold errorResponse_Error. by rewrite Href.
Qed.

End ErrorResponse.

(* ===================================================================== *)
(** * Properties: the base URL and the paths of the channels *)
(* ===================================================================== *)

Section BaseURL.
Context `{Library}.

Lemma rooted_inv (s : string) :
  rooted s = true ->
  exists a rest, s = String "/" (String a rest) /\ url.is_alpha a = true.
Proof.
  destruct s as [|c [|a rest]]; [done..|].
  simpl. intros [->%Ascii.eqb_eq Ha]%andb_prop. eauto.
Qed.

Lemma rooted_app (s r : string) : rooted s = true -> rooted (s +:+ r) = true.
Proof. intros (a & rest & -> & Ha)%rooted_inv. simpl. by rewrite Ha. Qed.

(** A letter is none of the separators. *)
Lemma alpha_plain (a : ascii) :
  url.is_alpha a = true ->
  Ascii.eqb a "#" = false /\ Ascii.eqb a "?" = false /\ Ascii.eqb a "/" = false
  /\ Ascii.eqb a "%" = false /\ Ascii.eqb a ":" = false
  /\ Ascii.eqb a "*" = false
  /\ url.shouldEscape a url.encodePath = false
  /\ ((N_of_ascii a <? 32)%N || (N_of_ascii a =? 127)%N) = false.
Proof.
  destruct a as [[] [] [] [] [] [] [] []]; vm_compute; try discriminate;
    intros _; repeat split.
Qed.

(** What is cut off a rooted text at a separator other than the slash is
    rooted. *)
Lemma Cut_rooted (s before after : string) (sep : ascii) :
  rooted s = true ->
  Ascii.eqb sep "/" = false -> url.is_alpha sep = false ->
  strings.Cut s (String sep "") = Some (before, after) ->
  rooted before = true.
Proof.
  intros (a & rest & -> & Ha)%rooted_inv Hslash Hsep.
  assert (Ascii.eqb sep a = false) as Hne.
  { destruct (Ascii.eqb_spec sep a) as [->|]; [congruence|done]. }
  simpl. rewrite Hslash, Hne.
  destruct (strings.Cut rest (String sep "")) as [[b r]|]; [|done].
  intros [= <- <-]. simpl. by rewrite Ha.
Qed.

Lemma unescape_plain (c : ascii) (rest : string) :
  Ascii.eqb c "%" = false ->
  url.unescape (String c rest) url.encodePath
  = match url.unescape rest url.encodePath with
    | inl r => inl (String c r)
    | inr e => inr e
    end.
Proof. intros Hc. simpl. by rewrite Hc. Qed.

Lemma escape_plain (c : ascii) (rest : string) :
  url.shouldEscape c url.encodePath = false ->
  url.escape (String c rest) url.encodePath
  = String c (url.escape rest url.encodePath).
Proof. intros Hc. simpl. by rewrite Hc. Qed.

Lemma setPath_rooted (u u' : url.URL) (p : string) :
  rooted p = true ->
  url.Scheme u = "" -> url.Opaque u = "" -> url.User u = None ->
  url.Host u = "" ->
  url.setPath u p = inl u' -> rooted_url u'.
Proof.
  intros (a & rest & -> & Ha)%rooted_inv Hs Ho Hu Hh.
  destruct (alpha_plain a Ha) as (_ & _ & _ & Hpct & _ & Hstar & Hesc & _).
  unfold url.setPath.
  rewrite (unescape_plain "/") by done. rewrite (unescape_plain a) by done.
  destruct (url.unescape rest url.encodePath) as [r|e]; [|done].
  cbn [bind].
  set (raw := if String.eqb _ _ then "" else _).
  assert (raw = "" \/ rooted raw = true) as Hraw.
  { subst raw. destruct (String.eqb _ _); [by left|right].
    simpl. by rewrite Ha. }
  clearbody raw. intros [= <-].
  assert (rooted (url.escape (String "/" (String a r)) url.encodePath) = true)
    as Hescaped.
  { rewrite (escape_plain "/") by done. rewrite (escape_plain a) by done.
    simpl. by rewrite Ha. }
  unfold rooted_url. cbn [url.Scheme url.Opaque url.User url.Host url.Path].
  repeat split; try done.
  unfold url.EscapedPath. cbn [url.RawPath url.Path].
  destruct Hraw as [->|Hraw]; [exact Hescaped|].
  destruct (_ && _ && _); [exact Hraw | exact Hescaped].
Qed.

(** [parse] on a rooted text. *)
Lemma parse_rooted (s : string) (u : url.URL) :
  rooted s = true -> url.parse s = inl u -> rooted_url u.
Proof.
  intros Hs. pose proof Hs as (a & rest & -> & Ha)%rooted_inv.
  destruct (alpha_plain a Ha) as (Hhash & Hq & Hslash & Hpct & Hcolon & Hstar & Hesc & Hctl).
  unfold url.parse.
  destruct (url.stringContainsCTLByte _); [done|].
  change (String.eqb (String "/" (String a rest)) "*") with false.
  cbv iota.
  assert (url.getscheme (String "/" (String a rest))
          = inl ("", String "/" (String a rest))) as -> by done.
  cbn [bind strings.ToLower].
  set (split := if _ && _ then _ else _).
  assert (rooted split.1.1 = true) as Hsplit.
  { subst split. destruct (_ && _) eqn:Hcond.
    - cbn [fst]. destruct rest as [|b rest'].
      { exfalso. apply andb_prop in Hcond as [Hsuffix _].
        unfold strings.HasSuffix, strings.HasPrefix in Hsuffix.
        cbn -[Ascii.eqb] in Hsuffix.
        by rewrite Ascii.eqb_sym, Hq in Hsuffix. }
      simpl. by rewrite Ha.
    - destruct (strings.Cut _ "?") as [[before after]|] eqn:Hcut; [|done].
      by apply (Cut_rooted _ _ _ _ Hs) in Hcut. }
  destruct split as [[rest0 force] query]. cbn [fst] in Hsplit.
  apply rooted_inv in Hsplit as (b & rest1 & -> & Hb).
  destruct (alpha_plain b Hb) as (_ & _ & Hbslash & _).
  assert (strings.HasPrefix (String "/" (String b rest1)) "/" = true) as ->
    by done.
  assert (strings.HasPrefix (String "/" (String b rest1)) "//" = false) as ->.
  { unfold strings.HasPrefix. cbn -[Ascii.eqb].
    by rewrite (Ascii.eqb_sym "/" b), Hbslash. }
  cbn [negb andb]. intros Hset.
  apply (setPath_rooted _ _ (String "/" (String b rest1))) in Hset; try done.
Qed.

(** [url.Parse] on a rooted text. *)
Lemma Parse_rooted (s : string) (u : url.URL) :
  rooted s = true -> url.Parse s = inl u -> rooted_url u.
Proof.
  intros Hs. unfold url.Parse.
  set (cut := match strings.Cut s "#" with Some _ => _ | None => _ end).
  assert (rooted cut.1 = true) as Hcut.
  { subst cut. destruct (strings.Cut s "#") as [[before after]|] eqn:Hcut;
      [|done].
    by apply (Cut_rooted _ _ _ _ Hs) in Hcut. }
  destruct cut as [s' frag]. cbn [fst] in Hcut.
  destruct (url.parse s') as [u'|e] eqn:Hparse; [|done].
  apply (parse_rooted _ _ Hcut) in Hparse.
  destruct (String.eqb frag ""); [by intros [= <-]|].
  destruct (url.unescape frag url.encodeFragment) as [f|e]; [|done].
  intros [= <-]. exact Hparse.
Qed.

(** What [URL.String] writes for such a URL is rooted, whatever the
    query. *)
Lemma String_rooted (u : url.URL) (q : string) :
  rooted_url u -> rooted (url.String_ (url.set_RawQuery q u)) = true.
Proof.
  intros (Hs & Ho & Hu & Hh & Hp & _).
  rewrite String_set_RawQuery. apply rooted_app.
  unfold url.String_head. rewrite Hs, Ho, Hu, Hh.
  rewrite (bool_decide_eq_false_2 (None ≠ None)) by (by intros ?).
  rewrite andb_false_r.
  cbn [String.eqb negb orb andb String.append].
  destruct (strings.Cut (url.EscapedPath u) ":") as [[before after]|] eqn:Hcut;
    [|exact Hp].
  apply (Cut_rooted _ _ _ _ Hp) in Hcut; [|done..].
  apply rooted_inv in Hcut as (a & rest & -> & _).
  exact Hp.
Qed.

Lemma resolvePath_rooted (base ref : string) :
  rooted ref = true -> url.resolvePath base ref = url.resolvePath "" ref.
Proof. intros (a & rest & -> & _)%rooted_inv. reflexivity. Qed.

(** A rooted reference is resolved against the origin of the base. *)
Lemma ResolveReference_rooted (base ref : url.URL) :
  rooted_url ref ->
  url.ResolveReference base ref = url.ResolveReference (origin base) ref.
Proof.
  intros (Hs & Ho & Hu & Hh & Hp & Hpath).
  unfold url.ResolveReference. rewrite Hs, Ho, Hu, Hh.
  rewrite (bool_decide_eq_false_2 (None ≠ None)) by (by intros ?).
  cbn [String.eqb negb orb origin url.Scheme url.User url.Host].
  destruct (String.eqb_spec (url.Path ref) "") as [|_]; [done|].
  cbn [andb].
  by rewrite (resolvePath_rooted (url.EscapedPath base)).
Qed.

Lemma URL_Parse_rooted (base : url.URL) (s : string) :
  rooted s = true ->
  url.URL_Parse base s = url.URL_Parse (origin base) s.
Proof.
  intros Hs. unfold url.URL_Parse.
  destruct (url.Parse s) as [ref|e] eqn:Hparse; [|done].
  cbn [bind]. f_equal. apply ResolveReference_rooted.
  by apply (Parse_rooted s).
Qed.

Lemma newRequest_rooted_eq (c : Client) (method urlStr : string) (body : any) :
  rooted urlStr = true ->
  newRequest c method urlStr body = newRequest (at_origin c) method urlStr body.
Proof.
  intros Hs. unfold newRequest. cbn [at_origin BaseURL].
  by rewrite (URL_Parse_rooted (BaseURL c)).
Qed.

Lemma addOptions_rooted (path : string) (opts : query.options) :
  rooted path = true -> rooted (addOptions path opts).1 = true.
Proof.
  intros Hs. unfold addOptions.
  assert (rooted
            match url.Parse path with
            | inl u =>
                match query.Values opts with
                | inl qs => (url.String_ (url.set_RawQuery (Values.Encode qs) u), None)
                | inr err => (path, Some err)
                end
            | inr err => (path, Some err)
            end.1 = true) as Hgen.
  { destruct (url.Parse path) as [u|e] eqn:Hparse; [|done].
    destruct (query.Values opts); [|done].
    apply String_rooted. by apply (Parse_rooted path). }
  destruct opts as [|[fs|]| |k]; done.
Qed.

Lemma get_rooted {T : Type} (c : Client) (ctx : option context.Context)
    (path apiKey : string) (opts : query.options) (v : Target T) :
  rooted path = true ->
  get c ctx path apiKey opts v = get (at_origin c) ctx path apiKey opts v.
Proof.
  intros Hs. unfold get.
  pose proof (addOptions_rooted path opts Hs) as Hp.
  destruct (addOptions path opts) as [p [e|]]; [done|].
  cbn [fst] in Hp.
  rewrite (newRequest_rooted_eq c "GET" p nil_any Hp).
  reflexivity.
Qed.

(** For a reference that begins with a slash and a letter, [newRequest]
    uses the scheme and the authority of the base URL and nothing else of
    it: the path, the query and the fragment of the base URL are not part
    of the request. *)
Theorem newRequest_at_origin (c : Client) (method urlStr : string) (body : any) :
  rooted urlStr = true ->
  newRequest c method urlStr body = newRequest (at_origin c) method urlStr body.
Proof. apply newRequest_rooted_eq. Qed.

(** The requests of the channels do not depend on the path of the base
    URL: every call of [Content] and [Search], on both channels, does and
    returns the same with the client's base URL cut down to its scheme and
    authority.  A base URL with a path, such as one that ends in [/v1/],
    is therefore used without it. *)
Theorem channels_at_origin (c : Client) (name apiKey state : string)
    (ctx : option context.Context) :
  (forall config,
     OnlineChannel_Content
       {| oc_client := c; oc_name := name; oc_apiKey := apiKey |} ctx config
     = OnlineChannel_Content
         {| oc_client := at_origin c; oc_name := name; oc_apiKey := apiKey |}
         ctx config)
  /\ (forall config,
     OnlineChannel_Search
       {| oc_client := c; oc_name := name; oc_apiKey := apiKey |} ctx config
     = OnlineChannel_Search
         {| oc_client := at_origin c; oc_name := name; oc_apiKey := apiKey |}
         ctx config)
  /\ (forall config,
     PreviewChannel_Content
       {| pc_client := c; pc_name := name; pc_apiKey := apiKey;
          pc_state := state |} ctx config
     = PreviewChannel_Content
         {| pc_client := at_origin c; pc_name := name; pc_apiKey := apiKey;
            pc_state := state |} ctx config)
  /\ (forall config,
     PreviewChannel_Search
       {| pc_client := c; pc_name := name; pc_apiKey := apiKey;
          pc_state := state |} ctx config
     = PreviewChannel_Search
         {| pc_client := at_origin c; pc_name := name; pc_apiKey := apiKey;
            pc_state := state |} ctx config).
Proof.
  repeat split; intros config.
  - unfold OnlineChannel_Content. cbn [oc_client oc_name oc_apiKey].
    by rewrite get_rooted.
  - unfold OnlineChannel_Search. cbn [oc_client oc_name oc_apiKey].
    by rewrite get_rooted.
  - unfold PreviewChannel_Content. cbn [pc_client pc_name pc_apiKey pc_state].
    destruct config as [config|]; [|done].
    by rewrite get_rooted.
  - unfold PreviewChannel_Search. cbn [pc_client pc_name pc_apiKey pc_state].
    destruct config as [config|]; [|done].
    by rewrite get_rooted.
Qed.

End BaseURL.

(* ===================================================================== *)
(** * Properties: composition, key matching, options that are no struct *)
(* ===================================================================== *)

Section More.
Context `{Library}.

(** [serializeSorting] returns the join, by commas, of one slot per entry,
    in the order of the entries: the empty string for an entry whose name,
    as given, is empty, and for any other entry the sign and the trimmed
    name. *)
Theorem serializeSorting_one_slot_per_entry (s : Sorting) :
  serializeSorting s = strings.Join (map slot s) ",".
Proof. exact (serializeSorting_slots s). Qed.

(** The specification of two lists of entries, one after the other, is
    written as the two specifications with a comma between them. *)
Theorem serializeSorting_app (s1 s2 : Sorting) :
  s1 <> [] -> s2 <> [] ->
  serializeSorting (s1 ++ s2)
  = serializeSorting s1 +:+ "," +:+ serializeSorting s2.
Proof.
  intros H1 H2. rewrite !serializeSorting_slots, map_app.
  apply Join_app; by destruct s1, s2.
Qed.

(** [checkResponse] returns no error exactly for the status codes 200 to
    299, and then returns the response as it was given, whatever its body
    holds. *)
Theorem checkResponse_accepts_2xx (res : http.Response) :
  ((checkResponse res).2 = None <-> 200 <= http.StatusCode res <= 299)
  /\ (200 <= http.StatusCode res <= 299 -> checkResponse res = (res, None)).
Proof. exact (checkResponse_success res). Qed.

(** A byte whose lower case is a given letter is that letter or its upper
    case. *)
Lemma lower_cases (c l : ascii) :
  strings.lower c = l ->
  url.is_alpha l = true ->
  c = l \/ c = http.upper l.
Proof.
  intros <-. destruct c as [[] [] [] [] [] [] [] []]; vm_compute;
    first [ by left | by right | discriminate ].
Qed.

Ltac letter_cases H :=
  apply lower_cases in H; [destruct H as [-> | ->] | reflexivity].

(** A key is that of the message whatever the case of its letters. *)
Lemma message_key (k : string) :
  strings.ToLower k = "message" -> field_of_key k = Some FMessage.
Proof.
  destruct k as [|c1 [|c2 [|c3 [|c4 [|c5 [|c6 [|c7 [|? ?]]]]]]]]; try done.
  intros [= H1 H2 H3 H4 H5 H6 H7].
  letter_cases H1; letter_cases H2; letter_cases H3; letter_cases H4;
    letter_cases H5; letter_cases H6; letter_cases H7;
    vm_compute; reflexivity.
Qed.

(** The message of an error is read from the member of the body whose key
    is [message] in whichever case of letters: for a response with a
    status outside 200..299 whose body is a JSON object with that one
    member, a string, the message is that string. *)
Theorem checkResponse_message_any_case (r : http.Response) (k m : string) :
  http.StatusCode r < 200 \/ 299 < http.StatusCode r ->
  io.readErr (http.Body r) = None ->
  json.Parse (io.content (http.Body r)) = Some (json.Object [(k, json.Str m)]) ->
  strings.ToLower k = "message" ->
  (checkResponse r).1 = r
  /\ (checkResponse r).2
     = Some {| Response_ := RefArg; Message := m; X := None |}.
Proof.
  intros Hstatus Hread Hparse Hk. apply message_key in Hk.
  unfold checkResponse. cbv zeta.
  rewrite (non_2xx _ Hstatus). unfold io.ReadAll. rewrite Hread.
  destruct (io.content (http.Body r)) as [|c body] eqn:Hbody; [done|].
  cbn [String.length Nat.ltb Nat.leb].
  unfold Unmarshal. rewrite Hparse. cbn [foldl].
  unfold decode_member. cbn [fst snd]. rewrite Hk.
  done.
Qed.

(** Options that are no struct.  An untyped nil is no nil pointer: the
    path is parsed and written again without its query; a value of any
    other kind is the error of [query.Values], which names the kind, with
    the path as it was.  A path that does not parse is the error in both
    cases. *)
Theorem addOptions_without_struct (path : string) (k : reflect.Kind) :
  match url.Parse path with
  | inl u =>
      addOptions path query.NilInterface
      = (url.String_head u +:+ (if url.ForceQuery u then "?" else "")
         +:+ url.String_fragment u, None)
      /\ addOptions path (query.NotAStruct k)
         = (path, Some (errors_New ("query: Values() expects struct input. Got "
                                    +:+ reflect.Kind_String k)))
  | inr err =>
      addOptions path query.NilInterface = (path, Some err)
      /\ addOptions path (query.NotAStruct k) = (path, Some err)
  end.
Proof.
  unfold addOptions. destruct (url.Parse path) as [u|err]; [|done].
  split; [|done]. cbn [query.Values].
  assert (Values.Encode Values.empty = "") as -> by (vm_compute; reflexivity).
  rewrite String_set_RawQuery. cbn [String.eqb negb].
  by rewrite orb_false_r.
Qed.

(** When [addOptions] fails it returns the path it was given; the options
    are then no nil pointer, and the error is that of parsing the path or,
    for a path that parses, that of encoding the options. *)
Theorem addOptions_failure (path : string) (opts : query.options)
    (err : goerror) :
  (addOptions path opts).2 = Some err ->
  (addOptions path opts).1 = path
  /\ opts <> query.Pointer None
  /\ (url.Parse path = inr err
      \/ (exists u, url.Parse path = inl u) /\ query.Values opts = inr err).
Proof.
  unfold addOptions.
  assert (forall (r : string * option goerror),
            r = match url.Parse path with
                | inl u =>
                    match query.Values opts with
                    | inl qs =>
                        (url.String_ (url.set_RawQuery (Values.Encode qs) u), None)
                    | inr e => (path, Some e)
                    end
                | inr e => (path, Some e)
                end ->
            r.2 = Some err ->
            r.1 = path
            /\ (url.Parse path = inr err
                \/ (exists u, url.Parse path = inl u)
                   /\ query.Values opts = inr err)) as Hgen.
  { intros r ->. destruct (url.Parse path) as [u|e].
    - destruct (query.Values opts) as [qs|e]; [done|].
      intros [= ->]. split; [done|]. right. eauto.
    - intros [= ->]. split; [done|]. by left. }
  destruct opts as [|[fs|]| |k]; try done;
    intros Herr; destruct (Hgen _ eq_refl Herr) as [? ?]; by repeat split.
Qed.

End More.

(* ===================================================================== *)
(** * Properties: the URL of a request, for plain identifiers *)
(* ===================================================================== *)

Section RequestURL.
Context `{Library}.

(** What the bytes of a path and of a query are not. *)
Lemma path_safe_plain (c : ascii) :
  path_safe c = true ->
  Ascii.eqb "#" c = false /\ Ascii.eqb "?" c = false
  /\ Ascii.eqb c "%" = false
  /\ url.shouldEscape c url.encodePath = false
  /\ ((N_of_ascii c <? 32)%N || (N_of_ascii c =? 127)%N) = false.
Proof.
  destruct c as [[] [] [] [] [] [] [] []]; vm_compute; try discriminate;
    intros _; repeat split.
Qed.

Lemma query_byte_plain (c : ascii) :
  query_byte c = true ->
  Ascii.eqb "#" c = false /\ Ascii.eqb "?" c = false
  /\ ((N_of_ascii c <? 32)%N || (N_of_ascii c =? 127)%N) = false.
Proof.
  destruct c as [[] [] [] [] [] [] [] []]; vm_compute; try discriminate;
    intros _; repeat split.
Qed.

(** A separator that is none of the bytes of a text does not cut it. *)
Lemma Cut_none (s : string) (sep : ascii) :
  all_bytes (fun c => negb (Ascii.eqb sep c)) s = true ->
  strings.Cut s (String sep "") = None.
Proof.
  induction s as [|c s IH]; [done|].
  cbn -[Ascii.eqb]. intros [Hc%negb_true_iff Hs]%andb_prop.
  by rewrite Hc, IH.
Qed.

(** It cuts a text at its first occurrence. *)
Lemma Cut_first (s r : string) (sep : ascii) :
  all_bytes (fun c => negb (Ascii.eqb sep c)) s = true ->
  strings.Cut (s +:+ String sep r) (String sep "") = Some (s, r).
Proof.
  induction s as [|c s IH].
  - intros _. change ("" +:+ String sep r) with (String sep r).
    cbn -[Ascii.eqb]. by rewrite Ascii.eqb_refl.
  - change (String c s +:+ String sep r) with (String c (s +:+ String sep r)).
    cbn -[Ascii.eqb]. intros [Hc%negb_true_iff Hs]%andb_prop.
    by rewrite Hc, IH.
Qed.

Lemma CountByte_none (s : string) (sep : ascii) :
  all_bytes (fun c => negb (Ascii.eqb sep c)) s = true ->
  strings.CountByte s sep = O.
Proof.
  induction s as [|c s IH]; [done|].
  cbn -[Ascii.eqb]. intros [Hc%negb_true_iff Hs]%andb_prop.
  by rewrite Ascii.eqb_sym, Hc, IH.
Qed.

Lemma no_CTL (p : ascii -> bool) (s : string) :
  (forall c, p c = true ->
     ((N_of_ascii c <? 32)%N || (N_of_ascii c =? 127)%N) = false) ->
  all_bytes p s = true -> url.stringContainsCTLByte s = false.
Proof.
  intros Hp. induction s as [|c s IH]; [done|].
  cbn -[N.ltb N.eqb N_of_ascii]. intros [Hc Hs]%andb_prop.
  rewrite (Hp c Hc). by apply IH.
Qed.

Lemma unescape_safe (s : string) :
  all_bytes path_safe s = true -> url.unescape s url.encodePath = inl s.
Proof.
  induction s as [|c s IH]; [done|].
  cbn [all_bytes]. intros [Hc Hs]%andb_prop.
  destruct (path_safe_plain c Hc) as (_ & _ & Hpct & _).
  by rewrite unescape_plain, IH.
Qed.

Lemma escape_safe (s : string) :
  all_bytes path_safe s = true -> url.escape s url.encodePath = s.
Proof.
  induction s as [|c s IH]; [done|].
  cbn [all_bytes]. intros [Hc Hs]%andb_prop.
  destruct (path_safe_plain c Hc) as (_ & _ & _ & Hesc & _).
  by rewrite escape_plain, IH.
Qed.


Lemma rev_app_app (s q acc : string) :
  String.rev_app (s +:+ q) acc = String.rev_app q (String.rev_app s acc).
Proof.
  revert acc. induction s as [|c s IH]; intros acc; [done|].
  change (String c s +:+ q) with (String c (s +:+ q)). simpl. apply IH.
Qed.

Lemma rev_app_head (P : ascii -> bool) (q : string) :
  q <> "" -> all_bytes P q = true ->
  forall acc, exists c r, String.rev_app q acc = String c r /\ P c = true.
Proof.
  induction q as [|c q IH]; [done|].
  intros _ [Hc Hq]%andb_prop acc. simpl.
  destruct q as [|d q]; [by exists c, acc|].
  by apply IH.
Qed.

(** A text does not end with a separator that is none of the bytes of
    its end. *)
Lemma HasSuffix_last (s q : string) (sep : ascii) :
  q <> "" -> all_bytes (fun c => negb (Ascii.eqb sep c)) q = true ->
  strings.HasSuffix (s +:+ q) (String sep "") = false.
Proof.
  intros Hq Hsep. unfold strings.HasSuffix, String.rev.
  rewrite rev_app_app.
  destruct (rev_app_head _ q Hq Hsep (String.rev_app s "")) as (c & r & -> & Hc).
  apply negb_true_iff in Hc.
  unfold strings.HasPrefix. cbn -[Ascii.eqb]. by rewrite Hc.
Qed.

(** [url.Parse] on a rooted path of plain bytes, followed by a query of
    the bytes of an encoding, if any. *)
Lemma Parse_path_query (p q : string) :
  rooted p = true -> all_bytes path_safe p = true ->
  all_bytes query_byte q = true ->
  url.Parse (p +:+ (if String.eqb q "" then "" else "?" +:+ q))
  = inl (path_url p q).
Proof.
  intros Hrooted Hp Hq.
  set (text := p +:+ (if String.eqb q "" then "" else "?" +:+ q)).
  assert (all_bytes (fun c => negb (Ascii.eqb "#" c)) text = true) as Hhash.
  { subst text. rewrite all_bytes_app. apply andb_true_intro. split.
    - apply (all_bytes_weaken path_safe); [|done].
      intros c Hc. by destruct (path_safe_plain c Hc) as (-> & _).
    - destruct (String.eqb q ""); [done|].
      cbn [all_bytes]. apply andb_true_intro. split; [done|].
      apply (all_bytes_weaken query_byte); [|done].
      intros c Hc. by destruct (query_byte_plain c Hc) as (-> & _). }
  assert (url.stringContainsCTLByte text = false) as Hctl.
  { subst text.
    apply (no_CTL (fun c => path_safe c || query_byte c || Ascii.eqb c "?")).
    - intros c [[Hc|Hc]%orb_prop|Hc%Ascii.eqb_eq]%orb_prop.
      + by destruct (path_safe_plain c Hc) as (_ & _ & _ & _ & ->).
      + by destruct (query_byte_plain c Hc) as (_ & _ & ->).
      + by subst c.
    - rewrite all_bytes_app. apply andb_true_intro. split.
      + apply (all_bytes_weaken path_safe); [|done]. by intros c ->.
      + destruct (String.eqb q ""); [done|].
        cbn [all_bytes]. apply andb_true_intro. split; [done|].
        apply (all_bytes_weaken query_byte); [|done].
        intros c ->. by rewrite orb_true_r. }
  assert (exists a rest, text = String "/" (String a rest)
                         /\ url.is_alpha a = true) as (a & rest & Htext & Ha).
  { apply rooted_inv. subst text. by apply rooted_app. }
  unfold url.Parse. rewrite (Cut_none text "#" Hhash).
  unfold url.parse. rewrite Hctl.
  assert (String.eqb text "*" = false) as -> by (by rewrite Htext).
  assert (url.getscheme text = inl ("", text)) as ->.
  { rewrite Htext. done. }
  cbn [bind strings.ToLower].
  assert ((if strings.HasSuffix text "?"
              && Nat.eqb (strings.CountByte text "?") 1
           then (String.substring 0 (String.length text - 1) text, true, "")
           else match strings.Cut text "?" with
                | Some (before, after) => (before, false, after)
                | None => (text, false, "")
                end) = (p, false, q)) as ->.
  { assert (all_bytes (fun c => negb (Ascii.eqb "?" c)) p = true) as Hpq.
    { apply (all_bytes_weaken path_safe); [|done].
      intros c Hc. by destruct (path_safe_plain c Hc) as (_ & -> & _). }
    subst text. destruct (String.eqb_spec q "") as [->|Hne].
    - rewrite append_empty, (CountByte_none p "?" Hpq), andb_false_r.
      by rewrite (Cut_none p "?" Hpq).
    - assert (all_bytes (fun c => negb (Ascii.eqb "?" c)) q = true) as Hqq.
      { apply (all_bytes_weaken query_byte); [|done].
        intros c Hc. by destruct (query_byte_plain c Hc) as (_ & -> & _). }
      rewrite <- (append_assoc p "?" q).
      rewrite (HasSuffix_last (p +:+ "?") q "?" Hne Hqq).
      rewrite (append_assoc p "?" q).
      change ("?" +:+ q) with (String "?" q).
      by rewrite (Cut_first p q "?" Hpq). }
  assert (strings.HasPrefix p "/" = true /\ strings.HasPrefix p "//" = false)
    as [-> ->].
  { apply rooted_inv in Hrooted as (b & rest' & -> & Hb).
    destruct (alpha_plain b Hb) as (_ & _ & Hslash & _).
    split; [done|]. unfold strings.HasPrefix. cbn -[Ascii.eqb].
    by rewrite (Ascii.eqb_sym "/" b), Hslash. }
  cbn [negb andb]. unfold url.setPath.
  rewrite (unescape_safe _ Hp). cbn [bind].
  rewrite (escape_safe _ Hp), String.eqb_refl.
  cbn [url.Scheme url.Opaque url.User url.Host url.ForceQuery url.RawQuery url.Fragment].
  by rewrite String.eqb_refl.
Qed.

(** What [URL.String] writes for the URL of a rooted path of plain bytes
    and a query. *)
Lemma String_path_url (p q : string) :
  rooted p = true -> all_bytes path_safe p = true ->
  url.String_ (path_url p q)
  = p +:+ (if String.eqb q "" then "" else "?" +:+ q).
Proof.
  intros Hrooted Hp.
  assert (url.EscapedPath (path_url p q) = p) as Hescaped.
  { unfold url.EscapedPath, path_url. cbn [url.RawPath url.Path andb negb String.eqb].
    rewrite (escape_safe _ Hp).
    apply rooted_inv in Hrooted as (b & rest' & -> & Hb). done. }
  unfold url.String_, url.String_head, url.String_query, url.String_fragment.
  rewrite Hescaped.
  cbn [path_url url.Scheme url.Opaque url.User url.Host url.Path
       url.ForceQuery url.RawQuery url.Fragment String.eqb negb orb andb].
  rewrite (bool_decide_eq_false_2 (None ≠ None)) by (by intros ?).
  rewrite andb_false_r.
  change ("" +:+ ?x) with x.
  assert (match strings.Cut p ":" with
          | Some (before, _) => negb (strings.Contains before "/")
          | None => false
          end = false) as Hdot.
  { destruct (strings.Cut p ":") as [[before after]|] eqn:Hcut; [|done].
    apply (Cut_rooted _ _ _ _ Hrooted) in Hcut; [|done..].
    by apply rooted_inv in Hcut as (a & rest & -> & _). }
  rewrite Hdot, andb_false_r.
  change (("" +:+ "") +:+ "" +:+ p) with p.
  rewrite append_empty. by destruct (String.eqb q "").
Qed.

Lemma unreserved_plain (c : ascii) :
  unreserved c = true -> path_safe c = true /\ Ascii.eqb c "/" = false.
Proof.
  destruct c as [[] [] [] [] [] [] [] []]; vm_compute; try discriminate;
    intros _; by split.
Qed.

Lemma SplitByte_cons (s r : string) :
  all_bytes unreserved s = true ->
  strings.SplitByte (s +:+ String "/" r) "/" = s :: strings.SplitByte r "/".
Proof.
  induction s as [|c s IH].
  - intros _. change ("" +:+ String "/" r) with (String "/" r). done.
  - change (String c s +:+ String "/" r) with (String c (s +:+ String "/" r)).
    cbn -[Ascii.eqb]. intros [Hc Hs]%andb_prop.
    destruct (unreserved_plain c Hc) as [_ ->]. by rewrite IH.
Qed.

Lemma SplitByte_one (s : string) :
  all_bytes unreserved s = true -> strings.SplitByte s "/" = [s].
Proof.
  induction s as [|c s IH]; [done|].
  cbn -[Ascii.eqb]. intros [Hc Hs]%andb_prop.
  destruct (unreserved_plain c Hc) as [_ ->]. by rewrite IH.
Qed.

Lemma SplitByte_Join (segs : list string) :
  segs <> [] ->
  Forall (fun s => all_bytes unreserved s = true) segs ->
  strings.SplitByte (strings.Join segs "/") "/" = segs.
Proof.
  intros Hne Hsegs. induction Hsegs as [|s segs Hs Hrest IH]; [done|].
  destruct segs as [|s' segs]; [by apply SplitByte_one|].
  change (strings.Join (s :: s' :: segs) "/")
    with (s +:+ String "/" (strings.Join (s' :: segs) "/")).
  rewrite SplitByte_cons by done. by rewrite IH.
Qed.

Lemma resolve_steps (l acc : list string) :
  Forall (fun s => String.eqb s "." = false /\ String.eqb s ".." = false) l ->
  foldl url.resolve_step acc l = acc ++ l.
Proof.
  intros Hl. revert acc. induction Hl as [|s l [H1 H2] _ IH]; intros acc.
  - by rewrite app_nil_r.
  - simpl. unfold url.resolve_step at 2. rewrite H1, H2, IH.
    by rewrite <- app_assoc.
Qed.

Lemma segment_inv (s : string) :
  segment s = true ->
  all_bytes unreserved s = true
  /\ String.eqb s "." = false /\ String.eqb s ".." = false.
Proof.
  unfold segment.
  intros [[? ?%negb_true_iff]%andb_prop ?%negb_true_iff]%andb_prop. done.
Qed.

Lemma path_of_safe (segs : list string) :
  Forall (fun s => segment s = true) segs ->
  all_bytes path_safe (path_of segs) = true.
Proof.
  intros Hsegs. unfold path_of.
  change ("/" +:+ ?x) with (String "/" x). cbn [all_bytes].
  apply andb_true_intro. split; [done|].
  apply all_bytes_Join; [done|].
  eapply Forall_impl; [exact Hsegs|]. intros s [Hs _]%segment_inv.
  apply (all_bytes_weaken unreserved); [|done].
  intros c Hc. by apply unreserved_plain.
Qed.

(** Resolving a path of plain segments gives the path. *)
Lemma resolvePath_segments (base : string) (segs : list string) :
  segs <> [] -> Forall (fun s => segment s = true) segs ->
  url.resolvePath base (path_of segs) = path_of segs.
Proof.
  intros Hne Hsegs.
  assert (Forall (fun s => String.eqb s "." = false /\ String.eqb s ".." = false)
            ("" :: segs)) as Hdots.
  { constructor; [done|]. eapply Forall_impl; [exact Hsegs|].
    intros s (_ & ? & ?)%segment_inv. done. }
  assert (strings.SplitByte (path_of segs) "/" = "" :: segs) as Hsplit.
  { unfold path_of. change ("/" +:+ ?x) with (String "/" x).
    cbn [strings.SplitByte Ascii.eqb Bool.eqb]. f_equal.
    apply SplitByte_Join; [done|].
    eapply Forall_impl; [exact Hsegs|]. by intros s (? & _)%segment_inv. }
  unfold url.resolvePath. cbv zeta.
  assert ((if String.eqb (path_of segs) "" then base
           else if strings.HasPrefix (path_of segs) "/" then path_of segs
           else match strings.CutLast base "/" with
                | Some (dir, _) => dir +:+ "/" +:+ path_of segs
                | None => path_of segs
                end) = path_of segs) as -> by done.
  assert (String.eqb (path_of segs) "" = false) as -> by done.
  rewrite Hsplit, (resolve_steps _ [] Hdots). cbn [app].
  assert (match last ("" :: segs) with
          | Some elem =>
              if String.eqb elem "." || String.eqb elem ".."
              then "" :: segs ++ [""] else "" :: segs
          | None => "" :: segs
          end = "" :: segs) as ->.
  { destruct (last ("" :: segs)) as [elem|] eqn:Hlast; [|done].
    apply last_Some_elem_of in Hlast.
    rewrite Forall_forall in Hdots. by destruct (Hdots elem Hlast) as [-> ->]. }
  unfold path_of. destruct segs as [|s segs]; [done|]. reflexivity.
Qed.

Lemma path_of_rooted (first : string) (segs : list string) (a : ascii) (rest : string) :
  first = String a rest -> url.is_alpha a = true ->
  rooted (path_of (first :: segs)) = true.
Proof.
  intros -> Ha. unfold path_of. destruct segs; simpl; by rewrite Ha.
Qed.


Lemma EscapedPath_path_url (p q : string) :
  rooted p = true -> all_bytes path_safe p = true ->
  url.EscapedPath (path_url p q) = p.
Proof.
  intros Hrooted Hp.
  unfold url.EscapedPath, path_url. cbn [url.RawPath url.Path andb negb String.eqb].
  rewrite (escape_safe _ Hp).
  by apply rooted_inv in Hrooted as (b & rest' & -> & Hb).
Qed.

(** A path of plain segments, the first of which begins with a letter, and
    options that encode: the text of [addOptions] and the URL it resolves
    to. *)
Lemma requested_path (c : Client) (opts : query.options) (qs : Values.t)
    (first : string) (segs : list string) (a : ascii) (rest : string) :
  first = String a rest -> url.is_alpha a = true ->
  Forall (fun s => segment s = true) (first :: segs) ->
  opts <> query.Pointer None -> query.Values opts = inl qs ->
  requested c opts qs (path_of (first :: segs)).
Proof.
  intros Hfirst Ha Hsegs Hopts Hqs.
  pose proof (path_of_rooted first segs a rest Hfirst Ha) as Hrooted.
  pose proof (path_of_safe _ Hsegs) as Hsafe.
  set (p := path_of (first :: segs)) in *.
  assert (url.Parse p = inl (path_url p "")) as Hparse.
  { rewrite <- (append_empty p) at 1.
    by apply (Parse_path_query p ""). }
  split.
  - unfold addOptions. rewrite Hparse, Hqs.
    change (url.set_RawQuery (Values.Encode qs) (path_url p ""))
      with (path_url p (Values.Encode qs)).
    rewrite (String_path_url p _ Hrooted Hsafe).
    by destruct opts as [|[fs|]| |k].
  - unfold url.URL_Parse, query_part.
    rewrite (Parse_path_query p (Values.Encode qs) Hrooted Hsafe
               (Encode_query_bytes qs)).
    cbn [bind]. f_equal. unfold url.ResolveReference.
    rewrite (EscapedPath_path_url p _ Hrooted Hsafe).
    cbn [path_url url.Scheme url.Opaque url.User url.Host url.Path url.RawPath
         url.ForceQuery url.RawQuery url.Fragment String.eqb negb orb].
    rewrite (bool_decide_eq_false_2 (None ≠ None)) by (by intros ?).
    assert (String.eqb p "" = false) as ->.
    { by apply rooted_inv in Hrooted as (b & rest' & -> & _). }
    cbn [andb]. subst p.
    rewrite resolvePath_segments by done.
    unfold url.setPath_, url.setPath.
    rewrite (unescape_safe _ Hsafe). cbn [bind].
    by rewrite (escape_safe _ Hsafe), String.eqb_refl.
Qed.

(** The URLs of the channels.  For a space identifier, a channel name and
    a state written with letters, digits and [-_.~] (and that are not [.]
    or [..]), and options, not a nil pointer, that encode: on each of the
    four paths of the channels [addOptions] returns the path followed by
    [?] and the encoding (by nothing when the encoding is empty), and
    [newRequest] resolves it to the URL with the scheme and the authority
    of the base URL, that path and that query. *)
Theorem channel_urls (c : Client) (name state : string) (opts : query.options)
    (qs : Values.t) :
  segment (SpaceID c) = true -> segment name = true -> segment state = true ->
  opts <> query.Pointer None -> query.Values opts = inl qs ->
  Forall (requested c opts qs)
    [ getOnlineEndpoint (SpaceID c) "content" name;
      getOnlineEndpoint (SpaceID c) "search/v2" name;
      getPreviewEndpoint (SpaceID c) "content" name state;
      getPreviewEndpoint (SpaceID c) "search/v2" name state ].
Proof.
  intros Hspace Hname Hstate Hopts Hqs.
  repeat first [apply List.Forall_cons | apply List.Forall_nil].
  - change (getOnlineEndpoint (SpaceID c) "content" name)
      with (path_of ["space"; SpaceID c; "online"; "content"; name]).
    apply (requested_path c opts qs "space" _ "s" "pace"); try done.
    by repeat constructor.
  - change (getOnlineEndpoint (SpaceID c) "search/v2" name)
      with (path_of ["space"; SpaceID c; "online"; "search"; "v2"; name]).
    apply (requested_path c opts qs "space" _ "s" "pace"); try done.
    by repeat constructor.
  - change (getPreviewEndpoint (SpaceID c) "content" name state)
      with (path_of ["space"; SpaceID c; "preview"; state; "content"; name]).
    apply (requested_path c opts qs "space" _ "s" "pace"); try done.
    by repeat constructor.
  - change (getPreviewEndpoint (SpaceID c) "search/v2" name state)
      with (path_of ["space"; SpaceID c; "preview"; state; "search"; "v2"; name]).
    apply (requested_path c opts qs "space" _ "s" "pace"); try done.
    by repeat constructor.
Qed.

End RequestURL.

(* ===================================================================== *)
(** * Properties: trimmed names *)
(* ===================================================================== *)

Section Trimmed.

Lemma rev_app_append (s acc : string) :
  String.rev_app s acc = String.rev s +:+ acc.
Proof.
  unfold String.rev. revert acc. induction s as [|c s IH]; intros acc; [done|].
  simpl. rewrite (IH (String c acc)), (IH (String c "")).
  by rewrite append_assoc.
Qed.

Lemma rev_append (a b : string) :
  String.rev (a +:+ b) = String.rev b +:+ String.rev a.
Proof.
  unfold String.rev. rewrite rev_app_app, (rev_app_append b).
  reflexivity.
Qed.

Lemma rev_involutive (s : string) : String.rev (String.rev s) = s.
Proof.
  induction s as [|c s IH]; [done|].
  change (String.rev (String c s)) with (String.rev_app s (String c "")).
  rewrite rev_app_append, rev_append, IH. done.
Qed.

Lemma strip_prefix_Some (p s r : string) :
  Bytes.strip_prefix p s = Some r <-> s = p +:+ r.
Proof.
  revert s. induction p as [|a p IH]; intros s.
  - simpl. split; [by intros [= ->] | by intros ->].
  - destruct s as [|b s]; [done|]. cbn -[Ascii.eqb].
    change (String a p +:+ r) with (String a (p +:+ r)).
    destruct (Ascii.eqb_spec a b) as [->|Hne].
    + rewrite IH. split; [by intros -> | by intros [= ->]].
    + split; [done | by intros [= ? ?]].
Qed.

Lemma strip_any_Some (ps : list string) (s r : string) :
  Bytes.strip_any ps s = Some r -> exists p, p ∈ ps /\ s = p +:+ r.
Proof.
  induction ps as [|p ps IH]; [done|]. simpl.
  destruct (Bytes.strip_prefix p s) as [r'|] eqn:Hp.
  - intros [= ->]. exists p. split; [by left|]. by apply strip_prefix_Some.
  - intros (p' & Hin & ->)%IH. exists p'. split; [by right | done].
Qed.

Lemma strip_any_None (ps : list string) (p s r : string) :
  p ∈ ps -> s = p +:+ r -> Bytes.strip_any ps s <> None.
Proof.
  intros Hin ->. induction Hin as [p ps|p p' ps Hin IH]; simpl.
  - by rewrite (proj2 (strip_prefix_Some p (p +:+ r) r) eq_refl).
  - by destruct (Bytes.strip_prefix p' (p +:+ r)).
Qed.

Lemma strip_leading_suffix (fuel : nat) (ps : list string) (s : string) :
  exists pre, s = pre +:+ Bytes.strip_leading fuel ps s.
Proof.
  revert s. induction fuel as [|fuel IH]; intros s; [by exists ""|].
  simpl. destruct (Bytes.strip_any ps s) as [r|] eqn:Hs; [|by exists ""].
  apply strip_any_Some in Hs as (p & _ & ->).
  destruct (IH r) as [pre Hpre]. exists (p +:+ pre).
  by rewrite append_assoc, <- Hpre.
Qed.

Lemma strip_leading_id (fuel : nat) (ps : list string) (s : string) :
  Bytes.strip_any ps s = None -> Bytes.strip_leading fuel ps s = s.
Proof. intros Hs. destruct fuel; [done|]. simpl. by rewrite Hs. Qed.

(** What [TrimSpace] returns neither begins nor ends with white space,
    and trimming it again changes nothing. *)
Lemma TrimSpace_trimmed (s : string) :
  Bytes.strip_any unicode.space_encodings (strings.TrimSpace s) = None
  /\ Bytes.strip_any (map String.rev unicode.space_encodings)
       (String.rev (strings.TrimSpace s)) = None
  /\ strings.TrimSpace (strings.TrimSpace s) = strings.TrimSpace s.
Proof.
  assert (Bytes.strip_any (map String.rev unicode.space_encodings)
            (String.rev (strings.TrimSpace s)) = None) as Hright.
  { unfold strings.TrimSpace, strings.TrimRightSpace.
    rewrite rev_involutive. apply TrimRightSpace_done. }
  assert (Bytes.strip_any unicode.space_encodings (strings.TrimSpace s) = None)
    as Hleft.
  { destruct (Bytes.strip_any _ (strings.TrimSpace s)) as [r|] eqn:Hs; [|done].
    exfalso. apply strip_any_Some in Hs as (e & He & Hs).
    unfold strings.TrimSpace, strings.TrimRightSpace in Hs.
    set (t := strings.TrimLeftSpace s) in *.
    destruct (strip_leading_suffix (String.length t)
                (map String.rev unicode.space_encodings) (String.rev t))
      as [pre Hpre].
    apply (f_equal String.rev) in Hpre.
    rewrite rev_involutive, rev_append, Hs, append_assoc in Hpre.
    by apply (strip_any_None _ _ _ _ He Hpre), TrimLeftSpace_done. }
  split; [exact Hleft|]. split; [exact Hright|].
  unfold strings.TrimSpace at 1. unfold strings.TrimLeftSpace.
  rewrite (strip_leading_id _ _ _ Hleft).
  unfold strings.TrimRightSpace.
  rewrite (strip_leading_id _ _ _ Hright). apply rev_involutive.
Qed.


(** Trimming the names beforehand changes nothing: on a sort specification
    none of whose names is empty after trimming, [serializeSorting]
    returns the same for the entries as given and for the entries with
    their names trimmed. *)
Theorem serializeSorting_trims (s : Sorting) :
  forallb named_entry s = true ->
  serializeSorting (map trimmed s) = serializeSorting s.
Proof.
  intros Hall. rewrite !serializeSorting_slots. f_equal.
  induction s as [|f s IH]; [done|].
  simpl in Hall. apply andb_prop in Hall as [Hf Hs].
  cbn [map]. rewrite (IH Hs). f_equal.
  rewrite (slot_named f Hf). unfold slot, token, trimmed.
  cbn [FieldName Ascending].
  destruct (TrimSpace_trimmed (FieldName f)) as (_ & _ & ->).
  unfold named_entry in Hf. apply negb_true_iff in Hf.
  by destruct (strings.TrimSpace (FieldName f)).
Qed.

End Trimmed.

(* ===================================================================== *)
(** * Properties: the requests of the channels *)
(* ===================================================================== *)

Section ChannelRequests.
Context `{Library}.





















(** C9.  With a nil pointer as options, of whichever type, [addOptions]
    succeeds and returns the path it was given.  With an untyped nil, which
    is no pointer, it parses the path: the error comes back with the path;
    otherwise the URL is written again with an empty query, and that is the
    path it was given when the path is one of plain bytes from the root. *)
Theorem addOptions_nil_reference (path : string) :
  addOptions path (query.Pointer None) = (path, None)
  /\ addOptions path (ContentOptions_ptr None) = (path, None)
  /\ addOptions path (SearchOptions_ptr None) = (path, None)
  /\ match url.Parse path with
     | inl u =>
         addOptions path query.NilInterface
         = (url.String_head u +:+ (if url.ForceQuery u then "?" else "")
            +:+ url.String_fragment u, None)
     | inr err => addOptions path query.NilInterface = (path, Some err)
     end
  /\ (rooted path = true -> all_bytes path_safe path = true ->
      addOptions path query.NilInterface = (path, None)).
Proof.
  assert (Values.Encode Values.empty = "") as Hempty by (vm_compute; reflexivity).
  do 3 (split; [reflexivity|]). split.
  - unfold addOptions. destruct (url.Parse path) as [u|err]; [|done].
    cbn [query.Values]. rewrite Hempty, String_set_RawQuery.
    cbn [String.eqb negb]. by rewrite orb_false_r.
  - intros Hrooted Hsafe.
    pose proof (Parse_path_query path "" Hrooted Hsafe eq_refl) as Hparse.
    cbn [String.eqb] in Hparse. rewrite append_empty in Hparse.
    unfold addOptions. rewrite Hparse. cbn [query.Values]. rewrite Hempty.
    change (url.set_RawQuery "" (path_url path "")) with (path_url path "").
    rewrite (String_path_url path "" Hrooted Hsafe).
    cbn [String.eqb]. by rewrite append_empty.
Qed.

End ChannelRequests.

(* ===================================================================== *)
(** * Examples for the properties above *)
(* ===================================================================== *)

Section MoreExamples.
#[local] Existing Instance example_library.

(** The request of [TestDo], [newRequest(http.MethodGet, "/", nil)], on a
    client with an empty base URL. *)
Lemma newRequest_request_witness :
  exists req,
    newRequest (server_client (test_response 200 "")) "GET" "/" nil_any = inl req
    /\ http.Method req = "GET"
    /\ http.ctx req = Some http.Background
    /\ http.Header_ req = plain_headers /\ http.Body_ req = None.
Proof.
  eexists. split; [vm_compute; reflexivity|].
  eapply (newRequest_request (server_client (test_response 200 "")) "GET" "/"
            nil_any).
  vm_compute. reflexivity.
Defined.


Lemma do_decodes_witness :
  do (server_client (test_response 200 "{")) (Some http.Background)
     empty_request (JSONTarget (failing json_SyntaxError) O)
  = {| response := Some (test_response 200 "{");
       err := Some (LibError json_SyntaxError);
       target := JSONTarget (failing json_SyntaxError) O;
       events := [RoundTrip (http.WithContext http.Background empty_request);
                  BodyClose] |}.
Proof.
  apply (do_decodes (server_client (test_response 200 "{")) http.Background
           empty_request (failing json_SyntaxError) O (test_response 200 "{")).
  - reflexivity.
  - vm_compute. split; discriminate.
  - discriminate.
Defined.

(** The call of [Test_get] on a client with an empty base URL: the one
    request is [foo_request]. *)
Lemma get_request_witness :
  http.Method foo_request = "GET"
  /\ http.Header_ foo_request = get_headers "super_secret"
  /\ http.Body_ foo_request = None
  /\ http.ctx foo_request = Some http.Background
  /\ filter (fun ev => is_RoundTrip ev = true)
       (get (server_client (test_response 200 "")) (Some http.Background)
          "foo" "super_secret" query.NilInterface (JSONTarget counting O)).2
     = [RoundTrip foo_request].
Proof.
  apply (get_request (server_client (test_response 200 ""))
           (Some http.Background) "foo" "super_secret" query.NilInterface
           (JSONTarget counting O) foo_request).
  vm_compute. left.
Defined.

(** [TestCheckResponse]: the error refers to the response of the test. *)
Lemma checkResponse_keeps_response_witness :
  (checkResponse (test_response 400 body_with_message)).1
  = test_response 400 body_with_message
  /\ Response_ <$> (checkResponse (test_response 400 body_with_message)).2
     = Some RefArg.
Proof.
  split.
  - apply (checkResponse_keeps_response (test_response 400 body_with_message)).
    vm_compute. reflexivity.
  - vm_compute. reflexivity.
Defined.

(** A body that gives [null] for [response]: asking the error for its
    text panics. *)
Lemma errorResponse_Error_text_witness :
  exists r' e,
    checkResponse (test_response 500 body_null_response) = (r', Some e)
    /\ errorResponse_Error r' e = None.
Proof.
  destruct (errorResponse_Error_text (test_response 500 body_null_response))
    as (r' & e & Hcheck & _ & Hnull).
  - right. vm_compute. reflexivity.
  - exists r', e. split; [exact Hcheck|].
    apply Hnull; vm_compute; reflexivity.
Defined.

(** The text of the error of [TestDo_httpError], and the error after a
    body that gives [null] for [response]. *)
Example errorResponse_Error_texts :
  (let '(r, e) := checkResponse (test_response 400 "Bad Request") in
   errorResponse_Error r <$> e) = Some (Some "GET : 400 Bad Request")
  /\ (let '(r, e) := checkResponse (test_response 500 body_null_response) in
      (errorResponse_Error r <$> e, Message <$> e))
     = (Some None, Some "").
Proof. split; vm_compute; reflexivity. Qed.

Lemma newRequest_at_origin_witness :
  newRequest versioned_client "GET" "/space/aSpace/online/content/foo" nil_any
  = newRequest (at_origin versioned_client) "GET"
      "/space/aSpace/online/content/foo" nil_any.
Proof. apply newRequest_at_origin. reflexivity. Defined.

(** The base URL [https://api.contentchef.io/v1/] and a path of the online
    channel: the request goes to the host, without [/v1]. *)
Example base_path_dropped :
  on_ok (fun req => url.String_ (http.URL req))
    (newRequest versioned_client "GET"
       (getOnlineEndpoint "aSpace" "content" "foo") nil_any)
  = inl "https://api.contentchef.io/space/aSpace/online/content/foo".
Proof. vm_compute. reflexivity. Qed.

Lemma serializeSorting_app_witness :
  serializeSorting ([ {| FieldName := "publicId"; Ascending := true |} ]
                    ++ [ {| FieldName := "onlineDate"; Ascending := false |} ])
  = serializeSorting [ {| FieldName := "publicId"; Ascending := true |} ]
    +:+ "," +:+
    serializeSorting [ {| FieldName := "onlineDate"; Ascending := false |} ].
Proof. apply serializeSorting_app; discriminate. Defined.

(** The body [{"MESSAGE":"m"}]. *)
Lemma checkResponse_message_any_case_witness :
  (checkResponse
     (test_response 404 ("{" +:+ quoted "MESSAGE" +:+ ":" +:+ quoted "m" +:+ "}"))).2
  = Some {| Response_ := RefArg; Message := "m"; X := None |}.
Proof.
  apply (checkResponse_message_any_case
           (test_response 404
              ("{" +:+ quoted "MESSAGE" +:+ ":" +:+ quoted "m" +:+ "}"))
           "MESSAGE" "m").
  - right. vm_compute. reflexivity.
  - reflexivity.
  - vm_compute. reflexivity.
  - vm_compute. reflexivity.
Defined.

(** A path with a malformed escape, and options that would encode. *)
Lemma addOptions_failure_witness :
  (addOptions "/a%zz" (myOpts "bar")).1 = "/a%zz".
Proof.
  refine (proj1 (addOptions_failure "/a%zz" (myOpts "bar")
                   (url_Error "parse" "/a%zz" (url_EscapeError "%zz")) _)).
  vm_compute. reflexivity.
Defined.

Lemma serializeSorting_trims_witness :
  serializeSorting
    (map trimmed [ {| FieldName := " publicId "; Ascending := true |};
                   {| FieldName := "onlineDate"; Ascending := false |} ])
  = serializeSorting [ {| FieldName := " publicId "; Ascending := true |};
                       {| FieldName := "onlineDate"; Ascending := false |} ].
Proof. apply serializeSorting_trims. vm_compute. reflexivity. Defined.

(** A client whose base URL ends in [/v1/], the channel [foo] and the
    options of one content. *)
Lemma channel_urls_witness :
  Forall (requested versioned_client (ContentOptions_ptr (Some one_content))
            (<["publicId" := ["abc"]]> ∅))
    [ getOnlineEndpoint "aSpace" "content" "foo";
      getOnlineEndpoint "aSpace" "search/v2" "foo";
      getPreviewEndpoint "aSpace" "content" "foo" "staging";
      getPreviewEndpoint "aSpace" "search/v2" "foo" "staging" ].
Proof.
  apply (channel_urls versioned_client "foo" "staging"
           (ContentOptions_ptr (Some one_content)) (<["publicId" := ["abc"]]> ∅)).
  - reflexivity.
  - reflexivity.
  - reflexivity.
  - discriminate.
  - vm_compute. reflexivity.
Defined.

(** The same, evaluated: the text of [addOptions] and the URL of the
    request. *)
Example channel_urls_example :
  addOptions (getPreviewEndpoint "aSpace" "content" "foo" "staging")
    (ContentOptions_ptr (Some one_content))
  = ("/space/aSpace/preview/staging/content/foo?publicId=abc", None)
  /\ on_ok url.String_
       (url.URL_Parse (BaseURL versioned_client)
          "/space/aSpace/preview/staging/content/foo?publicId=abc")
     = inl "https://api.contentchef.io/space/aSpace/preview/staging/content/foo?publicId=abc".
Proof. split; vm_compute; reflexivity. Qed.



(** An untyped nil leaves a path of the online channel as it is. *)
Lemma addOptions_nil_reference_witness :
  addOptions "/space/aSpace/online/content/foo" query.NilInterface
  = ("/space/aSpace/online/content/foo", None).
Proof.
  apply (addOptions_nil_reference "/space/aSpace/online/content/foo");
    reflexivity.
Defined.

(** A call of [get] whose body is decoded: the target counts it. *)
Lemma get_target_witness :
  get (server_client (test_response 200 "{}")) (Some http.Background)
    "foo" "super_secret" query.NilInterface (JSONTarget counting O)
  = (None, JSONTarget counting 1%nat, [RoundTrip foo_request; BodyClose]).
Proof.
  apply (proj1 (get_target (server_client (test_response 200 "{}"))
                  (Some http.Background) "foo" "super_secret"
                  query.NilInterface counting O)
           http.Background foo_request (test_response 200 "{}")).
  split; [reflexivity|]. split.
  - exists "foo".
    exists {| http.Method := "GET"; http.URL := http.URL foo_request;
              http.Header_ := plain_headers; http.Body_ := None;
              http.Host := ""; http.ctx := Some http.Background |}.
    repeat split; vm_compute; reflexivity.
  - split; [reflexivity|]. split; [vm_compute; split; discriminate|].
    discriminate.
Defined.

(** Base URLs on a web server: the README's, a local server with a port;
    a base URL with a user is none. *)
Example web_base_examples :
  web_base api_base = true
  /\ (exists u, url.Parse "http://127.0.0.1:8080/v1/" = inl u
                /\ web_base u = true)
  /\ (exists u, url.Parse "https://me@api.contentchef.io/" = inl u
                /\ web_base u = false).
Proof. split; [reflexivity|]. split; eexists; split; vm_compute; reflexivity. Qed.

End MoreExamples.
